(** * ATMOS analytical workspace: aggregation engine and query orchestrator

    A shallow embedding of the chart-projection functions and of the
    request-token protocol of the analytical workspace component
    (analytical-workspace.tsx and its earlier variant), with the
    properties stated for them.

    Conventions of the embedding.
    - A JavaScript [number] is an element of a type [num] carrying the
      operations the code uses ([JSNumber]).  Two instances are given:
      [Binary64], IEEE 754 double precision as the engine computes it,
      and [Exact], the rationals, which is the arithmetic the code would
      perform without rounding or overflow (no statement about [Exact]
      divides by zero).  A property that only depends on how the code is
      put together is stated for every instance; a property of the order
      or of the size of numbers is stated for [Exact], and for [Binary64]
      where it is decided there.
    - Counters that only ever hold small non-negative integers (sample
      counts, request tokens, array positions, row limits) are [nat] or
      [Z]; they stay far below 2^53, where doubles stop being exact.
    - A JavaScript [Map] is an association list in insertion order; [set]
      on a present key replaces the value in place, as the runtime does.
      Objects read from a [Map], changed and written back are modelled by
      value, which agrees with the code because every change is followed
      by the [set] of the same key before the next read.
    - [Date] parsing, [localeCompare] and number-to-string conversion are
      services of the host; they are collected in [Runtime].  The date
      arithmetic of [setUTCDate] and the names a plain object inherits
      from its prototype are services of the host as well, and are
      variables of the sections that use them.
    - A plain object used as a dictionary is the association list of its
      own properties.
    - An [async] function is split at its [await]: the part that runs
      first, and the part that runs when the awaited call settles. *)

From Stdlib Require Import ZArith QArith Qround Qabs Qminmax.
From Stdlib Require Import List String Ascii Bool Arith Lia Lqa.
From Stdlib Require Import Sorting.Sorted Sorting.Permutation.
From Stdlib Require Import DecimalString DecimalZ OrderedTypeEx.
From Stdlib Require Import Floats.
Import ListNotations.

Local Close Scope Q_scope.
Local Open Scope string_scope.
Local Open Scope list_scope.

(** ** Numbers *)

Class JSNumber (num : Type) : Type := {
  of_Z : Z -> num;                (* an integer literal or integer value *)
  add : num -> num -> num;        (* a + b *)
  sub : num -> num -> num;        (* a - b *)
  mul : num -> num -> num;        (* a * b *)
  div : num -> num -> num;        (* a / b *)
  opp : num -> num;               (* -a *)
  lt : num -> num -> bool;        (* a < b *)
  js_abs : num -> num;            (* Math.abs(a) *)
  js_min : num -> num -> num;     (* Math.min(a, b) *)
  js_max : num -> num -> num;     (* Math.max(a, b) *)
  js_floor : num -> num;          (* Math.floor(a) *)
  js_round : num -> num;          (* Math.round(a) *)
  to_Z : num -> option Z          (* the integer a number denotes, if any *)
}.

Definition of_nat {num} `{JSNumber num} (n : nat) : num := of_Z (Z.of_nat n).

(** a > b *)
Definition gt {num} `{JSNumber num} (a b : num) : bool := lt b a.

(** *** Exact arithmetic *)

Definition Qltb (a b : Q) : bool := negb (Qle_bool b a).

Definition Q_to_Z (q : Q) : option Z :=
  if Qeq_bool q (inject_Z (Qfloor q)) then Some (Qfloor q) else None.

#[export] Instance Exact : JSNumber Q := {
  of_Z := inject_Z;
  add := Qplus;
  sub := Qminus;
  mul := Qmult;
  div := Qdiv;
  opp := Qopp;
  lt := Qltb;
  js_abs := Qabs;
  js_min := Qmin;
  js_max := Qmax;
  js_floor := fun q => inject_Z (Qfloor q);
  js_round := fun q => inject_Z (Qfloor (q + (1 # 2)));
  to_Z := Q_to_Z
}.

(** *** IEEE 754 binary64 *)

Module F64.

(** The double of an integer of magnitude below 2^63 (the constants of
    the code, counts and array positions). *)
Definition of_Z (z : Z) : float :=
  match z with
  | Z0 => PrimFloat.zero
  | Zpos _ => PrimFloat.of_uint63 (Uint63.of_Z z)
  | Zneg p => PrimFloat.opp (PrimFloat.of_uint63 (Uint63.of_Z (Zpos p)))
  end.

Definition is_neg_zero (x : float) : bool :=
  PrimFloat.eqb x PrimFloat.zero
  && PrimFloat.ltb (PrimFloat.div PrimFloat.one x) PrimFloat.zero.

(** Math.min and Math.max: NaN is contagious and -0 is below +0. *)
Definition min (a b : float) : float :=
  if PrimFloat.is_nan a || PrimFloat.is_nan b then PrimFloat.nan
  else if PrimFloat.ltb a b then a
  else if PrimFloat.ltb b a then b
  else if is_neg_zero a then a else b.

Definition max (a b : float) : float :=
  if PrimFloat.is_nan a || PrimFloat.is_nan b then PrimFloat.nan
  else if PrimFloat.ltb a b then b
  else if PrimFloat.ltb b a then a
  else if is_neg_zero a then b else a.

(** Math.floor: the greatest integral double not above the argument;
    infinities, NaN and both zeros are returned unchanged. *)
Definition floor (x : float) : float :=
  match Prim2SF x with
  | S754_finite s m e =>
      if (0 <=? e)%Z then x
      else
        let q := Z.shiftr (Zpos m) (- e) in
        let exact := (Z.shiftl q (- e) =? Zpos m)%Z in
        if s then
          (if exact then of_Z (- q) else of_Z (- (q + 1)))
        else
          (if (q =? 0)%Z then PrimFloat.zero else of_Z q)
  | _ => x
  end.

(** Math.round: nearest integer, ties towards +Infinity. *)
Definition round (x : float) : float :=
  let f := floor x in
  let r :=
    if PrimFloat.eqb f x then x
    else if PrimFloat.ltb (PrimFloat.sub x f)
                          (PrimFloat.div PrimFloat.one PrimFloat.two)
         then f
         else PrimFloat.add f PrimFloat.one in
  if PrimFloat.eqb r PrimFloat.zero && PrimFloat.ltb x PrimFloat.zero
  then PrimFloat.neg_zero else r.

(** The integer a double denotes when it is finite and integral. *)
Definition to_Z (x : float) : option Z :=
  match Prim2SF x with
  | S754_zero _ => Some 0%Z
  | S754_finite s m e =>
      let mag :=
        if (0 <=? e)%Z then Some (Z.shiftl (Zpos m) e)
        else
          let q := Z.shiftr (Zpos m) (- e) in
          if (Z.shiftl q (- e) =? Zpos m)%Z then Some q else None in
      match mag with
      | Some q => Some (if s then (- q)%Z else q)
      | None => None
      end
  | _ => None
  end.

End F64.

#[export] Instance Binary64 : JSNumber float := {
  of_Z := F64.of_Z;
  add := PrimFloat.add;
  sub := PrimFloat.sub;
  mul := PrimFloat.mul;
  div := PrimFloat.div;
  opp := PrimFloat.opp;
  lt := PrimFloat.ltb;
  js_abs := PrimFloat.abs;
  js_min := F64.min;
  js_max := F64.max;
  js_floor := F64.floor;
  js_round := F64.round;
  to_Z := F64.to_Z
}.

(** ** Host data structures *)

(** *** Map: insertion-ordered association list *)

Section JSMap.
Context {V : Type}.

Definition JSMap := list (string * V).

Fixpoint map_get (m : JSMap) (k : string) : option V :=
  match m with
  | [] => None
  | (k', v) :: m' => if String.eqb k' k then Some v else map_get m' k
  end.

(** [set] keeps the position of a key that is already present and
    appends a new key at the end. *)
Fixpoint map_set (m : JSMap) (k : string) (v : V) : JSMap :=
  match m with
  | [] => [(k, v)]
  | (k', v') :: m' =>
      if String.eqb k' k then (k', v) :: m' else (k', v') :: map_set m' k v
  end.

Definition map_keys (m : JSMap) : list string := List.map fst m.

(** [m.get(k) ?? d] *)
Definition get_or (m : JSMap) (k : string) (d : V) : V :=
  match map_get m k with Some v => v | None => d end.
End JSMap.
Arguments JSMap V : clear implicits.

(** *** Set of strings: insertion-ordered, no duplicates *)

Definition set_add (s : list string) (x : string) : list string :=
  if existsb (String.eqb x) s then s else s ++ [x].

(** *** Array.prototype.sort

    The sort is stable; it is driven by the sign of the comparator only.
    [after a b] holds when the comparator is positive on [(a, b)], which
    places [a] behind [b]; a negative, zero or NaN comparator leaves the
    earlier element in front. *)

Section Sort.
Context {A : Type} (after : A -> A -> bool).

Fixpoint sort_insert (x : A) (l : list A) : list A :=
  match l with
  | [] => [x]
  | y :: l' => if after x y then y :: sort_insert x l' else x :: l
  end.

Fixpoint js_sort (l : list A) : list A :=
  match l with
  | [] => []
  | x :: l' => sort_insert x (js_sort l')
  end.
End Sort.

(** [arr.slice(-n)]: the last [n] elements. *)
Definition slice_last {A} (n : nat) (l : list A) : list A :=
  skipn (List.length l - n) l.

(** *** Strings of integers *)

(** Template-literal rendering of an integer-valued number; [None] is NaN. *)
Definition int_str (n : option Z) : string :=
  match n with
  | Some z => NilZero.string_of_int (Z.to_int z)
  | None => "NaN"
  end.

Fixpoint zeros (n : nat) : string :=
  match n with O => "" | S n' => String "0" (zeros n') end.

(** [s.padStart(2, '0')] *)
Definition padStart2 (s : string) : string :=
  (zeros (2 - String.length s) ++ s)%string.

(** Default comparison of strings, by code unit. *)
Definition str_lt (a b : string) : bool :=
  match String.compare a b with Lt => true | _ => false end.
Definition str_le (a b : string) : bool :=
  match String.compare a b with Gt => false | _ => true end.

(** *** Dates *)

(** The calendar fields of a valid [Date] in UTC, as the getUTC* accessors
    report them ([utcMonth] counts from 0). *)
Record UTCFields : Set := {
  utcFullYear : Z;
  utcMonth : Z;
  utcDate : Z;
  utcHours : Z;
  utcMinutes : Z
}.

(** [None] is the invalid date, whose accessors all return NaN. *)
Definition JSDate := option UTCFields.

Definition getUTCFullYear (d : JSDate) : option Z := option_map utcFullYear d.
Definition getUTCMonth (d : JSDate) : option Z := option_map utcMonth d.
Definition getUTCDate (d : JSDate) : option Z := option_map utcDate d.
Definition getUTCHours (d : JSDate) : option Z := option_map utcHours d.

(** [n + 1] on an integer or NaN. *)
Definition succ_int (n : option Z) : option Z := option_map Z.succ n.

(** ** Rows and host services *)

Section Engine.
Context {num : Type} `{JSNumber num}.

(** What the host provides: [new Date(s)], [new Date(s).getHours()] in
    the local zone, [a.localeCompare(b)] and [String(n)] of a number. *)
Record Runtime : Type := {
  newDate : string -> JSDate;
  getHours : string -> option Z;
  localeCompare : string -> string -> Z;
  numberToString : num -> string
}.

(** AnalyticsDataRow *)
Record AnalyticsDataRow : Type := {
  observed_at : string;
  station_code : string;
  station_name : string;
  variable_code : string;
  variable_name : string;
  value : num;
  unit_label : option string;
  source_file_id : Z;
  source_file_name : string;
  source_type : string
}.

Inductive TimeGranularity : Set := hour | day | month | year.

(** The [{ sum, count }] accumulator. *)
Record Accumulator : Type := { acc_sum : num; acc_count : nat }.

Definition acc_empty : Accumulator := {| acc_sum := of_Z 0; acc_count := 0 |}.

(** [a.sum += v; a.count += 1] *)
Definition acc_add (a : Accumulator) (v : num) : Accumulator :=
  {| acc_sum := add (acc_sum a) v; acc_count := S (acc_count a) |}.

(** [a.sum / a.count] *)
Definition acc_mean (a : Accumulator) : num :=
  div (acc_sum a) (of_nat (acc_count a)).

Variable rt : Runtime.

(** *** round *)

Definition round (v : num) : num :=
  let factor := of_Z 100 in
  div (js_round (mul v factor)) factor.

(** *** getBucketKey *)

Definition day_key (dt : JSDate) : string :=
  let year := int_str (getUTCFullYear dt) in
  let month := padStart2 (int_str (succ_int (getUTCMonth dt))) in
  let day := padStart2 (int_str (getUTCDate dt)) in
  (year ++ "-" ++ month ++ "-" ++ day)%string.

Definition getBucketKey (observedAt : string) (granularity : TimeGranularity)
  : string :=
  let dt := newDate rt observedAt in
  let year := int_str (getUTCFullYear dt) in
  let month := padStart2 (int_str (succ_int (getUTCMonth dt))) in
  let day := padStart2 (int_str (getUTCDate dt)) in
  let hour := padStart2 (int_str (getUTCHours dt)) in
  match granularity with
  | year => year
  | month => (year ++ "-" ++ month)%string
  | hour => (year ++ "-" ++ month ++ "-" ++ day ++ " " ++ hour ++ ":00")%string
  | day => (year ++ "-" ++ month ++ "-" ++ day)%string
  end.

(** *** computeTemporalSeries *)

(** A property value of a chart point: a string or a number. *)
Inductive JSValue : Type :=
| JStr (s : string)
| JNum (n : num).

(** [String(v)] *)
Definition String_ (v : JSValue) : string :=
  match v with
  | JStr s => s
  | JNum n => numberToString rt n
  end.

(** TemporalPoint: the two declared properties and the open-ended
    per-series properties written by string index. *)
Record TemporalPoint : Type := {
  bucket : JSValue;
  overall : num;
  series : JSMap num
}.

(** [point[key] = v]: a key named like a declared property overwrites
    that property. *)
Definition point_set (p : TemporalPoint) (key : string) (v : num)
  : TemporalPoint :=
  if String.eqb key "bucket" then
    {| bucket := JNum v; overall := overall p; series := series p |}
  else if String.eqb key "overall" then
    {| bucket := bucket p; overall := v; series := series p |}
  else
    {| bucket := bucket p; overall := overall p;
       series := map_set (series p) key v |}.

Definition seriesKeyOf (splitByStation : bool) (row : AnalyticsDataRow)
  : string :=
  if splitByStation then station_code row else variable_code row.

(** One iteration of the accumulation loop. *)
Definition temporal_step (granularity : TimeGranularity)
    (splitByStation : bool)
    (st : JSMap (JSMap Accumulator) * JSMap nat) (row : AnalyticsDataRow)
  : JSMap (JSMap Accumulator) * JSMap nat :=
  let '(bucketMap, seriesCounter) := st in
  let bucket := getBucketKey (observed_at row) granularity in
  let seriesKey := seriesKeyOf splitByStation row in
  let seriesBuckets := get_or bucketMap bucket [] in
  let item := get_or seriesBuckets seriesKey acc_empty in
  let seriesBuckets := map_set seriesBuckets seriesKey (acc_add item (value row)) in
  let overall := get_or seriesBuckets "overall" acc_empty in
  let seriesBuckets := map_set seriesBuckets "overall" (acc_add overall (value row)) in
  (map_set bucketMap bucket seriesBuckets,
   map_set seriesCounter seriesKey (get_or seriesCounter seriesKey 0 + 1)%nat).

(** The point built from one bucket's accumulators. *)
Definition temporal_point (entry : string * JSMap Accumulator)
  : TemporalPoint :=
  let '(bucket, grouped) := entry in
  fold_left (fun point kv => point_set point (fst kv) (acc_mean (snd kv)))
            grouped
            {| bucket := JStr bucket; overall := of_Z 0; series := [] |}.

Definition point_after (a b : TemporalPoint) : bool :=
  (0 <? localeCompare rt (String_ (bucket a)) (String_ (bucket b)))%Z.

(** [(a, b) => b[1] - a[1]] on the series counters. *)
Definition counter_after (a b : string * nat) : bool :=
  (0 <? Z.of_nat (snd b) - Z.of_nat (snd a))%Z.

Definition computeTemporalSeries (rows : list AnalyticsDataRow)
    (granularity : TimeGranularity) (splitByStation : bool)
  : list TemporalPoint * list string :=
  let '(bucketMap, seriesCounter) :=
    fold_left (temporal_step granularity splitByStation) rows ([], []) in
  let points := js_sort point_after (List.map temporal_point bucketMap) in
  let keys := List.map fst (js_sort counter_after seriesCounter) in
  let effectiveKeys := if splitByStation then keys else firstn 4 keys in
  (points, effectiveKeys).

(** *** computeStationBars *)

Record StationBarPoint : Type := { station : string; avg : num }.

Definition station_step (grouped : JSMap Accumulator) (row : AnalyticsDataRow)
  : JSMap Accumulator :=
  let bucket := get_or grouped (station_code row) acc_empty in
  map_set grouped (station_code row) (acc_add bucket (value row)).

(** [(a, b) => b.avg - a.avg] *)
Definition bar_after (a b : StationBarPoint) : bool :=
  lt (of_Z 0) (sub (avg b) (avg a)).

Definition computeStationBars (rows : list AnalyticsDataRow)
  : list StationBarPoint :=
  let grouped := fold_left station_step rows [] in
  js_sort bar_after
    (List.map (fun e => {| station := fst e; avg := acc_mean (snd e) |})
              grouped).

(** The variant of the earlier workspace, capped for rendering:
    the same pipeline followed by [.slice(0, 14)]. *)
Definition computeStationBars_capped (rows : list AnalyticsDataRow)
  : list StationBarPoint :=
  firstn 14 (computeStationBars rows).

(** *** computeHistogram *)

Record HistogramPoint : Type := { range : string; count : nat }.

(** [Math.min(...values)] and [Math.max(...values)] of a non-empty spread *)
Definition min_of (v0 : num) (vs : list num) : num := fold_left js_min vs v0.
Definition max_of (v0 : num) (vs : list num) : num := fold_left js_max vs v0.

(** The literal [1e-9]. *)
Definition tolerance : num := div (of_Z 1) (of_Z 1000000000).

Fixpoint bump (i : nat) (buckets : list nat) : list nat :=
  match buckets, i with
  | [], _ => []
  | c :: rest, O => S c :: rest
  | c :: rest, S i' => c :: bump i' rest
  end.

(** [buckets[index] += 1].  An index that is not a non-negative integer
    (NaN, a fraction, a negative number) names a property that is not an
    element, so the elements are unchanged.  The index is never past the
    end: it is bounded by [bins - 1] through [Math.min]. *)
Definition bump_at (buckets : list nat) (index : num) : list nat :=
  match to_Z index with
  | Some z => if (0 <=? z)%Z then bump (Z.to_nat z) buckets else buckets
  | None => buckets
  end.

(** [Math.min(bins - 1, Math.floor((value - min) / width))] *)
Definition bin_index (bins : Z) (min width v : num) : num :=
  js_min (of_Z (bins - 1)) (js_floor (div (sub v min) width)).

Definition range_label (a b : num) : string :=
  (numberToString rt (round a) ++ "-" ++ numberToString rt (round b))%string.

(** The body shared by the two workspaces; they differ in how the single
    bin of a degenerate range is labelled.  [bins] is an integer below the
    host's limit on array lengths. *)
Definition histogramWith (single_label : num -> num -> string)
    (rows : list AnalyticsDataRow) (bins : Z) : list HistogramPoint :=
  match List.map value rows with
  | [] => []
  | v0 :: vs =>
      let values := v0 :: vs in
      let min := min_of v0 vs in
      let max := max_of v0 vs in
      if lt (js_abs (sub max min)) tolerance then
        [ {| range := single_label min max; count := List.length rows |} ]
      else
        let width := div (sub max min) (of_Z bins) in
        let buckets :=
          fold_left (fun buckets v => bump_at buckets (bin_index bins min width v))
                    values (repeat 0%nat (Z.to_nat bins)) in
        List.map
          (fun ci =>
             let '(index, count) := ci in
             let start := add min (mul width (of_nat index)) in
             let end_ := add start width in
             {| range := range_label start end_; count := count |})
          (combine (seq 0 (List.length buckets)) buckets)
  end.

Definition computeHistogram : list AnalyticsDataRow -> Z -> list HistogramPoint :=
  histogramWith range_label.

(** The earlier workspace writes the single bin as [`${a} - ${b}`]. *)
Definition computeHistogram_earlier
  : list AnalyticsDataRow -> Z -> list HistogramPoint :=
  histogramWith (fun a b =>
    (numberToString rt (round a) ++ " - " ++ numberToString rt (round b))%string).

(** The default bin counts of the two workspaces. *)
Definition DEFAULT_BINS : Z := 16.
Definition DEFAULT_BINS_EARLIER : Z := 14.

(** *** computeHeatmap *)

Record HeatMatrix : Type := {
  days : list string;
  hours : list Z;
  values : JSMap num
}.

(** The key [`${day}|${hour}`]. *)
Definition heat_key (day : string) (hour : option Z) : string :=
  (day ++ "|" ++ int_str hour)%string.

Section Heatmap.
(** How a row's day and hour are read off its timestamp. *)
Variable day_of : AnalyticsDataRow -> string.
Variable hour_of : AnalyticsDataRow -> option Z.

Definition heat_step (st : JSMap Accumulator * list string)
    (row : AnalyticsDataRow) : JSMap Accumulator * list string :=
  let '(grouped, daySet) := st in
  let day := day_of row in
  let hour := hour_of row in
  let key := heat_key day hour in
  let bucket := get_or grouped key acc_empty in
  (map_set grouped key (acc_add bucket (value row)), set_add daySet day).

Definition heat_cell (grouped : JSMap Accumulator) (values : JSMap num)
    (day : string) (hour : Z) : JSMap num :=
  let key := heat_key day (Some hour) in
  match map_get grouped key with
  | Some item => map_set values key (acc_mean item)
  | None => values
  end.

Definition computeHeatmapWith (rows : list AnalyticsDataRow) : HeatMatrix :=
  let '(grouped, daySet) := fold_left heat_step rows ([], []) in
  let days := slice_last 14 (js_sort (fun a b => str_lt b a) daySet) in
  let hours := List.map Z.of_nat (seq 0 24) in
  let values :=
    fold_left (fun values day => fold_left (fun values hour =>
                 heat_cell grouped values day hour) hours values)
              days [] in
  {| days := days; hours := hours; values := values |}.
End Heatmap.

(** The current workspace reads day and hour in UTC. *)
Definition computeHeatmap : list AnalyticsDataRow -> HeatMatrix :=
  computeHeatmapWith
    (fun row => day_key (newDate rt (observed_at row)))
    (fun row => getUTCHours (newDate rt (observed_at row))).

(** The earlier workspace takes the day from the first ten characters of
    the timestamp and the hour from the local clock. *)
Definition computeHeatmap_earlier : list AnalyticsDataRow -> HeatMatrix :=
  computeHeatmapWith
    (fun row => String.substring 0 10 (observed_at row))
    (fun row => getHours rt (observed_at row)).

(** *** buildSummary *)

Inductive Trend : Set := Rising | Falling | Stable.

Record SummaryStats : Type := {
  samples : nat;
  mean : num;
  smin : num;
  smax : num;
  trend : Trend
}.

(** [Math.max(0.05, Math.abs(mean) * 0.02)] *)
Definition trend_threshold (mean : num) : num :=
  js_max (div (of_Z 5) (of_Z 100))
         (mul (js_abs mean) (div (of_Z 2) (of_Z 100))).

Definition classify_trend (mean first last : num) : Trend :=
  let delta := sub last first in
  let threshold := trend_threshold mean in
  if gt delta threshold then Rising
  else if lt delta (opp threshold) then Falling
  else Stable.

Definition buildSummary (rows : list AnalyticsDataRow)
    (temporalSeries : list TemporalPoint) : SummaryStats :=
  match List.map value rows with
  | [] => {| samples := 0; mean := of_Z 0; smin := of_Z 0; smax := of_Z 0;
             trend := Stable |}
  | v0 :: vs =>
      let values := v0 :: vs in
      let mean := div (fold_left add values (of_Z 0))
                      (of_nat (List.length values)) in
      let min := min_of v0 vs in
      let max := max_of v0 vs in
      let trend :=
        match temporalSeries with
        | p0 :: _ :: _ =>
            classify_trend mean (overall p0) (overall (last temporalSeries p0))
        | _ => Stable
        end in
      {| samples := List.length rows; mean := mean; smin := min; smax := max;
         trend := trend |}
  end.

End Engine.

Arguments Runtime num : clear implicits.
Arguments AnalyticsDataRow num : clear implicits.
Arguments TemporalPoint num : clear implicits.
Arguments JSValue num : clear implicits.
Arguments Accumulator num : clear implicits.
Arguments StationBarPoint num : clear implicits.
Arguments HeatMatrix num : clear implicits.
Arguments SummaryStats num : clear implicits.

(** ** normalizeDateRange *)

(** A string is falsy exactly when it is empty. *)
Definition falsy (s : string) : bool := String.eqb s "".

(** [s || undefined] *)
Definition or_undefined (s : string) : option string :=
  if falsy s then None else Some s.

Record DateRange : Set := { range_from : option string; range_to : option string }.

Definition normalizeDateRange (from to : string) : DateRange :=
  if falsy from || falsy to then
    {| range_from := or_undefined from; range_to := or_undefined to |}
  else if str_le from to then
    {| range_from := Some from; range_to := Some to |}
  else
    {| range_from := Some to; range_to := Some from |}.

(** ** The query orchestrator *)

Record AnalyticsSourceOption : Set := {
  id : Z;
  name : string;
  src_type : string;
  etl_run_id : string;
  downloaded_at : option string;
  row_count : Z
}.

(** AnalyticsFilterOptionsResponse; the station and variable option lists
    are carried along but never read by the orchestrator. *)
Record AnalyticsFilterOptionsResponse : Set := {
  sources : list AnalyticsSourceOption;
  min_observed_at : option string;
  max_observed_at : option string
}.

Record AnalyticsQueryRequest : Set := {
  source_file_ids : list Z;
  station_codes : option (list string);
  date_from : option string;
  date_to : option string;
  limit : Z
}.

(** How an awaited call settles; a rejection carries the message of the
    thrown value when it is an [Error]. *)
Inductive Settled (R : Type) : Type :=
| Fulfilled (response : R)
| Rejected (message : option string).
Arguments Fulfilled {R} response.
Arguments Rejected {R} message.

Section Orchestrator.
Context {num : Type}.

(** The station live snapshot is stored and handed to the view as it
    comes; the orchestrator does not look inside. *)
Context {StationLiveSnapshotResponse : Type}.

Record AnalyticsQueryResponse : Type := {
  resp_rows : list (AnalyticsDataRow num);
  resp_row_count : Z;
  truncated : bool
}.

(** The component state the two channels touch: the React state cells and
    the two [useRef] counters. *)
Record Workspace : Type := {
  rows : list (AnalyticsDataRow num);
  loading : bool;
  error : option string;
  liveSnapshot : option StationLiveSnapshotResponse;
  liveLoading : bool;
  requestIdRef : nat;
  liveRequestIdRef : nat
}.

Definition initial : Workspace :=
  {| rows := []; loading := false; error := None; liveSnapshot := None;
     liveLoading := false; requestIdRef := 0; liveRequestIdRef := 0 |}.

Definition setRows (v : list (AnalyticsDataRow num)) (w : Workspace) :=
  {| rows := v; loading := loading w; error := error w;
     liveSnapshot := liveSnapshot w; liveLoading := liveLoading w;
     requestIdRef := requestIdRef w; liveRequestIdRef := liveRequestIdRef w |}.
Definition setLoading (v : bool) (w : Workspace) :=
  {| rows := rows w; loading := v; error := error w;
     liveSnapshot := liveSnapshot w; liveLoading := liveLoading w;
     requestIdRef := requestIdRef w; liveRequestIdRef := liveRequestIdRef w |}.
Definition setError (v : option string) (w : Workspace) :=
  {| rows := rows w; loading := loading w; error := v;
     liveSnapshot := liveSnapshot w; liveLoading := liveLoading w;
     requestIdRef := requestIdRef w; liveRequestIdRef := liveRequestIdRef w |}.
Definition setLiveSnapshot (v : option StationLiveSnapshotResponse)
    (w : Workspace) :=
  {| rows := rows w; loading := loading w; error := error w;
     liveSnapshot := v; liveLoading := liveLoading w;
     requestIdRef := requestIdRef w; liveRequestIdRef := liveRequestIdRef w |}.
Definition setLiveLoading (v : bool) (w : Workspace) :=
  {| rows := rows w; loading := loading w; error := error w;
     liveSnapshot := liveSnapshot w; liveLoading := v;
     requestIdRef := requestIdRef w; liveRequestIdRef := liveRequestIdRef w |}.
Definition setRequestId (v : nat) (w : Workspace) :=
  {| rows := rows w; loading := loading w; error := error w;
     liveSnapshot := liveSnapshot w; liveLoading := liveLoading w;
     requestIdRef := v; liveRequestIdRef := liveRequestIdRef w |}.
Definition setLiveRequestId (v : nat) (w : Workspace) :=
  {| rows := rows w; loading := loading w; error := error w;
     liveSnapshot := liveSnapshot w; liveLoading := liveLoading w;
     requestIdRef := requestIdRef w; liveRequestIdRef := v |}.

(** *** runAnalysis *)

Record RunArgs : Set := {
  sourceId : option Z;
  stationCodes : list string;
  fromDate : string;
  toDate : string;
  requestedLimit : Z
}.

(** [filters?.sources.find((source) => source.id === sourceId)] *)
Definition find_source (filters : option AnalyticsFilterOptionsResponse)
    (sid : Z) : option AnalyticsSourceOption :=
  match filters with
  | Some f => find (fun source => Z.eqb (id source) sid) (sources f)
  | None => None
  end.

Definition effective_limit (filters : option AnalyticsFilterOptionsResponse)
    (sid requested : Z) : Z :=
  let sourceForLimit := find_source filters sid in
  let datasetMaxRows :=
    Z.max 100 (match sourceForLimit with
               | Some s => row_count s
               | None => requested
               end) in
  Z.max 100 (Z.min requested datasetMaxRows).

Definition build_payload (filters : option AnalyticsFilterOptionsResponse)
    (sid : Z) (a : RunArgs) : AnalyticsQueryRequest :=
  let normalizedRange := normalizeDateRange (fromDate a) (toDate a) in
  {| source_file_ids := [sid];
     station_codes :=
       (match stationCodes a with [] => None | l => Some l end);
     date_from := range_from normalizedRange;
     date_to := range_to normalizedRange;
     limit := effective_limit filters sid (requestedLimit a) |}.

(** The part of [runAnalysis] that runs before the [await]: the new
    state, and the token and payload of the request that is dispatched,
    if one is. *)
Definition runAnalysis_start (filters : option AnalyticsFilterOptionsResponse)
    (a : RunArgs) (w : Workspace)
  : Workspace * option (nat * AnalyticsQueryRequest) :=
  match sourceId a with
  | None =>
      (setError (Some "Select a source file to visualize data.")
                (setRows [] w), None)
  | Some sid =>
      let payload := build_payload filters sid a in
      let requestId := requestIdRef w + 1 in
      let w := setRequestId requestId w in
      let w := setLoading true w in
      let w := setError None w in
      (w, Some (requestId, payload))
  end.

(** The [finally] block. *)
Definition runAnalysis_finally (requestId : nat) (w : Workspace) : Workspace :=
  if Nat.eqb requestId (requestIdRef w) then setLoading false w else w.

(** The part of [runAnalysis] that runs when the awaited query settles. *)
Definition runAnalysis_resume (requestId : nat)
    (outcome : Settled AnalyticsQueryResponse) (w : Workspace) : Workspace :=
  match outcome with
  | Fulfilled response =>
      if negb (Nat.eqb requestId (requestIdRef w)) then
        runAnalysis_finally requestId w
      else
        let w := setRows (resp_rows response) w in
        let w :=
          if Nat.eqb (List.length (resp_rows response)) 0
          then setError (Some "No data for the selected source and filters.") w
          else w in
        runAnalysis_finally requestId w
  | Rejected err =>
      if negb (Nat.eqb requestId (requestIdRef w)) then
        runAnalysis_finally requestId w
      else
        let w := setRows [] w in
        let w :=
          setError (Some (match err with
                          | Some message => message
                          | None => "Failed to load analytics data."
                          end)) w in
        runAnalysis_finally requestId w
  end.

(** *** refreshLiveSnapshot *)

Definition refreshLiveSnapshot_start (w : Workspace) : Workspace * nat :=
  let requestId := liveRequestIdRef w + 1 in
  let w := setLiveRequestId requestId w in
  (setLiveLoading true w, requestId).

Definition refreshLiveSnapshot_finally (requestId : nat) (w : Workspace)
  : Workspace :=
  if Nat.eqb requestId (liveRequestIdRef w) then setLiveLoading false w else w.

Definition refreshLiveSnapshot_resume (requestId : nat)
    (outcome : Settled StationLiveSnapshotResponse) (w : Workspace)
  : Workspace :=
  match outcome with
  | Fulfilled response =>
      if negb (Nat.eqb requestId (liveRequestIdRef w)) then
        refreshLiveSnapshot_finally requestId w
      else
        refreshLiveSnapshot_finally requestId
          (setLiveSnapshot (Some response) w)
  | Rejected _ =>
      if negb (Nat.eqb requestId (liveRequestIdRef w)) then
        refreshLiveSnapshot_finally requestId w
      else
        refreshLiveSnapshot_finally requestId (setLiveSnapshot None w)
  end.

(** *** Event traces *)

(** What can happen to the workspace, one event at a time: the user (or
    the debounce timer) starts a query, a live refresh is started, or an
    awaited call of either channel settles. *)
Inductive Event : Type :=
| RunAnalysis (filters : option AnalyticsFilterOptionsResponse) (a : RunArgs)
| AnalysisSettled (requestId : nat) (outcome : Settled AnalyticsQueryResponse)
| RefreshLive
| LiveSettled (requestId : nat) (outcome : Settled StationLiveSnapshotResponse).

Definition step (w : Workspace) (e : Event) : Workspace :=
  match e with
  | RunAnalysis filters a => fst (runAnalysis_start filters a w)
  | AnalysisSettled requestId outcome => runAnalysis_resume requestId outcome w
  | RefreshLive => fst (refreshLiveSnapshot_start w)
  | LiveSettled requestId outcome => refreshLiveSnapshot_resume requestId outcome w
  end.

Definition run (w : Workspace) (trace : list Event) : Workspace :=
  fold_left step trace w.

(** The tokens issued on the main channel along a trace, oldest first. *)
Fixpoint issued (w : Workspace) (trace : list Event) : list nat :=
  match trace with
  | [] => []
  | e :: trace' =>
      match e with
      | RunAnalysis filters a =>
          match snd (runAnalysis_start filters a w) with
          | Some (requestId, _) => [requestId]
          | None => []
          end
      | _ => []
      end ++ issued (step w e) trace'
  end.

End Orchestrator.
Arguments AnalyticsQueryResponse num : clear implicits.
Arguments Workspace num StationLiveSnapshotResponse : clear implicits.
Arguments Event num StationLiveSnapshotResponse : clear implicits.

(** ** Row limit, station selection and SQL preview

    The state of the workspace around the orchestrator: the row limit the
    queries are issued with, the list of selected stations, and the SQL
    preview panel. *)

(** [selectedSource]: the option of [filters] whose id is the selected
    one, [null] while there are no filters or nothing is selected. *)
Definition selectedSource (filters : option AnalyticsFilterOptionsResponse)
    (selectedSourceId : option Z) : option AnalyticsSourceOption :=
  match filters, selectedSourceId with
  | Some f, Some sid => find (fun source => Z.eqb (id source) sid) (sources f)
  | _, _ => None
  end.

(** [Math.max(100, selectedSource?.row_count ?? 5000)] *)
Definition sourceMaxRows (selected : option AnalyticsSourceOption) : Z :=
  Z.max 100 (match selected with
             | Some s => row_count s
             | None => 5000
             end).

(** The updater the effect on [sourceMaxRows] passes to [setRowLimit]. *)
Definition clampRowLimit (maxRows current : Z) : Z :=
  Z.min (Z.max 100 current) maxRows.

(** The row limit the bootstrap effect sets for the first source. *)
Definition bootstrapRowLimit (firstSource : option AnalyticsSourceOption) : Z :=
  Z.max 100 (Z.min 5000 (match firstSource with
                         | Some s => row_count s
                         | None => 5000
                         end)).

(** The updater [handleToggleStation] passes to [setSelectedStations]. *)
Definition handleToggleStation (stationCode : string) (current : list string)
  : list string :=
  if existsb (String.eqb stationCode) current then
    filter (fun item => negb (String.eqb item stationCode)) current
  else
    current ++ [stationCode].

(** [splitLineByStation] *)
Definition splitLineByStation (selectedStations : list string) : bool :=
  Nat.ltb 1 (List.length selectedStations).

Section SqlPreview.

(** The rows of a preview are stored and handed to the table as they
    come. *)
Context {SqlRow : Type}.

Record SqlPreviewResponse : Type := {
  sql_columns : list string;
  sql_rows : list SqlRow;
  sql_row_count : Z;
  sql_truncated : bool
}.

Record SqlPanel : Type := {
  sqlLoading : bool;
  sqlError : option string;
  sqlPreview : option SqlPreviewResponse
}.

Definition setSqlLoading (v : bool) (p : SqlPanel) : SqlPanel :=
  {| sqlLoading := v; sqlError := sqlError p; sqlPreview := sqlPreview p |}.
Definition setSqlError (v : option string) (p : SqlPanel) : SqlPanel :=
  {| sqlLoading := sqlLoading p; sqlError := v; sqlPreview := sqlPreview p |}.
Definition setSqlPreview (v : option SqlPreviewResponse) (p : SqlPanel)
  : SqlPanel :=
  {| sqlLoading := sqlLoading p; sqlError := sqlError p; sqlPreview := v |}.

(** [handleRunSqlPreview] up to its [await]. *)
Definition handleRunSqlPreview_start (p : SqlPanel) : SqlPanel :=
  setSqlError None (setSqlLoading true p).

(** [handleRunSqlPreview] from the moment the awaited preview settles. *)
Definition handleRunSqlPreview_resume (outcome : Settled SqlPreviewResponse)
    (p : SqlPanel) : SqlPanel :=
  let p :=
    match outcome with
    | Fulfilled response =>
        let p := setSqlPreview (Some response) p in
        if sql_truncated response then
          setSqlError
            (Some ("SQL preview truncated to "
                   ++ int_str (Some (sql_row_count response))
                   ++ " rows.")%string) p
        else p
    | Rejected err =>
        let p := setSqlPreview None p in
        setSqlError (Some (match err with
                           | Some message => message
                           | None => "SQL preview failed."
                           end)) p
    end in
  setSqlLoading false p.

(** One press of the run button, from the click to the settled call; the
    button is disabled while [sqlLoading] holds. *)
Definition handleRunSqlPreview (p : SqlPanel)
    (outcome : Settled SqlPreviewResponse) : SqlPanel :=
  handleRunSqlPreview_resume outcome (handleRunSqlPreview_start p).

End SqlPreview.
Arguments SqlPreviewResponse SqlRow : clear implicits.
Arguments SqlPanel SqlRow : clear implicits.

(** ** Colours of the heatmap *)

(** The comparison [a <= b], which the colour scale adds to the
    operations of the engine; on doubles it is false when either side is
    NaN. *)
Class JSLessEq (num : Type) : Type := { js_le : num -> num -> bool }.

#[export] Instance Exact_le : JSLessEq Q := { js_le := Qle_bool }.
#[export] Instance Binary64_le : JSLessEq float := { js_le := PrimFloat.leb }.

Section HeatmapColours.
Context {num : Type} `{JSNumber num} `{JSLessEq num}.
Variable rt : Runtime num.

(** [92 - ratio * 38] with [ratio = (value - min) / (max - min)] *)
Definition lightness (value min max : num) : num :=
  let ratio := div (sub value min) (sub max min) in
  sub (of_Z 92) (mul ratio (of_Z 38)).

Definition intensityColor (value min max : num) : string :=
  if js_le max min then "hsl(205, 80%, 88%)"
  else
    ("hsl(205, 72%, " ++ numberToString rt (lightness value min max) ++ "%)")%string.

(** [Array.from(heatmap.values.values())] *)
Definition heatValues (heatmap : HeatMatrix num) : list num :=
  List.map snd (values heatmap).

Definition heatMin (heatmap : HeatMatrix num) : num :=
  match heatValues heatmap with
  | [] => of_Z 0
  | v :: vs => min_of v vs
  end.

Definition heatMax (heatmap : HeatMatrix num) : num :=
  match heatValues heatmap with
  | [] => of_Z 1
  | v :: vs => max_of v vs
  end.

(** The background of the cell drawn for a day and an hour. *)
Definition cell_background (heatmap : HeatMatrix num) (day : string)
    (hour : Z) : string :=
  match map_get (values heatmap) (heat_key day (Some hour)) with
  | None => "hsl(210, 30%, 95%)"
  | Some value => intensityColor value (heatMin heatmap) (heatMax heatmap)
  end.

End HeatmapColours.

(** ** Scatter series *)

Definition getUTCMinutes (d : JSDate) : option Z := option_map utcMinutes d.

Section Scatter.
Context {num : Type} `{JSNumber num}.
Variable rt : Runtime num.

(** The names a fresh object literal already answers to through its
    prototype ([constructor], [toString], [__proto__], ...); the host
    decides which they are. *)
Variable inherited : string -> bool.

(** A point of a scatter series; the hour is [None] when it is NaN. *)
Record ScatterPoint : Type := { point_hour : option num; point_value : num }.

(** [round(hours + minutes / 60, 2)] on two accessors of the same date *)
Definition hour_of_day (hours minutes : option Z) : option num :=
  match hours, minutes with
  | Some h, Some m => Some (round (add (of_Z h) (div (of_Z m) (of_Z 60))))
  | _, _ => None
  end.

Definition scatter_point (row : AnalyticsDataRow num) : ScatterPoint :=
  let dt := newDate rt (observed_at row) in
  {| point_hour := hour_of_day (getUTCHours dt) (getUTCMinutes dt);
     point_value := value row |}.

(** One iteration of the loop over an object used as a dictionary.  The
    own properties of [output] are kept as an association list.  A
    station code that is not an own property but is inherited reads as a
    truthy value that is not an array, so no array is stored and the call
    of [push] throws a [TypeError]; [None] is that exception. *)
Definition scatter_step (st : option (JSMap (list ScatterPoint)))
    (row : AnalyticsDataRow num) : option (JSMap (list ScatterPoint)) :=
  match st with
  | None => None
  | Some output =>
      let code := station_code row in
      match map_get output code with
      | Some points => Some (map_set output code (points ++ [scatter_point row]))
      | None =>
          if inherited code then None
          else Some (map_set output code [scatter_point row])
      end
  end.

(** The series of every station over the first 4000 rows.  The list
    holds the own properties in the order in which they were created,
    which is not always the order in which [Object.entries] lists them. *)
Definition computeScatterByStation (rows : list (AnalyticsDataRow num))
  : option (JSMap (list ScatterPoint)) :=
  fold_left scatter_step (firstn 4000 rows) (Some []).

End Scatter.
Arguments ScatterPoint num : clear implicits.

(** ** Series of the earlier workspace *)

(** *** computeDailySeries *)

Section DailySeries.
Context {num : Type} `{JSNumber num}.
Variable rt : Runtime num.

(** DailyVariablePoint: the two declared properties and the per-variable
    properties written by string index. *)
Record DailyVariablePoint : Type := {
  date : JSValue num;
  daily_overall : num;
  variables : JSMap num
}.

(** [point[variable] = v] *)
Definition daily_set (p : DailyVariablePoint) (key : string) (v : num)
  : DailyVariablePoint :=
  if String.eqb key "date" then
    {| date := JNum v; daily_overall := daily_overall p;
       variables := variables p |}
  else if String.eqb key "overall" then
    {| date := date p; daily_overall := v; variables := variables p |}
  else
    {| date := date p; daily_overall := daily_overall p;
       variables := map_set (variables p) key v |}.

(** One iteration of the accumulation loop. *)
Definition daily_step (grouped : JSMap (JSMap (Accumulator num)))
    (row : AnalyticsDataRow num) : JSMap (JSMap (Accumulator num)) :=
  let date := String.substring 0 10 (observed_at row) in
  let byDate := get_or grouped date [] in
  let variableBucket := get_or byDate (variable_code row) acc_empty in
  let byDate :=
    map_set byDate (variable_code row) (acc_add variableBucket (value row)) in
  let overallBucket := get_or byDate "overall" acc_empty in
  let byDate := map_set byDate "overall" (acc_add overallBucket (value row)) in
  map_set grouped date byDate.

Definition daily_point (entry : string * JSMap (Accumulator num))
  : DailyVariablePoint :=
  let '(date, variables) := entry in
  fold_left (fun point kv => daily_set point (fst kv) (acc_mean (snd kv)))
            variables
            {| date := JStr date; daily_overall := of_Z 0; variables := [] |}.

Definition daily_after (a b : DailyVariablePoint) : bool :=
  (0 <? localeCompare rt (String_ rt (date a)) (String_ rt (date b)))%Z.

Definition computeDailySeries (rows : list (AnalyticsDataRow num))
  : list DailyVariablePoint :=
  js_sort daily_after (List.map daily_point (fold_left daily_step rows [])).

End DailySeries.
Arguments DailyVariablePoint num : clear implicits.

(** *** topVariableCodes *)

Section EarlierSeries.
Context {num : Type}.

(** [counts.set(code, (counts.get(code) ?? 0) + 1)] *)
Definition count_step (counts : JSMap nat) (row : AnalyticsDataRow num)
  : JSMap nat :=
  map_set counts (variable_code row)
          (get_or counts (variable_code row) 0 + 1)%nat.

(** The variables with most rows; [max] is a number of entries. *)
Definition topVariableCodes (rows : list (AnalyticsDataRow num)) (max : nat)
  : list string :=
  let counts := fold_left count_step rows [] in
  List.map fst (firstn max (js_sort counter_after counts)).

(** [topVariables.length > 0 ? topVariables : ['overall']] *)
Definition lineSeriesKeys (topVariables : list string) : list string :=
  match topVariables with
  | [] => ["overall"]
  | _ :: _ => topVariables
  end.

End EarlierSeries.

(** ** Range presets *)

(** [toIsoDate] *)
Definition toIsoDate (value : option string) : string :=
  match value with
  | None => ""
  | Some v => if falsy v then "" else String.substring 0 10 v
  end.

(** [formatDate]: the day of a date in UTC. *)
Definition formatDate (date : JSDate) : string :=
  let year := int_str (getUTCFullYear date) in
  let month := padStart2 (int_str (succ_int (getUTCMonth date))) in
  let day := padStart2 (int_str (getUTCDate date)) in
  (year ++ "-" ++ month ++ "-" ++ day)%string.

(** The presets of the date window: identifier and number of days,
    [None] for the whole range. *)
Definition RANGE_PRESETS : list (string * option Z) :=
  [ ("24h", Some 2%Z); ("7d", Some 7%Z); ("30d", Some 30%Z);
    ("1y", Some 365%Z); ("all", None) ].

(** The three inputs of the date window. *)
Record DateWindow : Set := {
  dateFrom : string;
  dateTo : string;
  rangePreset : string
}.

Section RangePresets.
Context {num : Type}.
Variable rt : Runtime num.

(** [date.setUTCDate(n)], the date arithmetic of the host: the date with
    its day of the month set to [n], carried over into the neighbouring
    months when [n] is out of range. *)
Variable setUTCDate : JSDate -> option Z -> JSDate.

Definition addDays (baseDate : string) (deltaDays : Z) : string :=
  let date := newDate rt (baseDate ++ "T00:00:00Z") in
  let date := setUTCDate date (option_map (fun d => d + deltaDays)%Z
                                          (getUTCDate date)) in
  formatDate date.

Definition applyRangePreset (filters : option AnalyticsFilterOptionsResponse)
    (presetId : string) (window : DateWindow) : DateWindow :=
  match filters with
  | None => window
  | Some f =>
      let minDate := toIsoDate (min_observed_at f) in
      let maxDate := toIsoDate (max_observed_at f) in
      if falsy maxDate then window
      else
        match find (fun item => String.eqb (fst item) presetId) RANGE_PRESETS with
        | None => window
        | Some (_, None) =>
            {| dateFrom := minDate; dateTo := maxDate; rangePreset := presetId |}
        | Some (_, Some days) =>
            let from := addDays maxDate (- (days - 1)) in
            let boundedFrom :=
              if negb (falsy minDate) && str_lt from minDate
              then minDate else from in
            {| dateFrom := boundedFrom; dateTo := maxDate;
               rangePreset := presetId |}
        end
  end.

End RangePresets.

(** ** A host for the examples

    Timestamps of the form [YYYY-MM-DDTHH:MM:SSZ] are read field by field
    and the local zone is UTC; strings compare by code unit, which is how
    [localeCompare] orders date keys; numbers are not rendered (the labels
    built from them are never inspected). *)

Definition digit_of (c : ascii) : option Z :=
  let n := (Z.of_nat (nat_of_ascii c) - 48)%Z in
  if ((0 <=? n) && (n <=? 9))%Z then Some n else None.

Fixpoint digits_value (s : string) (acc : Z) : option Z :=
  match s with
  | EmptyString => Some acc
  | String c s' =>
      match digit_of c with
      | Some d => digits_value s' (10 * acc + d)%Z
      | None => None
      end
  end.

Definition digits_at (s : string) (start len : nat) : option Z :=
  let f := String.substring start len s in
  if Nat.eqb (String.length f) len then digits_value f 0 else None.

Definition iso_utc (s : string) : JSDate :=
  if Nat.eqb (String.length s) 20
     && String.eqb (String.substring 4 1 s) "-"
     && String.eqb (String.substring 7 1 s) "-"
     && String.eqb (String.substring 10 1 s) "T"
     && String.eqb (String.substring 13 1 s) ":"
     && String.eqb (String.substring 16 1 s) ":"
     && String.eqb (String.substring 19 1 s) "Z"
  then
    match digits_at s 0 4, digits_at s 5 2, digits_at s 8 2,
          digits_at s 11 2, digits_at s 14 2 with
    | Some y, Some m, Some d, Some h, Some mi =>
        Some {| utcFullYear := y; utcMonth := (m - 1)%Z; utcDate := d;
                utcHours := h; utcMinutes := mi |}
    | _, _, _, _, _ => None
    end
  else None.

Definition example_host {num : Type} : Runtime num :=
  {| newDate := iso_utc;
     getHours := fun s => getUTCHours (iso_utc s);
     localeCompare := fun a b =>
       match String.compare a b with
       | Lt => (-1)%Z
       | Eq => 0%Z
       | Gt => 1%Z
       end;
     numberToString := fun _ => "" |}.

(** * Vocabulary of the statements *)

Section OrchestratorVocabulary.
Context {num : Type} {Snapshot : Type}.
Implicit Types (w : Workspace num Snapshot) (e : Event num Snapshot).

(** What an accepted response does to the workspace. *)
Definition applied (outcome : Settled (AnalyticsQueryResponse num))
    w : Workspace num Snapshot :=
  match outcome with
  | Fulfilled response =>
      {| rows := resp_rows response;
         loading := false;
         error := (match resp_rows response with
                   | [] => Some "No data for the selected source and filters."
                   | _ :: _ => error w
                   end);
         liveSnapshot := liveSnapshot w; liveLoading := liveLoading w;
         requestIdRef := requestIdRef w;
         liveRequestIdRef := liveRequestIdRef w |}
  | Rejected err =>
      {| rows := [];
         loading := false;
         error := Some (match err with
                        | Some message => message
                        | None => "Failed to load analytics data."
                        end);
         liveSnapshot := liveSnapshot w; liveLoading := liveLoading w;
         requestIdRef := requestIdRef w;
         liveRequestIdRef := liveRequestIdRef w |}
  end.

(** A request for a chosen source. *)
Definition request_for (sid : Z) (a : RunArgs) : RunArgs :=
  {| sourceId := Some sid; stationCodes := stationCodes a;
     fromDate := fromDate a; toDate := toDate a;
     requestedLimit := requestedLimit a |}.

(** The state cells of the main channel and those of the live channel. *)
Definition main_cells w : list (AnalyticsDataRow num) * bool * option string * nat :=
  (rows w, loading w, error w, requestIdRef w).
Definition live_cells w : option Snapshot * bool * nat :=
  (liveSnapshot w, liveLoading w, liveRequestIdRef w).

Definition on_main_channel e : bool :=
  match e with
  | RunAnalysis _ _ | AnalysisSettled _ _ => true
  | RefreshLive | LiveSettled _ _ => false
  end.

(** The token a live refresh is tagged with. *)
Definition live_token w : nat := snd (refreshLiveSnapshot_start w).

End OrchestratorVocabulary.

(** A measurement row with the fields the aggregators read. *)
Definition reading {num} (observedAt station variable : string) (v : num)
  : AnalyticsDataRow num :=
  {| observed_at := observedAt; station_code := station;
     station_name := station; variable_code := variable;
     variable_name := variable; value := v; unit_label := None;
     source_file_id := 1; source_file_name := "measurements.csv";
     source_type := "csv" |}.

(** Three rows of value 0.1 in binary64: the sum 0.1 + 0.1 + 0.1 rounds to
    0.30000000000000004 and the mean to 0.10000000000000002, which lies
    above the greatest value of the batch. *)
Definition three_tenths : list (AnalyticsDataRow float) :=
  let tenth : float := div (of_Z 1) (of_Z 10) in
  [ reading "2024-01-01T08:00:00Z" "S1" "PM25" tenth;
    reading "2024-01-01T09:00:00Z" "S1" "PM25" tenth;
    reading "2024-01-01T10:00:00Z" "S1" "PM25" tenth ].

(** Two rows whose values are 2^1023, the largest power of two a double
    holds, and its opposite: finite values whose difference is not. *)
Definition huge_spread : list (AnalyticsDataRow float) :=
  [ reading "2024-01-01T08:00:00Z" "S1" "PM25" (PrimFloat.opp 0x1p1023%float);
    reading "2024-01-01T09:00:00Z" "S1" "PM25" 0x1p1023%float ].

(** The sum of the bin counts. *)
Definition total_count (h : list HistogramPoint) : nat :=
  list_sum (List.map count h).

Section HistogramVocabulary.
Context {num : Type} `{JSNumber num}.
Variables (bins : Z) (min width : num).

(** The element of the bucket array a value is counted in, if any. *)
Definition bin_of (v : num) : option nat :=
  match to_Z (bin_index bins min width v) with
  | Some z => if (0 <=? z)%Z then Some (Z.to_nat z) else None
  | None => None
  end.

(** Whether [v] is counted in element [i]. *)
Definition lands_in (i : nat) (v : num) : bool :=
  match bin_of v with
  | Some j => Nat.eqb j i
  | None => false
  end.

(** The bucket array after the counting loop. *)
Definition fill (values : list num) (buckets : list nat) : list nat :=
  fold_left (fun buckets v => bump_at buckets (bin_index bins min width v))
            values buckets.

End HistogramVocabulary.

(** ** Means and grouping *)

Section GroupingVocabulary.
Context {num : Type} `{JSNumber num}.

(** The arithmetic mean as the code computes it: the values are added from
    left to right, starting from 0, and the sum is divided by their
    number. *)
Definition mean_of (vs : list num) : num :=
  div (fold_left add vs (of_Z 0)) (of_nat (List.length vs)).

(** The mean of the values of a group of rows, when there is one. *)
Definition group_mean (group : list (AnalyticsDataRow num)) : option num :=
  match group with
  | [] => None
  | _ :: _ => Some (mean_of (List.map value group))
  end.

(** The rows of a batch that carry a given key, in batch order. *)
Definition rows_with (key_of : AnalyticsDataRow num -> string) (k : string)
    (rows : list (AnalyticsDataRow num)) : list (AnalyticsDataRow num) :=
  filter (fun r => String.eqb (key_of r) k) rows.

(** One step of a grouping loop:
    [const a = m.get(k) ?? { sum: 0, count: 0 }; a.sum += v; a.count += 1;
    m.set(k, a)]. *)
Definition group_step (key_of : AnalyticsDataRow num -> string)
    (grouped : JSMap (Accumulator num)) (row : AnalyticsDataRow num)
  : JSMap (Accumulator num) :=
  map_set grouped (key_of row)
          (acc_add (get_or grouped (key_of row) acc_empty) (value row)).

End GroupingVocabulary.

(** ** Order of first occurrence *)

(** The distinct elements of a list in the order they are first met: what
    inserting them one by one into a [Set], or into a [Map] as keys, leaves
    behind. *)
Definition distinct (l : list string) : list string := fold_left set_add l [].

(** The position at which a key is first met. *)
Fixpoint first_index (k : string) (l : list string) : nat :=
  match l with
  | [] => 0
  | x :: l' => if String.eqb x k then 0 else S (first_index k l')
  end.

(** ** Sorted output *)

Section SortVocabulary.
Context {A : Type} (after : A -> A -> bool).

(** [a] may stand in front of [b]: the comparator does not send it behind. *)
Definition in_order (a b : A) : Prop := after a b = false.

(** In front of and, when neither has to go behind the other, in the
    order given by [rank]. *)
Definition stably_before (rank : A -> nat) (a b : A) : Prop :=
  in_order a b /\ (in_order b a -> rank a < rank b).

End SortVocabulary.

(** The bar of one entry of the station map. *)
Definition bar_of {num} `{JSNumber num} (e : string * Accumulator num)
  : StationBarPoint num :=
  {| station := fst e; avg := acc_mean (snd e) |}.

(** The position at which a station is first met in a batch. *)
Definition first_seen {num} (rows : list (AnalyticsDataRow num))
    (code : string) : nat :=
  first_index code (List.map station_code rows).

(** ** Heatmap cells *)

(** Whether a string contains the separator of the cell keys. *)
Fixpoint has_bar (s : string) : bool :=
  match s with
  | EmptyString => false
  | String c s' => Ascii.eqb c "|" || has_bar s'
  end.

(** Whether an hour read off a timestamp is the hour [h]. *)
Definition same_hour (h : Z) (o : option Z) : bool :=
  match o with
  | Some h' => Z.eqb h' h
  | None => false
  end.

Section HeatmapVocabulary.
Context {num : Type} `{JSNumber num}.
Variable day_of : AnalyticsDataRow num -> string.
Variable hour_of : AnalyticsDataRow num -> option Z.

(** The observations of a batch that fall on a day at an hour. *)
Definition cell_rows (d : string) (h : Z) (rows : list (AnalyticsDataRow num))
  : list (AnalyticsDataRow num) :=
  filter (fun r => String.eqb (day_of r) d && same_hour h (hour_of r)) rows.

(** What the heat matrix of a batch has to be: the days are the last 14 of
    the ascending list of the distinct days of the batch, the hours are 0
    to 23, a cell of a retained day is present exactly when that day has
    an observation in that hour and then holds their mean, and there is no
    other cell. *)
Definition heatmap_spec (rows : list (AnalyticsDataRow num))
    (hm : HeatMatrix num) : Prop :=
  (exists all_days,
      StronglySorted (fun a b => str_lt a b = true) all_days
      /\ (forall d, In d all_days <-> exists r, In r rows /\ day_of r = d)
      /\ days hm = slice_last 14 all_days)
  /\ List.length (days hm) <= 14
  /\ hours hm = List.map Z.of_nat (seq 0 24)
  /\ (forall d h, In d (days hm) -> (0 <= h < 24)%Z ->
         map_get (values hm) (heat_key d (Some h)) =
         group_mean (cell_rows d h rows))
  /\ (forall k, In k (map_keys (values hm)) ->
         exists d h, In d (days hm) /\ (0 <= h < 24)%Z
                     /\ k = heat_key d (Some h)).

End HeatmapVocabulary.

(** ** Temporal buckets *)

Section TemporalVocabulary.
Context {num : Type} `{JSNumber num}.
Variable rt : Runtime num.

(** The rows of a batch whose timestamp truncates to a bucket key. *)
Definition bucket_rows (granularity : TimeGranularity) (b : string)
    (rows : list (AnalyticsDataRow num)) : list (AnalyticsDataRow num) :=
  rows_with (fun r => getBucketKey rt (observed_at r) granularity) b rows.

(** The per-bucket part of one iteration of the accumulation loop: the
    row is added under its series key, then under [overall]. *)
Definition series_step (splitByStation : bool)
    (seriesBuckets : JSMap (Accumulator num)) (row : AnalyticsDataRow num)
  : JSMap (Accumulator num) :=
  let seriesKey := seriesKeyOf splitByStation row in
  let item := get_or seriesBuckets seriesKey acc_empty in
  let seriesBuckets := map_set seriesBuckets seriesKey (acc_add item (value row)) in
  let overall := get_or seriesBuckets "overall" acc_empty in
  map_set seriesBuckets "overall" (acc_add overall (value row)).

(** A batch none of whose series keys is the name of a declared property
    of a chart point. *)
Definition no_reserved_key (splitByStation : bool)
    (rows : list (AnalyticsDataRow num)) : Prop :=
  forall r, In r rows ->
    seriesKeyOf splitByStation r <> "overall"
    /\ seriesKeyOf splitByStation r <> "bucket".

End TemporalVocabulary.

(** A day with one reading of 10 at a station whose code is [overall] and
    one reading of 40 at station [A]. *)
Definition station_named_overall : list (AnalyticsDataRow float) :=
  [ reading "2024-01-01T08:00:00Z" "overall" "PM25" (of_Z 10);
    reading "2024-01-01T09:00:00Z" "A" "PM25" (of_Z 40) ].

(** ** Signs of doubles *)

(** A double above zero, in the decoded form of the standard library. *)
Definition sf_positive (x : spec_float) : Prop :=
  match x with
  | S754_finite false _ _ | S754_infinity false => True
  | _ => False
  end.

(** ** Sample batches *)

(** The three readings of one day used in the scenarios: 10 and 20 at
    station S1, 30 at station S2. *)
Definition one_day {num} `{JSNumber num} : list (AnalyticsDataRow num) :=
  [ reading "2024-01-01T08:00:00Z" "S1" "PM25" (of_Z 10);
    reading "2024-01-01T09:00:00Z" "S1" "PM25" (of_Z 20);
    reading "2024-01-01T08:30:00Z" "S2" "PM25" (of_Z 30) ].

(** Three readings of the same value 5. *)
Definition all_fives {num} `{JSNumber num} : list (AnalyticsDataRow num) :=
  [ reading "2024-01-01T08:00:00Z" "S1" "PM25" (of_Z 5);
    reading "2024-01-01T09:00:00Z" "S1" "PM25" (of_Z 5);
    reading "2024-01-01T10:00:00Z" "S2" "PM25" (of_Z 5) ].

(** Two buckets whose overall values are 10 and 12. *)
Definition two_buckets {num} `{JSNumber num} : list (TemporalPoint num) :=
  [ {| bucket := JStr "2024-01-01"; overall := of_Z 10; series := [] |};
    {| bucket := JStr "2024-01-02"; overall := of_Z 12; series := [] |} ].

(** ** Events beside the awaited answer *)

Section ArrivalVocabulary.
Context {num : Type} {Snapshot : Type}.

(** An event that is not the answer the main channel waits for under
    token [t] and issues no request on it: an answer carrying another
    token, or any event of the live channel. *)
Definition beside_main (t : nat) (e : Event num Snapshot) : bool :=
  match e with
  | RunAnalysis _ _ => false
  | AnalysisSettled requestId _ => negb (Nat.eqb requestId t)
  | RefreshLive | LiveSettled _ _ => true
  end.

(** The same for the live channel. *)
Definition beside_live (t : nat) (e : Event num Snapshot) : bool :=
  match e with
  | RunAnalysis _ _ | AnalysisSettled _ _ => true
  | RefreshLive => false
  | LiveSettled requestId _ => negb (Nat.eqb requestId t)
  end.

(** The snapshot an accepted answer of the live channel leaves. *)
Definition snapshot_of (outcome : Settled Snapshot) : option Snapshot :=
  match outcome with
  | Fulfilled response => Some response
  | Rejected _ => None
  end.

End ArrivalVocabulary.

(** The arguments of a run after the source has been deselected. *)
Definition deselected (a : RunArgs) : RunArgs :=
  {| sourceId := None; stationCodes := stationCodes a;
     fromDate := fromDate a; toDate := toDate a;
     requestedLimit := requestedLimit a |}.

(** The text an input holds for a bound of the range. *)
Definition date_text (bound : option string) : string :=
  match bound with
  | Some s => s
  | None => ""
  end.

(** What the SQL panel shows once a preview has settled. *)
Definition sql_shown {SqlRow} (outcome : Settled (SqlPreviewResponse SqlRow))
  : SqlPanel SqlRow :=
  match outcome with
  | Fulfilled response =>
      {| sqlLoading := false;
         sqlError :=
           (if sql_truncated response then
              Some ("SQL preview truncated to "
                    ++ int_str (Some (sql_row_count response))
                    ++ " rows.")%string
            else None);
         sqlPreview := Some response |}
  | Rejected err =>
      {| sqlLoading := false;
         sqlError := Some (match err with
                           | Some message => message
                           | None => "SQL preview failed."
                           end);
         sqlPreview := None |}
  end.

(** ** Bounds of a bin *)

(** The two numbers the label of bin [index] is written from. *)
Definition bin_bounds {num} `{JSNumber num} (bins : Z) (mn mx : num)
    (index : nat) : num * num :=
  let width := div (sub mx mn) (of_Z bins) in
  let start := add mn (mul width (of_nat index)) in
  (start, add start width).

(** ** Names every object inherits *)

(** The properties of [Object.prototype] in current engines. *)
Definition object_prototype_names : list string :=
  [ "constructor"; "__proto__"; "hasOwnProperty"; "isPrototypeOf";
    "propertyIsEnumerable"; "toLocaleString"; "toString"; "valueOf";
    "__defineGetter__"; "__defineSetter__"; "__lookupGetter__";
    "__lookupSetter__" ].

Definition standard_inherited (key : string) : bool :=
  existsb (String.eqb key) object_prototype_names.

(** ** Series of the temporal chart *)

Section SeriesVocabulary.
Context {num : Type} `{JSNumber num}.

(** The number of rows of a batch filed under a series key, and the
    position at which the key is first met. *)
Definition series_count (splitByStation : bool)
    (rows : list (AnalyticsDataRow num)) (k : string) : nat :=
  List.length (rows_with (seriesKeyOf splitByStation) k rows).

Definition series_first (splitByStation : bool)
    (rows : list (AnalyticsDataRow num)) (k : string) : nat :=
  first_index k (List.map (seriesKeyOf splitByStation) rows).

(** The distinct series keys and bucket keys of a batch, in the order in
    which they are first met. *)
Definition series_keys (splitByStation : bool)
    (rows : list (AnalyticsDataRow num)) : list string :=
  distinct (List.map (seriesKeyOf splitByStation) rows).

Definition bucket_keys (rt : Runtime num) (granularity : TimeGranularity)
    (rows : list (AnalyticsDataRow num)) : list string :=
  distinct (List.map (fun r => getBucketKey rt (observed_at r) granularity) rows).

(** A series with more rows goes first; among series with as many rows,
    the one met first. *)
Definition ranked_before (splitByStation : bool)
    (rows : list (AnalyticsDataRow num)) (a b : string) : Prop :=
  series_count splitByStation rows b <= series_count splitByStation rows a
  /\ (series_count splitByStation rows a = series_count splitByStation rows b ->
      series_first splitByStation rows a < series_first splitByStation rows b).

End SeriesVocabulary.

(** The counter of the series keys after the accumulation loop. *)
Definition series_counter {num} (splitByStation : bool)
    (rows : list (AnalyticsDataRow num)) : JSMap nat :=
  fold_left
    (fun m r =>
       map_set m (seriesKeyOf splitByStation r)
         (get_or m (seriesKeyOf splitByStation r) 0 + 1))
    rows [].

(** ** Timestamps that do not parse *)

(** The bucket key of an invalid date. *)
Definition nan_key (granularity : TimeGranularity) : string :=
  match granularity with
  | year => "NaN"
  | month => "NaN-NaN"
  | day => "NaN-NaN-NaN"
  | hour => "NaN-NaN-NaN NaN:00"
  end.

(** Whether the timestamp of a row is an invalid date. *)
Definition unparseable {num} (rt : Runtime num) (row : AnalyticsDataRow num)
  : bool :=
  match newDate rt (observed_at row) with
  | Some _ => false
  | None => true
  end.

(** Whether a string starts with a character below the letter N, as the
    digits and the minus sign are. *)
Definition starts_below_N (s : string) : bool :=
  match s with
  | String c _ => match Ascii.compare c "N" with Lt => true | _ => false end
  | EmptyString => false
  end.

(** ** The two temporal charts *)

(** A point of the daily chart of the earlier workspace, read as a point
    of the temporal chart: its date is the label of the bucket. *)
Definition as_temporal_point {num} (p : DailyVariablePoint num)
  : TemporalPoint num :=
  {| bucket := date p; overall := daily_overall p; series := variables p |}.

(** ** Calendar fields *)

(** The ranges in which a valid date reports its month, day of the month
    and hour. *)
Definition calendar_fields (d : UTCFields) : Prop :=
  (0 <= utcMonth d <= 11)%Z /\ (1 <= utcDate d <= 31)%Z
  /\ (0 <= utcHours d <= 23)%Z.

(** A timestamp that the host reads as an invalid date or as a date with
    fields in those ranges. *)
Definition well_dated {num} (rt : Runtime num) (observedAt : string) : Prop :=
  forall d, newDate rt observedAt = Some d -> calendar_fields d.

(** * Properties *)

(** ** Lists *)

Lemma last_cons_default {A} (l : list A) : forall x d, last (x :: l) d = last l x.
Proof.
  induction l as [|y l IH]; intros x d; [reflexivity|].
  change (last (x :: y :: l) d) with (last (y :: l) d).
  rewrite !IH. reflexivity.
Qed.

(** ** The token protocol of the main channel *)

Section OrchestratorFacts.
Context {num : Type} {Snapshot : Type}.
Implicit Types (w : Workspace num Snapshot) (e : Event num Snapshot).
Implicit Types (trace : list (Event num Snapshot)).

Lemma resume_latest requestId outcome w :
  requestId = requestIdRef w ->
  runAnalysis_resume requestId outcome w = applied outcome w.
Proof.
  intros ->. unfold runAnalysis_resume, runAnalysis_finally, applied.
  rewrite Nat.eqb_refl. cbn [negb].
  destruct outcome as [response | err].
  - destruct (resp_rows response); cbn; rewrite Nat.eqb_refl; reflexivity.
  - cbn. rewrite Nat.eqb_refl. reflexivity.
Qed.

Lemma resume_stale requestId outcome w :
  requestId <> requestIdRef w ->
  runAnalysis_resume requestId outcome w = w.
Proof.
  intros Hne. apply Nat.eqb_neq in Hne.
  unfold runAnalysis_resume, runAnalysis_finally.
  destruct outcome; rewrite Hne; reflexivity.
Qed.

Lemma resume_cases requestId outcome w :
  runAnalysis_resume requestId outcome w =
  if Nat.eqb requestId (requestIdRef w) then applied outcome w else w.
Proof.
  destruct (Nat.eqb_spec requestId (requestIdRef w)).
  - now apply resume_latest.
  - now apply resume_stale.
Qed.

(** Only issuing a request moves the counter, and it moves it up by one. *)
Lemma step_counter w e :
  requestIdRef (step w e) =
  match e with
  | RunAnalysis _ a =>
      match sourceId a with
      | Some _ => requestIdRef w + 1
      | None => requestIdRef w
      end
  | _ => requestIdRef w
  end.
Proof.
  destruct e as [filters a | requestId outcome | | requestId outcome]; cbn.
  - unfold runAnalysis_start. destruct (sourceId a); reflexivity.
  - rewrite resume_cases. destruct (Nat.eqb _ _); [|reflexivity].
    destruct outcome; reflexivity.
  - reflexivity.
  - unfold refreshLiveSnapshot_resume, refreshLiveSnapshot_finally.
    destruct outcome; destruct (Nat.eqb requestId _); cbn;
      try rewrite Nat.eqb_refl; reflexivity.
Qed.

Lemma issued_cons w e trace :
  issued w (e :: trace) =
  match e with
  | RunAnalysis _ a =>
      match sourceId a with
      | Some _ => [requestIdRef w + 1]
      | None => []
      end
  | _ => []
  end ++ issued (step w e) trace.
Proof.
  cbn [issued]. f_equal.
  destruct e as [filters a | | |]; try reflexivity.
  unfold runAnalysis_start. destruct (sourceId a); reflexivity.
Qed.

(** Every token issued along a trace lies above the starting counter, and
    the tokens come out in strictly increasing order. *)
Lemma issued_increasing trace : forall w,
  Forall (fun t => requestIdRef w < t) (issued w trace)
  /\ StronglySorted Nat.lt (issued w trace).
Proof.
  induction trace as [|e trace IH]; intros w.
  - cbn. split; constructor.
  - rewrite issued_cons.
    destruct (IH (step w e)) as (Hall & Hsorted).
    rewrite step_counter in Hall.
    destruct e as [filters a | requestId outcome | | requestId outcome];
      try (cbn [app]; split; assumption).
    destruct (sourceId a) as [sid|]; cbn [app]; [|split; assumption].
    split.
    + constructor; [lia|].
      eapply Forall_impl; [|exact Hall]. cbn. intros t Ht. lia.
    + constructor; assumption.
Qed.

(** At every moment the counter is the latest, hence greatest, token
    issued so far. *)
Lemma counter_is_last_issued trace : forall w,
  requestIdRef (run w trace) = last (issued w trace) (requestIdRef w).
Proof.
  induction trace as [|e trace IH]; intros w.
  - reflexivity.
  - rewrite issued_cons. cbn [run fold_left].
    fold (run (step w e) trace). rewrite IH, step_counter.
    destruct e as [filters a | requestId outcome | | requestId outcome];
      try reflexivity.
    destruct (sourceId a) as [sid|]; [|reflexivity].
    cbn [app]. apply eq_sym, last_cons_default.
Qed.

(** C1: on the main channel the tokens issued along any trace are strictly
    increasing and the counter holds the greatest of them; a settled
    request, fulfilled or rejected, is applied when its token is that
    greatest token and leaves the workspace as it was otherwise.  With
    three requests issued and answered in the order first, third, second,
    the first and second answers change nothing and the third is
    applied. *)
Theorem token_discard :
  (forall trace w,
      StronglySorted Nat.lt (issued w trace)
      /\ Forall (fun t => requestIdRef w < t) (issued w trace)
      /\ requestIdRef (run w trace) = last (issued w trace) (requestIdRef w))
  /\ (forall requestId outcome w,
         runAnalysis_resume requestId outcome w =
         if Nat.eqb requestId (requestIdRef w) then applied outcome w else w)
  /\ (forall w f1 f2 f3 s1 s2 s3 a1 a2 a3 o1 o2 o3,
         let t := requestIdRef w in
         let issue :=
           [RunAnalysis f1 (request_for s1 a1);
            RunAnalysis f2 (request_for s2 a2);
            RunAnalysis f3 (request_for s3 a3)] in
         let w3 := run w issue in
         let after1 := step w3 (AnalysisSettled (t + 1) o1) in
         let after3 := step after1 (AnalysisSettled (t + 3) o3) in
         let after2 := step after3 (AnalysisSettled (t + 2) o2) in
         issued w issue = [t + 1; t + 2; t + 3]
         /\ after1 = w3
         /\ after3 = applied o3 w3
         /\ after2 = after3
         /\ rows after2 = match o3 with
                          | Fulfilled response => resp_rows response
                          | Rejected _ => []
                          end)
  /\ (forall f1 f2 f3 s1 s2 s3 a1 a2 a3,
         issued (@initial num Snapshot)
                [RunAnalysis f1 (request_for s1 a1);
                 RunAnalysis f2 (request_for s2 a2);
                 RunAnalysis f3 (request_for s3 a3)] = [1; 2; 3]).
Proof.
  split; [|split; [|split]].
  - intros trace w. destruct (issued_increasing trace w) as [Hall Hsorted].
    repeat split; auto using counter_is_last_issued.
  - intros. apply resume_cases.
  - intros w f1 f2 f3 s1 s2 s3 a1 a2 a3 o1 o2 o3 t issue w3 after1 after3 after2.
    assert (Hc : requestIdRef w3 = t + 3) by (subst w3 t; cbn; lia).
    assert (H1 : after1 = w3).
    { subst after1. cbn [step]. apply resume_stale. lia. }
    assert (H3 : after3 = applied o3 w3).
    { subst after3. rewrite H1. cbn [step]. apply resume_latest. lia. }
    assert (H2 : after2 = after3).
    { subst after2. cbn [step]. apply resume_stale. rewrite H3.
      destruct o3; cbn [applied requestIdRef]; lia. }
    repeat split; auto.
    + subst t. cbn.
      replace (requestIdRef w + 1 + 1) with (requestIdRef w + 2) by lia.
      replace (requestIdRef w + 2 + 1) with (requestIdRef w + 3) by lia.
      reflexivity.
    + rewrite H2, H3. destruct o3; reflexivity.
  - intros. reflexivity.
Qed.

(** C7: a rejected request whose token is still the latest clears the
    batch, stores the error text and drops the loading flag; a rejected
    request with a stale token changes nothing.  In particular a failure
    of an older request that arrives after the newer request has been
    accepted leaves the accepted rows and text in place. *)
Theorem failure_clears_or_is_dropped :
  (forall requestId err w,
      runAnalysis_resume requestId (Rejected err) w =
      if Nat.eqb requestId (requestIdRef w) then
        {| rows := []; loading := false;
           error := Some (match err with
                          | Some message => message
                          | None => "Failed to load analytics data."
                          end);
           liveSnapshot := liveSnapshot w; liveLoading := liveLoading w;
           requestIdRef := requestIdRef w;
           liveRequestIdRef := liveRequestIdRef w |}
      else w)
  /\ (forall w f1 f2 s1 s2 a1 a2 response err,
         let t := requestIdRef w in
         let accepted :=
           run w [RunAnalysis f1 (request_for s1 a1);
                  RunAnalysis f2 (request_for s2 a2);
                  AnalysisSettled (t + 2) (Fulfilled response)] in
         rows accepted = resp_rows response
         /\ step accepted (AnalysisSettled (t + 1) (Rejected err)) = accepted).
Proof.
  split.
  - intros. rewrite resume_cases. reflexivity.
  - intros w f1 f2 s1 s2 a1 a2 response err t accepted.
    assert (Hacc : accepted =
                   applied (Fulfilled response)
                     (run w [RunAnalysis f1 (request_for s1 a1);
                             RunAnalysis f2 (request_for s2 a2)])).
    { subst accepted. cbn [run fold_left step]. apply resume_latest.
      subst t. cbn. lia. }
    split.
    + rewrite Hacc. reflexivity.
    + cbn [step]. apply resume_stale. rewrite Hacc. subst t. cbn. lia.
Qed.


End OrchestratorFacts.

(** ** Normalisation before dispatch *)

Lemma str_le_total (a b : string) : str_le a b = false -> str_le b a = true.
Proof.
  unfold str_le. rewrite (String.compare_antisym a b).
  destruct (String.compare b a); cbn; congruence.
Qed.

Lemma falsy_spec (s : string) : falsy s = true <-> s = "".
Proof. unfold falsy. apply String.eqb_eq. Qed.

Lemma normalizeDateRange_ordered (from to f t : string) :
  range_from (normalizeDateRange from to) = Some f ->
  range_to (normalizeDateRange from to) = Some t ->
  str_le f t = true.
Proof.
  unfold normalizeDateRange, or_undefined.
  destruct (falsy from) eqn:Ef; destruct (falsy to) eqn:Et; cbn;
    try discriminate.
  destruct (str_le from to) eqn:Ele; cbn; intros [= <-] [= <-]; auto.
  now apply str_le_total.
Qed.

Section DispatchFacts.
Context {num : Type} {Snapshot : Type}.


End DispatchFacts.


(** ** Exact arithmetic on lists of values *)

Local Open Scope Q_scope.

Lemma Qltb_lt (a b : Q) : Qltb a b = true <-> a < b.
Proof.
  unfold Qltb. rewrite negb_true_iff.
  destruct (Qle_bool b a) eqn:E.
  - apply Qle_bool_iff in E. split; [discriminate | intros; lra].
  - split; [intros _ | reflexivity].
    apply Qnot_le_lt. intros Hle. apply Qle_bool_iff in Hle. congruence.
Qed.

Lemma Qltb_ge (a b : Q) : Qltb a b = false <-> b <= a.
Proof.
  destruct (Qltb a b) eqn:E.
  - apply Qltb_lt in E. split; [discriminate | intros; lra].
  - split; [intros _ | reflexivity].
    apply Qnot_lt_le. intros Hlt. apply Qltb_lt in Hlt. congruence.
Qed.

(** The least and the greatest of a non-empty list, as the two folds
    compute them. *)
Lemma min_of_lower (vs : list Q) : forall v0 x,
  In x (v0 :: vs) -> min_of v0 vs <= x.
Proof.
  unfold min_of. induction vs as [|v vs IH]; intros v0 x Hin; cbn in *.
  - destruct Hin as [<- | []]. lra.
  - assert (Hstep : Qmin v0 v <= v0 /\ Qmin v0 v <= v)
      by (split; [apply Q.le_min_l | apply Q.le_min_r]).
    destruct Hin as [<- | [<- | Hin]].
    + specialize (IH (Qmin v0 v) (Qmin v0 v) (or_introl eq_refl)). lra.
    + specialize (IH (Qmin v0 v) (Qmin v0 v) (or_introl eq_refl)). lra.
    + apply IH. now right.
Qed.

Lemma max_of_upper (vs : list Q) : forall v0 x,
  In x (v0 :: vs) -> x <= max_of v0 vs.
Proof.
  unfold max_of. induction vs as [|v vs IH]; intros v0 x Hin; cbn in *.
  - destruct Hin as [<- | []]. lra.
  - assert (Hstep : v0 <= Qmax v0 v /\ v <= Qmax v0 v)
      by (split; [apply Q.le_max_l | apply Q.le_max_r]).
    destruct Hin as [<- | [<- | Hin]].
    + specialize (IH (Qmax v0 v) (Qmax v0 v) (or_introl eq_refl)). lra.
    + specialize (IH (Qmax v0 v) (Qmax v0 v) (or_introl eq_refl)). lra.
    + apply IH. now right.
Qed.

Lemma Qmin_cases (a b : Q) : Qmin a b = a \/ Qmin a b = b.
Proof.
  unfold Qmin, GenericMinMax.gmin. destruct (a ?= b); auto.
Qed.

Lemma Qmax_cases (a b : Q) : Qmax a b = a \/ Qmax a b = b.
Proof.
  unfold Qmax, GenericMinMax.gmax. destruct (a ?= b); auto.
Qed.

Lemma min_of_member (vs : list Q) : forall v0, In (min_of v0 vs) (v0 :: vs).
Proof.
  unfold min_of. cbn [js_min Exact].
  induction vs as [|v vs IH]; intros v0; cbn [fold_left]; [now left|].
  destruct (IH (Qmin v0 v)) as [E | Hin]; [|right; now right].
  rewrite <- E. destruct (Qmin_cases v0 v) as [-> | ->];
    [now left | right; now left].
Qed.

Lemma max_of_member (vs : list Q) : forall v0, In (max_of v0 vs) (v0 :: vs).
Proof.
  unfold max_of. cbn [js_max Exact].
  induction vs as [|v vs IH]; intros v0; cbn [fold_left]; [now left|].
  destruct (IH (Qmax v0 v)) as [E | Hin]; [|right; now right].
  rewrite <- E. destruct (Qmax_cases v0 v) as [-> | ->];
    [now left | right; now left].
Qed.

Lemma sum_between (lo hi : Q) (vs : list Q) : forall acc,
  (forall x, In x vs -> lo <= x <= hi) ->
  acc + inject_Z (Z.of_nat (List.length vs)) * lo <= fold_left Qplus vs acc
  /\ fold_left Qplus vs acc <= acc + inject_Z (Z.of_nat (List.length vs)) * hi.
Proof.
  induction vs as [|v vs IH]; intros acc Hall.
  - cbn. change (inject_Z 0) with 0. lra.
  - cbn [fold_left List.length].
    destruct (IH (acc + v) (fun x Hx => Hall x (or_intror Hx))) as [Hlo Hhi].
    destruct (Hall v (or_introl eq_refl)) as [Hv1 Hv2].
    rewrite Nat2Z.inj_succ. unfold Z.succ. rewrite inject_Z_plus.
    change (inject_Z 1) with 1. lra.
Qed.

Lemma mean_between (lo hi : Q) (vs : list Q) :
  vs <> [] ->
  (forall x, In x vs -> lo <= x <= hi) ->
  lo <= fold_left Qplus vs 0 / inject_Z (Z.of_nat (List.length vs)) <= hi.
Proof.
  intros Hne Hall.
  destruct (sum_between lo hi vs 0 Hall) as [Hlo Hhi].
  assert (Hn : 0 < inject_Z (Z.of_nat (List.length vs))).
  { destruct vs; [congruence|]. cbn [List.length].
    change 0 with (inject_Z 0). rewrite <- Zlt_Qlt. lia. }
  split.
  - apply Qle_shift_div_l; [exact Hn | lra].
  - apply Qle_shift_div_r; [exact Hn | lra].
Qed.

Local Close Scope Q_scope.

(** ** Summary and trend *)

Section SummaryGeneric.
Context {num : Type} `{JSNumber num}.

Lemma buildSummary_samples (rows : list (AnalyticsDataRow num)) ts :
  samples (buildSummary rows ts) = List.length rows.
Proof. destruct rows; reflexivity. Qed.

Lemma buildSummary_mean (rows : list (AnalyticsDataRow num)) ts :
  rows <> [] ->
  mean (buildSummary rows ts) =
  div (fold_left add (List.map value rows) (of_Z 0)) (of_nat (List.length rows)).
Proof.
  destruct rows as [|r rows]; [congruence|]. intros _.
  unfold buildSummary. cbn [List.map mean List.length].
  now rewrite length_map.
Qed.

Lemma buildSummary_trend_short (rows : list (AnalyticsDataRow num)) ts :
  List.length ts < 2 -> trend (buildSummary rows ts) = Stable.
Proof.
  intros Hlen. destruct rows as [|r rows]; [reflexivity|].
  destruct ts as [|p0 [|p1 ts]]; cbn in *; try reflexivity; lia.
Qed.

Lemma buildSummary_trend (rows : list (AnalyticsDataRow num)) ts d :
  rows <> [] -> 2 <= List.length ts ->
  trend (buildSummary rows ts) =
  classify_trend (mean (buildSummary rows ts))
                 (overall (hd d ts)) (overall (last ts d)).
Proof.
  intros Hrows Hlen. destruct rows as [|r rows]; [congruence|].
  destruct ts as [|p0 [|p1 ts]]; cbn [List.length] in Hlen; try lia.
  unfold buildSummary. cbn [List.map trend mean hd].
  now rewrite !last_cons_default.
Qed.

End SummaryGeneric.

Local Open Scope Q_scope.

Lemma trend_threshold_exact (m : Q) :
  trend_threshold m == Qmax 0.05 (Qabs m * 0.02).
Proof.
  unfold trend_threshold. cbn [js_max js_abs mul div of_Z Exact].
  apply Q.max_compat; [reflexivity|].
  apply Qmult_comp; reflexivity.
Qed.

(** *** The threshold in binary64 *)

Local Close Scope Q_scope.

Lemma sf_lt_positive (x y : spec_float) :
  sf_positive x -> SFltb x y = true -> sf_positive y.
Proof.
  destruct x as [[|]| [|] | | [|] mx ex], y as [[|]| [|] | | [|] my ey];
    cbn; auto; try discriminate.
Qed.

Lemma sf_lt_opp_exclusive (t d : spec_float) :
  sf_positive t -> SFltb t d = true -> SFltb d (SFopp t) = false.
Proof.
  intros Ht Hlt. pose proof (sf_lt_positive t d Ht Hlt) as Hd.
  destruct t as [[|]| [|] | | [|] mt et], d as [[|]| [|] | | [|] md ed];
    cbn in *; auto; try contradiction.
Qed.

(** The threshold is NaN (when the mean is) or a double above zero. *)
Lemma threshold_nan_or_positive (m : float) :
  Prim2SF (trend_threshold m) = S754_nan
  \/ sf_positive (Prim2SF (trend_threshold m)).
Proof.
  unfold trend_threshold. cbn [js_max js_abs mul div of_Z Binary64].
  set (c := PrimFloat.div (F64.of_Z 5) (F64.of_Z 100)).
  set (x := PrimFloat.mul _ _).
  unfold F64.max.
  assert (Hc : sf_positive (Prim2SF c)) by (vm_compute; exact I).
  change (PrimFloat.is_nan c) with false. cbn [orb].
  destruct (PrimFloat.is_nan x); [now left | right].
  destruct (PrimFloat.ltb c x) eqn:E.
  - rewrite ltb_spec in E. now apply (sf_lt_positive (Prim2SF c)).
  - change (F64.is_neg_zero c) with false.
    destruct (PrimFloat.ltb x c); exact Hc.
Qed.

(** In binary64 a delta above the threshold is not below its opposite. *)
Lemma threshold_exclusive_binary64 (m delta : float) :
  gt delta (trend_threshold m) = true ->
  lt delta (opp (trend_threshold m)) = false.
Proof.
  unfold gt. cbn [lt opp Binary64]. rewrite !ltb_spec, opp_spec.
  destruct (threshold_nan_or_positive m) as [E | Hpos].
  - rewrite E. discriminate.
  - now apply sf_lt_opp_exclusive.
Qed.

Lemma sf_eqb_not_lt (t d : spec_float) :
  sf_positive t -> SFeqb d t = true ->
  SFltb t d = false /\ SFltb d (SFopp t) = false.
Proof.
  intros Ht. unfold SFeqb, SFltb.
  destruct t as [[|]| [|] | | [|] mt et], d as [[|]| [|] | | [|] md ed];
    cbn in *; auto; try contradiction; try discriminate.
  destruct (Z.compare ed et) eqn:Ee; try discriminate.
  apply Z.compare_eq in Ee. subst ed.
  destruct (Pos.compare_cont Eq md mt) eqn:Em; try discriminate.
  apply Pos.compare_eq in Em. subst md. intros _.
  now rewrite Z.compare_refl, Pos.compare_cont_refl.
Qed.

(** In binary64 a delta equal to the threshold is neither above it nor
    below its opposite. *)
Lemma threshold_boundary_binary64 (m delta : float) :
  PrimFloat.eqb delta (trend_threshold m) = true ->
  gt delta (trend_threshold m) = false
  /\ lt delta (opp (trend_threshold m)) = false.
Proof.
  unfold gt. cbn [lt opp Binary64]. rewrite !ltb_spec, opp_spec, eqb_spec.
  destruct (threshold_nan_or_positive m) as [E | Hpos].
  - rewrite E. destruct (Prim2SF delta); discriminate.
  - now apply sf_eqb_not_lt.
Qed.

Local Open Scope Q_scope.

(** C4: the summary of the empty batch is all zero and Stable; with fewer
    than two buckets the trend is Stable; otherwise, with delta the last
    bucket's overall value minus the first bucket's and threshold
    max(0.05, |mean| * 0.02), the trend is Rising exactly when
    delta > threshold and Falling exactly when delta < -threshold, and a
    delta equal to the threshold is Stable.  The shape of the computation
    is stated for any arithmetic; the three-way classification is stated
    for binary64 and for exact numbers. *)
Theorem trend_classification :
  (forall (num : Type) (N : JSNumber num)
          (rows : list (AnalyticsDataRow num)) (ts : list (TemporalPoint num)),
      buildSummary [] ts =
        {| samples := 0; mean := of_Z 0; smin := of_Z 0; smax := of_Z 0;
           trend := Stable |}
      /\ ((List.length ts < 2)%nat -> trend (buildSummary rows ts) = Stable)
      /\ (rows <> [] -> (2 <= List.length ts)%nat -> forall d,
            let s := buildSummary rows ts in
            let delta := sub (overall (last ts d)) (overall (hd d ts)) in
            let threshold :=
              js_max (div (of_Z 5) (of_Z 100))
                     (mul (js_abs (mean s)) (div (of_Z 2) (of_Z 100))) in
            trend s = (if gt delta threshold then Rising
                       else if lt delta (opp threshold) then Falling
                       else Stable)))
  /\ (forall (rows : list (AnalyticsDataRow float))
             (ts : list (TemporalPoint float)) d,
        rows <> [] -> (2 <= List.length ts)%nat ->
        let s := buildSummary rows ts in
        let delta := sub (overall (last ts d)) (overall (hd d ts)) in
        let threshold :=
          js_max (div (of_Z 5) (of_Z 100))
                 (mul (js_abs (mean s)) (div (of_Z 2) (of_Z 100))) in
        (trend s = Rising <-> gt delta threshold = true)
        /\ (trend s = Falling <-> lt delta (opp threshold) = true)
        /\ (PrimFloat.eqb delta threshold = true -> trend s = Stable))
  /\ (forall (rows : list (AnalyticsDataRow Q)) (ts : list (TemporalPoint Q)) d,
        rows <> [] -> (2 <= List.length ts)%nat ->
        let s := buildSummary rows ts in
        let delta := overall (last ts d) - overall (hd d ts) in
        let threshold := Qmax 0.05 (Qabs (mean s) * 0.02) in
        (trend s = Rising <-> delta > threshold)
        /\ (trend s = Falling <-> delta < - threshold)
        /\ (trend s = Stable <-> - threshold <= delta <= threshold)
        /\ (delta == threshold -> trend s = Stable)).
Proof.
  split; [|split].
  - intros num N rows ts. split; [reflexivity|]. split.
    + apply buildSummary_trend_short.
    + intros Hrows Hlen d. cbn zeta.
      now rewrite (buildSummary_trend rows ts d Hrows Hlen).
  - intros rows ts d Hrows Hlen s delta threshold.
    assert (Ht : trend s =
                 classify_trend (mean s) (overall (hd d ts)) (overall (last ts d)))
      by (apply buildSummary_trend; assumption).
    unfold classify_trend in Ht. fold delta in Ht.
    change (trend_threshold (mean s)) with threshold in Ht.
    pose proof (threshold_exclusive_binary64 (mean s) delta) as Hex.
    pose proof (threshold_boundary_binary64 (mean s) delta) as Hbd.
    change (trend_threshold (mean s)) with threshold in Hex, Hbd.
    rewrite Ht.
    destruct (gt delta threshold) eqn:E1.
    { rewrite (Hex eq_refl).
      repeat split; try discriminate; auto.
      intros Heq. destruct (Hbd Heq). discriminate. }
    destruct (lt delta (opp threshold)) eqn:E2.
    { repeat split; try discriminate; auto.
      intros Heq. destruct (Hbd Heq). discriminate. }
    repeat split; try discriminate; auto.
  - intros rows ts d Hrows Hlen s delta threshold.
    assert (Ht : trend s =
                 classify_trend (mean s) (overall (hd d ts)) (overall (last ts d)))
      by (apply buildSummary_trend; assumption).
    assert (Hthr : trend_threshold (mean s) == threshold)
      by apply trend_threshold_exact.
    assert (Hpos : 0.05 <= threshold) by apply Q.le_max_l.
    unfold classify_trend, gt in Ht. cbn [lt sub opp Exact] in Ht.
    fold delta in Ht.
    destruct (Qltb (trend_threshold (mean s)) delta) eqn:E1.
    { apply Qltb_lt in E1. rewrite Hthr in E1. rewrite Ht.
      repeat split; try discriminate; try (intros; lra); auto. }
    apply Qltb_ge in E1. rewrite Hthr in E1.
    destruct (Qltb delta (- trend_threshold (mean s))) eqn:E2.
    { apply Qltb_lt in E2. rewrite Hthr in E2. rewrite Ht.
      repeat split; try discriminate; try (intros; lra); auto. }
    apply Qltb_ge in E2. rewrite Hthr in E2. rewrite Ht.
    repeat split; try discriminate; try (intros; lra); auto.
Qed.

Lemma trend_classification_witness :
  (@one_day Q _ <> [] /\ (2 <= List.length (@two_buckets Q _))%nat)
  /\ trend (buildSummary (@one_day Q _) two_buckets) = Rising.
Proof.
  split; [split; [discriminate | cbn; lia]|].
  destruct trend_classification as (_ & _ & Hexact).
  destruct (Hexact (@one_day Q _) two_buckets
                   {| bucket := JStr ""; overall := 0; series := [] |})
    as (Hrising & _); [discriminate | cbn; lia |].
  apply Hrising. vm_compute. reflexivity.
Defined.

(** The boundary scenario: two buckets with overall values 10 and 10.2 and
    a batch of mean 10 give threshold 0.2 and delta 0.2, hence Stable;
    in binary64 the delta is just below the threshold. *)
Example trend_at_threshold_exact :
  trend (buildSummary [reading "2024-01-01T08:00:00Z" "S1" "PM25" 10]
           [ {| bucket := JStr "2024-01-01"; overall := 10; series := [] |};
             {| bucket := JStr "2024-01-02"; overall := 10.2; series := [] |} ])
  = Stable.
Proof. reflexivity. Qed.

Local Close Scope Q_scope.

Example trend_at_threshold_binary64 :
  let ten : float := of_Z 10 in
  let ten_point_two : float := div (of_Z 102) (of_Z 10) in
  trend (buildSummary [reading "2024-01-01T08:00:00Z" "S1" "PM25" ten]
           [ {| bucket := JStr "2024-01-01"; overall := ten; series := [] |};
             {| bucket := JStr "2024-01-02"; overall := ten_point_two;
                series := [] |} ])
  = Stable.
Proof. vm_compute. reflexivity. Qed.


Local Open Scope Q_scope.



Local Close Scope Q_scope.

(** ** Histogram *)

Lemma bump_length (l : list nat) : forall i, List.length (bump i l) = List.length l.
Proof.
  induction l as [|c l IH]; intros [|i]; cbn; auto.
Qed.

Lemma bump_nth (l : list nat) : forall i j,
  nth j (bump i l) 0 =
  nth j l 0 + (if Nat.eqb i j && Nat.ltb i (List.length l) then 1 else 0).
Proof.
  induction l as [|c l IH]; intros i j.
  - destruct i, j; cbn; rewrite ?andb_false_r; reflexivity.
  - destruct i as [|i], j as [|j]; cbn [bump nth List.length].
    + cbn. lia.
    + cbn. lia.
    + cbn. lia.
    + rewrite IH. change (Nat.eqb (S i) (S j)) with (Nat.eqb i j).
      change (Nat.ltb (S i) (S (List.length l))) with (Nat.ltb i (List.length l)).
      reflexivity.
Qed.

Lemma bump_sum (l : list nat) : forall i,
  list_sum (bump i l) =
  list_sum l + (if Nat.ltb i (List.length l) then 1 else 0).
Proof.
  induction l as [|c l IH]; intros [|i]; cbn [bump List.length].
  - reflexivity.
  - reflexivity.
  - cbn. lia.
  - change (list_sum (c :: bump i l)) with (c + list_sum (bump i l)).
    change (list_sum (c :: l)) with (c + list_sum l).
    rewrite IH. change (Nat.ltb (S i) (S (List.length l))) with (Nat.ltb i (List.length l)).
    lia.
Qed.

Section HistogramGeneric.
Context {num : Type} `{JSNumber num}.
Variables (bins : Z) (min width : num).

Lemma bump_at_spec (buckets : list nat) (v : num) :
  bump_at buckets (bin_index bins min width v) =
  match bin_of bins min width v with
  | Some i => bump i buckets
  | None => buckets
  end.
Proof.
  unfold bump_at, bin_of. destruct (to_Z _) as [z|]; [|reflexivity].
  destruct (0 <=? z)%Z; reflexivity.
Qed.

Lemma fill_length (values : list num) : forall buckets,
  List.length (fill bins min width values buckets) = List.length buckets.
Proof.
  unfold fill. induction values as [|v values IH]; intros buckets; cbn.
  - reflexivity.
  - rewrite IH, bump_at_spec. destruct (bin_of bins min width v); auto using bump_length.
Qed.

Lemma fill_nth (values : list num) : forall buckets i,
  i < List.length buckets ->
  nth i (fill bins min width values buckets) 0 =
  nth i buckets 0 + List.length (filter (lands_in bins min width i) values).
Proof.
  unfold fill. induction values as [|v values IH]; intros buckets i Hi.
  - cbn. lia.
  - cbn [fold_left filter]. rewrite bump_at_spec.
    assert (Hl : lands_in bins min width i v = match bin_of bins min width v with
                                | Some j => Nat.eqb j i
                                | None => false
                                end) by reflexivity.
    rewrite Hl. clear Hl.
    destruct (bin_of bins min width v) as [j|].
    + rewrite IH by (now rewrite bump_length). rewrite bump_nth.
      destruct (Nat.eqb_spec j i) as [-> | Hne]; cbn [andb List.length].
      * apply Nat.ltb_lt in Hi. rewrite Hi. lia.
      * lia.
    + now rewrite IH.
Qed.

Lemma fill_sum (values : list num) : forall buckets,
  list_sum (fill bins min width values buckets) =
  list_sum buckets
  + List.length (filter (fun v => match bin_of bins min width v with
                                  | Some j => Nat.ltb j (List.length buckets)
                                  | None => false
                                  end) values).
Proof.
  unfold fill. induction values as [|v values IH]; intros buckets.
  - cbn [fold_left filter List.length]. lia.
  - cbn [fold_left filter]. rewrite bump_at_spec.
    destruct (bin_of bins min width v) as [j|].
    + rewrite IH, bump_sum, bump_length.
      destruct (Nat.ltb j (List.length buckets)); cbn [List.length]; lia.
    + now rewrite IH.
Qed.

End HistogramGeneric.

Section HistogramShape.
Context {num : Type} `{JSNumber num}.
Variable rt : Runtime num.

Lemma counts_of_labelled (f : nat -> nat -> string) (buckets : list nat) :
  forall start,
    List.map count
      (List.map (fun ci : nat * nat =>
                   let '(index, c) := ci in {| range := f index c; count := c |})
                (combine (seq start (List.length buckets)) buckets)) = buckets.
Proof.
  induction buckets as [|c buckets IH]; intros start; cbn; [reflexivity|].
  now rewrite IH.
Qed.

(** The two branches of the histogram on a non-empty batch. *)
Lemma histogramWith_cons (single_label : num -> num -> string)
    (r : AnalyticsDataRow num) rs (bins : Z) :
  let values := List.map value (r :: rs) in
  let mn := min_of (value r) (List.map value rs) in
  let mx := max_of (value r) (List.map value rs) in
  let width := div (sub mx mn) (of_Z bins) in
  (lt (js_abs (sub mx mn)) tolerance = true ->
     histogramWith rt single_label (r :: rs) bins =
     [ {| range := single_label mn mx; count := List.length (r :: rs) |} ])
  /\ (lt (js_abs (sub mx mn)) tolerance = false ->
        List.map count (histogramWith rt single_label (r :: rs) bins) =
        fill bins mn width values (repeat 0 (Z.to_nat bins))).
Proof.
  intros values mn mx width. unfold histogramWith.
  cbn [List.map]. fold mn mx. split; intros E; rewrite E; [reflexivity|].
  fold width. unfold fill, values. cbn [List.map].
  match goal with
  | |- List.map count (List.map ?g (combine (seq 0 (List.length ?b)) ?b)) = _ =>
      exact (counts_of_labelled
               (fun index _ =>
                  range_label rt (add mn (mul width (of_nat index)))
                              (add (add mn (mul width (of_nat index))) width))
               b 0)
  end.
Qed.

Lemma computeHistogram_cons (r : AnalyticsDataRow num) rs (bins : Z) :
  let values := List.map value (r :: rs) in
  let mn := min_of (value r) (List.map value rs) in
  let mx := max_of (value r) (List.map value rs) in
  let width := div (sub mx mn) (of_Z bins) in
  (lt (js_abs (sub mx mn)) tolerance = true ->
     computeHistogram rt (r :: rs) bins =
     [ {| range := range_label rt mn mx; count := List.length (r :: rs) |} ])
  /\ (lt (js_abs (sub mx mn)) tolerance = false ->
        List.map count (computeHistogram rt (r :: rs) bins) =
        fill bins mn width values (repeat 0 (Z.to_nat bins))).
Proof. apply histogramWith_cons. Qed.

(** The two workspaces count alike. *)
Lemma earlier_histogram_counts (rows : list (AnalyticsDataRow num)) (bins : Z) :
  List.map count (computeHistogram_earlier rt rows bins) =
  List.map count (computeHistogram rt rows bins).
Proof.
  destruct rows as [|r rs]; [reflexivity|].
  unfold computeHistogram_earlier, computeHistogram.
  destruct (histogramWith_cons (range_label rt) r rs bins) as [H1 H2].
  destruct (histogramWith_cons
              (fun a b => (numberToString rt (round a) ++ " - "
                           ++ numberToString rt (round b))%string) r rs bins)
    as [H3 H4].
  cbn zeta in *.
  destruct (lt (js_abs (sub (max_of (value r) (List.map value rs))
                            (min_of (value r) (List.map value rs)))) tolerance).
  - now rewrite H1, H3.
  - now rewrite H2, H4.
Qed.

End HistogramShape.

Local Open Scope Q_scope.

Lemma Qmin_inject_Z (a b : Z) :
  Qmin (inject_Z a) (inject_Z b) = inject_Z (Z.min a b).
Proof.
  unfold Qmin, GenericMinMax.gmin, Z.min, Qcompare. cbn.
  rewrite !Z.mul_1_r. destruct (a ?= b)%Z; reflexivity.
Qed.

Lemma Q_to_Z_inject_Z (z : Z) : Q_to_Z (inject_Z z) = Some z.
Proof.
  unfold Q_to_Z. rewrite Qfloor_Z.
  assert (E : Qeq_bool (inject_Z z) (inject_Z z) = true)
    by (apply Qeq_bool_iff; reflexivity).
  now rewrite E.
Qed.

Lemma bin_index_exact (bins : Z) (mn width v : Q) :
  bin_index bins mn width v =
  inject_Z (Z.min (bins - 1) (Qfloor ((v - mn) / width))).
Proof. unfold bin_index. cbn [js_min js_floor of_Z div sub Exact]. apply Qmin_inject_Z. Qed.

Lemma tolerance_exact : tolerance == 1e-9.
Proof. reflexivity. Qed.

Section HistogramExact.
Variables (bins : Z) (mn mx : Q).
Hypothesis Hbins : (1 <= bins)%Z.
Hypothesis Hrange : 1e-9 <= mx - mn.

Lemma width_positive : 0 < (mx - mn) / inject_Z bins.
Proof.
  apply Qlt_shift_div_l.
  - change 0 with (inject_Z 0). rewrite <- Zlt_Qlt. lia.
  - assert (0 < 1e-9) by reflexivity. lra.
Qed.

Lemma exact_index_range (v : Q) :
  mn <= v ->
  (0 <= Z.min (bins - 1) (Qfloor ((v - mn) / ((mx - mn) / inject_Z bins)))
   < bins)%Z.
Proof.
  intros Hv. pose proof width_positive as Hw.
  assert (H0 : 0 <= (v - mn) / ((mx - mn) / inject_Z bins)).
  { apply Qle_shift_div_l; [exact Hw | lra]. }
  apply Qfloor_resp_le in H0. change (Qfloor 0) with 0%Z in H0. lia.
Qed.

Lemma bin_of_exact (v : Q) :
  mn <= v ->
  bin_of bins mn ((mx - mn) / inject_Z bins) v =
  Some (Z.to_nat (Z.min (bins - 1)
                        (Qfloor ((v - mn) / ((mx - mn) / inject_Z bins))))).
Proof.
  intros Hv. unfold bin_of. rewrite bin_index_exact.
  cbn [to_Z Exact]. rewrite Q_to_Z_inject_Z.
  destruct (exact_index_range v Hv) as [Hlo _].
  apply Z.leb_le in Hlo. now rewrite Hlo.
Qed.

End HistogramExact.

Local Close Scope Q_scope.


Local Open Scope Q_scope.



(** The degenerate scenario: three readings of value 5 and ten bins give a
    single bin holding the three rows, in both arithmetics. *)
Example histogram_all_equal :
  List.map count (computeHistogram example_host (@all_fives Q _) 10) = [3%nat]
  /\ List.map count (computeHistogram example_host (@all_fives float _) 10)
     = [3%nat].
Proof. split; vm_compute; reflexivity. Qed.

Local Close Scope Q_scope.

(** ** Maps and grouping loops *)

Section MapFacts.
Context {V : Type}.
Implicit Types (m : JSMap V) (k : string) (v : V).

Lemma map_get_set m : forall k v k',
  map_get (map_set m k v) k' = if String.eqb k k' then Some v else map_get m k'.
Proof.
  induction m as [|[k0 v0] m IH]; intros k v k'; cbn.
  - destruct (String.eqb k k'); reflexivity.
  - destruct (String.eqb_spec k0 k) as [-> | Hne]; cbn.
    + destruct (String.eqb k k'); reflexivity.
    + rewrite IH. destruct (String.eqb_spec k0 k') as [-> | Hne'].
      * destruct (String.eqb_spec k k'); [congruence | reflexivity].
      * reflexivity.
Qed.

Lemma map_get_set_same m k v : map_get (map_set m k v) k = Some v.
Proof. now rewrite map_get_set, String.eqb_refl. Qed.

Lemma map_get_set_other m k v k' :
  k <> k' -> map_get (map_set m k v) k' = map_get m k'.
Proof.
  intros Hne. rewrite map_get_set.
  destruct (String.eqb_spec k k'); [congruence | reflexivity].
Qed.

Lemma map_get_keys m k : In k (map_keys m) <-> map_get m k <> None.
Proof.
  induction m as [|[k0 v0] m IH]; cbn.
  - split; [intros [] | congruence].
  - destruct (String.eqb_spec k0 k) as [-> | Hne].
    + split; [discriminate | auto].
    + rewrite <- IH. split; [intros [|]; [congruence | auto] | auto].
Qed.

(** The keys of a map after [set]: as before, with a new key at the end. *)
Lemma map_keys_set m : forall k v,
  map_keys (map_set m k v) =
  if existsb (String.eqb k) (map_keys m) then map_keys m else map_keys m ++ [k].
Proof.
  unfold map_keys.
  induction m as [|[k0 v0] m IH]; intros k v; cbn [map_set List.map fst existsb];
    [reflexivity|].
  rewrite (String.eqb_sym k k0).
  destruct (String.eqb_spec k0 k) as [-> | Hne]; cbn [List.map fst orb];
    [reflexivity|].
  rewrite IH. destruct (existsb _ _); reflexivity.
Qed.

Lemma map_keys_set_add m k v : map_keys (map_set m k v) = set_add (map_keys m) k.
Proof. apply map_keys_set. Qed.

Lemma map_keys_NoDup m k v : NoDup (map_keys m) -> NoDup (map_keys (map_set m k v)).
Proof.
  intros Hnd. rewrite map_keys_set.
  destruct (existsb (String.eqb k) (map_keys m)) eqn:E; [exact Hnd|].
  apply NoDup_app; [exact Hnd | repeat constructor; intros [] |].
  intros x Hx [Heq | []]. subst x.
  assert (Hex : existsb (String.eqb k) (map_keys m) = true).
  { apply existsb_exists. exists k. split; [exact Hx | apply String.eqb_refl]. }
  congruence.
Qed.

End MapFacts.

(** ** Sorting *)

Section SortFacts.
Context {A : Type} (after : A -> A -> bool).

Lemma sort_insert_perm (x : A) (l : list A) :
  Permutation (x :: l) (sort_insert after x l).
Proof.
  induction l as [|y l IH]; cbn; [reflexivity|].
  destruct (after x y); [|reflexivity].
  rewrite perm_swap. now apply perm_skip.
Qed.

Lemma js_sort_perm (l : list A) : Permutation l (js_sort after l).
Proof.
  induction l as [|x l IH]; cbn; [reflexivity|].
  rewrite <- sort_insert_perm. now apply perm_skip.
Qed.

Lemma js_sort_In (l : list A) (x : A) : In x (js_sort after l) <-> In x l.
Proof.
  split; apply Permutation_in;
    [apply Permutation_sym|]; apply js_sort_perm.
Qed.

Hypothesis in_order_trans : forall a b c,
  in_order after a b -> in_order after b c -> in_order after a c.
Hypothesis after_asym : forall a b, after a b = true -> in_order after b a.

(** The position an element had before the sort. *)
Variable rank : A -> nat.

Lemma sort_insert_stable (x : A) (l : list A) :
  StronglySorted (stably_before after rank) l ->
  Forall (fun y => rank x < rank y) l ->
  StronglySorted (stably_before after rank) (sort_insert after x l).
Proof.
  induction l as [|y l IH]; intros Hsorted Hrank; cbn.
  - repeat constructor.
  - apply StronglySorted_inv in Hsorted. destruct Hsorted as [Hl Hy].
    apply Forall_cons_iff in Hrank. destruct Hrank as [Hxy Hrank].
    destruct (after x y) eqn:E.
    + constructor; [now apply IH|].
      apply (Permutation_Forall (sort_insert_perm x l)).
      constructor; [|exact Hy].
      split; [now apply after_asym|].
      unfold in_order. congruence.
    + constructor; [now constructor|].
      constructor; [split; [exact E | auto]|].
      rewrite Forall_forall in *. intros z Hz.
      split; [|intros _; now apply Hrank].
      apply (in_order_trans x y z E). now apply Hy.
Qed.

Lemma js_sort_stable (l : list A) :
  StronglySorted (fun a b => rank a < rank b) l ->
  StronglySorted (stably_before after rank) (js_sort after l).
Proof.
  induction l as [|x l IH]; intros Hsorted; cbn; [constructor|].
  apply StronglySorted_inv in Hsorted. destruct Hsorted as [Hl Hx].
  apply sort_insert_stable; [now apply IH|].
  rewrite Forall_forall in *. intros y Hy. apply Hx.
  exact (proj1 (js_sort_In l y) Hy).
Qed.

End SortFacts.

(** ** Strings *)

Lemma str_lt_trans (a b c : string) :
  str_lt a b = true -> str_lt b c = true -> str_lt a c = true.
Proof.
  unfold str_lt. intros Hab Hbc.
  destruct (String.compare a b) eqn:Eab; try discriminate.
  destruct (String.compare b c) eqn:Ebc; try discriminate.
  apply String_as_OT.cmp_lt in Eab, Ebc.
  pose proof (String_as_OT.lt_trans _ _ _ Eab Ebc) as Hac.
  apply String_as_OT.cmp_lt in Hac. unfold String_as_OT.cmp in Hac.
  now rewrite Hac.
Qed.

Lemma str_lt_irrefl (a : string) : str_lt a a = false.
Proof.
  unfold str_lt.
  destruct (String_as_OT.cmp_eq a a) as [_ E].
  unfold String_as_OT.cmp in E. now rewrite (E eq_refl).
Qed.

Lemma str_lt_total (a b : string) :
  str_lt a b = true \/ a = b \/ str_lt b a = true.
Proof.
  unfold str_lt. rewrite (String.compare_antisym a b).
  destruct (String.compare b a) eqn:E; cbn; auto.
  apply String.compare_eq_iff in E. auto.
Qed.

(** Not having to go behind, for the default sort of strings. *)
Lemma str_in_order_trans (a b c : string) :
  str_lt b a = false -> str_lt c b = false -> str_lt c a = false.
Proof.
  intros Hab Hbc.
  destruct (str_lt c a) eqn:Hca; [|reflexivity].
  destruct (str_lt_total a b) as [Hlt | [-> | Hlt]]; [|congruence|congruence].
  pose proof (str_lt_trans c a b Hca Hlt). congruence.
Qed.

Lemma str_after_asym (a b : string) :
  str_lt b a = true -> str_lt a b = false.
Proof.
  intros Hba. destruct (str_lt a b) eqn:Hab; [|reflexivity].
  pose proof (str_lt_trans a b a Hab Hba) as H.
  now rewrite str_lt_irrefl in H.
Qed.

(** ** Order of first occurrence *)

Lemma StronglySorted_weaken {A} (R R' : A -> A -> Prop) (l : list A) :
  (forall a b, In a l -> In b l -> R a b -> R' a b) ->
  StronglySorted R l -> StronglySorted R' l.
Proof.
  intros Himp Hsorted. induction Hsorted as [|a l Hl IH Ha]; constructor.
  - apply IH. intros x y Hx Hy. apply Himp; now right.
  - rewrite Forall_forall in *. intros y Hy.
    apply Himp; [now left | now right | now apply Ha].
Qed.

Lemma StronglySorted_snoc {A} (R : A -> A -> Prop) (l : list A) (x : A) :
  StronglySorted R l -> Forall (fun a => R a x) l ->
  StronglySorted R (l ++ [x]).
Proof.
  intros Hsorted Hall. induction Hsorted as [|a l Hl IH Ha]; cbn.
  - repeat constructor.
  - apply Forall_cons_iff in Hall. destruct Hall as [Hax Hall].
    constructor; [now apply IH|].
    apply Forall_app. split; [exact Ha | now constructor].
Qed.

Lemma existsb_eqb_In (x : string) (s : list string) :
  existsb (String.eqb x) s = true <-> In x s.
Proof.
  rewrite existsb_exists. split.
  - intros (y & Hy & E). apply String.eqb_eq in E. now subst.
  - intros Hx. exists x. split; [exact Hx | apply String.eqb_refl].
Qed.

Lemma set_add_In (s : list string) (x y : string) :
  In y (set_add s x) <-> In y s \/ y = x.
Proof.
  unfold set_add. destruct (existsb (String.eqb x) s) eqn:E.
  - apply existsb_eqb_In in E. split; [auto | intros [H | ->]; auto].
  - rewrite in_app_iff. cbn. intuition.
Qed.

Lemma first_index_app_In (k : string) (l l' : list string) :
  In k l -> first_index k (l ++ l') = first_index k l.
Proof.
  induction l as [|x l IH]; cbn; [intros []|].
  destruct (String.eqb_spec x k) as [-> | Hne]; [reflexivity|].
  intros [E | Hin]; [congruence|]. now rewrite IH.
Qed.

Lemma first_index_app_notin (k : string) (l : list string) :
  ~ In k l -> first_index k (l ++ [k]) = List.length l.
Proof.
  induction l as [|x l IH]; cbn; intros Hnot.
  - now rewrite String.eqb_refl.
  - destruct (String.eqb_spec x k) as [-> | Hne]; [tauto|].
    rewrite IH; tauto.
Qed.

Lemma first_index_bound (k : string) (l : list string) :
  In k l -> first_index k l < List.length l.
Proof.
  induction l as [|x l IH]; cbn; [intros []|].
  destruct (String.eqb_spec x k) as [-> | Hne]; [lia|].
  intros [E | Hin]; [congruence|]. apply IH in Hin. lia.
Qed.

Lemma distinct_snoc (l : list string) (x : string) :
  distinct (l ++ [x]) = set_add (distinct l) x.
Proof. unfold distinct. now rewrite fold_left_app. Qed.

(** The distinct list has no repetition, the same members as the list it
    comes from, and lists them by first occurrence. *)
Lemma distinct_spec (l : list string) :
  NoDup (distinct l)
  /\ (forall x, In x (distinct l) <-> In x l)
  /\ StronglySorted (fun a b => first_index a l < first_index b l) (distinct l).
Proof.
  induction l as [|x l (Hnd & Hin & Hsorted)] using rev_ind.
  - repeat split; try constructor; auto.
  - rewrite distinct_snoc.
    assert (Hmem : forall y, In y (set_add (distinct l) x) <-> In y (l ++ [x])).
    { intros y. rewrite set_add_In, in_app_iff, Hin. cbn. intuition. }
    assert (Hold : StronglySorted
                     (fun a b => first_index a (l ++ [x]) < first_index b (l ++ [x]))
                     (distinct l)).
    { apply (StronglySorted_weaken
               (fun a b => first_index a l < first_index b l));
        [|exact Hsorted].
      intros a b Ha Hb Hab. apply Hin in Ha, Hb.
      now rewrite !first_index_app_In. }
    split; [|split; [exact Hmem|]].
    + unfold set_add. destruct (existsb _ _) eqn:E; [exact Hnd|].
      apply NoDup_app; [exact Hnd | repeat constructor; intros [] |].
      intros y Hy [Heq | []]. subst y.
      apply existsb_eqb_In in Hy. congruence.
    + unfold set_add. destruct (existsb _ _) eqn:E; [exact Hold|].
      assert (Hx : ~ In x l).
      { intros Hx. apply Hin, existsb_eqb_In in Hx. congruence. }
      apply StronglySorted_snoc; [exact Hold|].
      rewrite Forall_forall. intros a Ha. apply Hin in Ha.
      rewrite (first_index_app_In a l [x] Ha), (first_index_app_notin x l Hx).
      now apply first_index_bound.
Qed.

(** ** Grouping loops *)

Section GroupingFacts.
Context {num : Type} `{JSNumber num}.
Implicit Types (rows : list (AnalyticsDataRow num)).
Implicit Types (m : JSMap (Accumulator num)).

Lemma acc_fold (vs : list num) : forall a : Accumulator num,
  fold_left acc_add vs a =
  {| acc_sum := fold_left add vs (acc_sum a);
     acc_count := acc_count a + List.length vs |}.
Proof.
  induction vs as [|v vs IH]; intros [s c]; cbn.
  - now rewrite Nat.add_0_r.
  - rewrite IH. cbn. f_equal. lia.
Qed.

Lemma acc_mean_fold (vs : list num) :
  acc_mean (fold_left acc_add vs acc_empty) = mean_of vs.
Proof. rewrite acc_fold. reflexivity. Qed.

Variable key_of : AnalyticsDataRow num -> string.

(** After a grouping loop, the accumulator under a key holds the values of
    the rows carrying that key, added in batch order to what was there. *)
Lemma group_fold_get rows : forall m k,
  map_get (fold_left (group_step key_of) rows m) k =
  match rows_with key_of k rows with
  | [] => map_get m k
  | g => Some (fold_left acc_add (List.map value g) (get_or m k acc_empty))
  end.
Proof.
  induction rows as [|r rows IH]; intros m k; [reflexivity|].
  cbn [fold_left]. rewrite IH. unfold rows_with. cbn [filter].
  assert (Hget : map_get (group_step key_of m r) k =
                 if String.eqb (key_of r) k
                 then Some (acc_add (get_or m k acc_empty) (value r))
                 else map_get m k).
  { unfold group_step. rewrite map_get_set.
    destruct (String.eqb_spec (key_of r) k) as [-> | Hne]; reflexivity. }
  unfold get_or at 1. rewrite !Hget.
  destruct (String.eqb (key_of r) k);
    destruct (filter _ rows) as [|r' g]; reflexivity.
Qed.

(** Starting from the empty map: absent when no row carries the key, the
    accumulated group otherwise. *)
Lemma group_fold_mean rows k :
  option_map acc_mean (map_get (fold_left (group_step key_of) rows []) k) =
  group_mean (rows_with key_of k rows).
Proof.
  rewrite group_fold_get. unfold group_mean.
  destruct (rows_with key_of k rows) as [|r g]; [reflexivity|].
  cbn [option_map]. f_equal.
  change (get_or [] k acc_empty) with (@acc_empty num _).
  apply acc_mean_fold.
Qed.

(** The keys of the map are the distinct keys of the batch, in the order
    they are first met. *)
Lemma group_fold_keys rows : forall m,
  map_keys (fold_left (group_step key_of) rows m) =
  fold_left set_add (List.map key_of rows) (map_keys m).
Proof.
  induction rows as [|r rows IH]; intros m; [reflexivity|].
  cbn [fold_left List.map]. rewrite IH. f_equal.
  unfold group_step. apply map_keys_set.
Qed.

End GroupingFacts.

Lemma map_In_get {V} (m : JSMap V) (k : string) (v : V) :
  NoDup (map_keys m) -> In (k, v) m -> map_get m k = Some v.
Proof.
  induction m as [|[k0 v0] m IH]; cbn; [intros _ []|].
  intros Hnd [[= -> ->] | Hin].
  - now rewrite String.eqb_refl.
  - apply NoDup_cons_iff in Hnd. destruct Hnd as [Hk0 Hnd].
    destruct (String.eqb_spec k0 k) as [-> | Hne].
    + exfalso. apply Hk0. unfold map_keys.
      change k with (fst (k, v)). now apply in_map.
    + now apply IH.
Qed.

Lemma StronglySorted_map {A B} (f : A -> B) (R : B -> B -> Prop) (l : list A) :
  StronglySorted (fun a b => R (f a) (f b)) l <-> StronglySorted R (List.map f l).
Proof.
  induction l as [|a l IH]; cbn.
  - split; constructor.
  - split; intros Hs; apply StronglySorted_inv in Hs; destruct Hs as [Hl Ha];
      (constructor; [now apply IH|]).
    + rewrite Forall_forall in *. intros b Hb.
      apply in_map_iff in Hb. destruct Hb as (a' & <- & Ha'). now apply Ha.
    + rewrite Forall_forall in *. intros a' Ha'. apply Ha. now apply in_map.
Qed.

(** ** Station bars *)

Section StationBarsGeneric.
Context {num : Type} `{JSNumber num}.
Implicit Types (rows : list (AnalyticsDataRow num)).

Lemma computeStationBars_unfold rows :
  computeStationBars rows =
  js_sort bar_after
    (List.map bar_of (fold_left (group_step station_code) rows [])).
Proof. reflexivity. Qed.

Lemma station_entries rows :
  List.map station
    (List.map bar_of (fold_left (group_step station_code) rows []))
  = distinct (List.map station_code rows).
Proof.
  rewrite map_map. cbn [bar_of station].
  change (List.map (fun e => fst e) ?m) with (map_keys m).
  now rewrite group_fold_keys.
Qed.

Lemma station_entry_mean rows (p : StationBarPoint num) :
  In p (List.map bar_of (fold_left (group_step station_code) rows [])) ->
  Some (avg p) = group_mean (rows_with station_code (station p) rows).
Proof.
  intros Hp. apply in_map_iff in Hp. destruct Hp as ([k a] & <- & Hin).
  rewrite <- group_fold_mean. cbn [bar_of station avg fst snd].
  rewrite (map_In_get _ k a); [reflexivity | | exact Hin].
  rewrite group_fold_keys. apply distinct_spec.
Qed.

End StationBarsGeneric.

Local Open Scope Q_scope.

Lemma bar_in_order (a b : StationBarPoint Q) :
  in_order bar_after a b <-> avg b <= avg a.
Proof.
  unfold in_order, bar_after. cbn [lt sub of_Z Exact].
  rewrite Qltb_ge. change (inject_Z 0) with 0. split; intros; lra.
Qed.


Local Close Scope Q_scope.

(** ** Cell keys *)

Lemma has_bar_app (a b : string) :
  has_bar (a ++ b) = has_bar a || has_bar b.
Proof.
  induction a as [|c a IH]; cbn; [reflexivity|].
  now rewrite IH, orb_assoc.
Qed.

(** A key splits in one way only at its last separator. *)
Lemma key_split (d : string) : forall d' s s',
  has_bar s = false -> has_bar s' = false ->
  (d ++ "|" ++ s)%string = (d' ++ "|" ++ s')%string -> d = d' /\ s = s'.
Proof.
  induction d as [|c d IH]; intros [|c' d'] s s' Hs Hs' E; cbn in E.
  - injection E as E. auto.
  - injection E as Ec E. subst s.
    rewrite has_bar_app in Hs. cbn in Hs. now rewrite orb_true_r in Hs.
  - injection E as Ec E. subst s'.
    rewrite has_bar_app in Hs'. cbn in Hs'. now rewrite orb_true_r in Hs'.
  - injection E as Ec E. subst c'.
    destruct (IH d' s s' Hs Hs' E) as [-> ->]. auto.
Qed.

Lemma uint_str_no_bar (u : Decimal.uint) :
  has_bar (NilEmpty.string_of_uint u) = false.
Proof. induction u; cbn; auto. Qed.

Lemma int_str_no_bar (n : option Z) : has_bar (int_str n) = false.
Proof.
  destruct n as [z|]; [|reflexivity]. unfold int_str, NilZero.string_of_int.
  destruct (Z.to_int z) as [u | u]; destruct u; cbn;
    auto using uint_str_no_bar.
Qed.

Lemma int_str_parse (z : Z) :
  NilZero.int_of_string (int_str (Some z)) = Some (Z.to_int z).
Proof.
  unfold int_str. apply NilZero.isi; destruct z; cbn; try discriminate;
    intros [= E]; now apply (DecimalPos.Unsigned.to_uint_nonnil p).
Qed.

Lemma int_str_inj (n n' : option Z) : int_str n = int_str n' -> n = n'.
Proof.
  destruct n as [z|], n' as [z'|]; intros E.
  - f_equal. apply DecimalZ.to_int_inj.
    pose proof (int_str_parse z) as Hz. rewrite E, int_str_parse in Hz.
    congruence.
  - pose proof (int_str_parse z) as Hz. rewrite E in Hz. discriminate.
  - pose proof (int_str_parse z') as Hz. rewrite <- E in Hz. discriminate.
  - reflexivity.
Qed.

(** Distinct (day, hour) pairs have distinct keys. *)
Lemma heat_key_inj (d d' : string) (h h' : option Z) :
  heat_key d h = heat_key d' h' -> d = d' /\ h = h'.
Proof.
  unfold heat_key. intros E.
  destruct (key_split d d' (int_str h) (int_str h')
              (int_str_no_bar h) (int_str_no_bar h') E) as [Hd Hh].
  split; [exact Hd | now apply int_str_inj].
Qed.

(** ** Heatmap *)

Lemma NoDup_sorted_strict {A} (R : A -> A -> Prop) (l : list A) :
  NoDup l -> StronglySorted R l ->
  StronglySorted (fun a b => R a b /\ a <> b) l.
Proof.
  intros Hnd Hsorted. induction Hsorted as [|a l Hl IH Ha]; constructor.
  - apply IH. now apply NoDup_cons_iff in Hnd.
  - apply NoDup_cons_iff in Hnd. destruct Hnd as [Hnotin _].
    rewrite Forall_forall in *. intros b Hb. split; [now apply Ha|].
    intros ->. contradiction.
Qed.

(** The default sort of distinct strings yields a strictly ascending list. *)
Lemma sorted_days (l : list string) :
  NoDup l ->
  StronglySorted (fun a b => str_lt a b = true)
                 (js_sort (fun a b => str_lt b a) l).
Proof.
  intros Hnd.
  set (after := fun a b : string => str_lt b a).
  assert (Hstable : StronglySorted (stably_before after (fun d => first_index d l))
                                   (js_sort after (distinct l))).
  { apply js_sort_stable.
    - intros a b c. apply str_in_order_trans.
    - intros a b. apply str_after_asym.
    - apply distinct_spec. }
  assert (Hd : distinct l = l).
  { clear Hstable. induction l as [|x l IH] using rev_ind; [reflexivity|].
    rewrite distinct_snoc.
    apply NoDup_remove in Hnd. rewrite app_nil_r in Hnd.
    destruct Hnd as [Hnd Hx]. rewrite (IH Hnd). unfold set_add.
    destruct (existsb _ l) eqn:E; [|reflexivity].
    apply existsb_eqb_In in E. contradiction. }
  rewrite Hd in Hstable.
  assert (Hnd' : NoDup (js_sort after l))
    by (apply (Permutation_NoDup (js_sort_perm after l) Hnd)).
  eapply StronglySorted_weaken; [|exact (NoDup_sorted_strict _ _ Hnd' Hstable)].
  intros a b _ _ [[Hab _] Hne]. unfold in_order, after in Hab.
  destruct (str_lt_total a b) as [Hlt | [-> | Hlt]]; congruence.
Qed.

Lemma slice_last_length {A} (n : nat) (l : list A) :
  List.length (slice_last n l) <= n.
Proof. unfold slice_last. rewrite length_skipn. lia. Qed.

Section HeatmapFacts.
Context {num : Type} `{JSNumber num}.
Variable day_of : AnalyticsDataRow num -> string.
Variable hour_of : AnalyticsDataRow num -> option Z.
Implicit Types (rows : list (AnalyticsDataRow num)).
Implicit Types (grouped : JSMap (Accumulator num)) (values : JSMap num).

(** The accumulation loop groups by cell key and collects the days. *)
Lemma heat_fold rows : forall grouped daySet,
  fold_left (heat_step day_of hour_of) rows (grouped, daySet) =
  (fold_left (group_step (fun r => heat_key (day_of r) (hour_of r))) rows grouped,
   fold_left set_add (List.map day_of rows) daySet).
Proof.
  induction rows as [|r rows IH]; intros grouped daySet; [reflexivity|].
  cbn [fold_left List.map]. rewrite <- IH. reflexivity.
Qed.

Lemma heat_cell_get grouped values (d : string) (h : Z) (k : string) :
  map_get (heat_cell grouped values d h) k =
  if String.eqb (heat_key d (Some h)) k
  then match map_get grouped k with
       | Some item => Some (acc_mean item)
       | None => map_get values k
       end
  else map_get values k.
Proof.
  unfold heat_cell.
  destruct (String.eqb_spec (heat_key d (Some h)) k) as [<- | Hne].
  - destruct (map_get grouped _); [apply map_get_set_same | reflexivity].
  - destruct (map_get grouped _); [now apply map_get_set_other | reflexivity].
Qed.

(** The cells written for the given days and hours. *)
Lemma heat_cells_get grouped (hs : list Z) (k : string) (ds : list string) :
  forall values,
  map_get (fold_left (fun values day =>
                        fold_left (fun values hour =>
                                     heat_cell grouped values day hour)
                                  hs values)
                     ds values) k =
  if existsb (fun d => existsb (fun h => String.eqb (heat_key d (Some h)) k) hs) ds
  then match map_get grouped k with
       | Some item => Some (acc_mean item)
       | None => map_get values k
       end
  else map_get values k.
Proof.
  assert (Hrow : forall d hs' values,
    map_get (fold_left (fun values hour => heat_cell grouped values d hour)
                       hs' values) k =
    if existsb (fun h => String.eqb (heat_key d (Some h)) k) hs'
    then match map_get grouped k with
         | Some item => Some (acc_mean item)
         | None => map_get values k
         end
    else map_get values k).
  { intros d hs'. induction hs' as [|h hs' IH]; intros values; [reflexivity|].
    cbn [fold_left existsb]. rewrite IH, heat_cell_get.
    destruct (String.eqb _ k); cbn [orb];
      destruct (existsb _ hs'); destruct (map_get grouped k); reflexivity. }
  induction ds as [|d ds IH]; intros values; [reflexivity|].
  cbn [fold_left existsb]. rewrite IH, Hrow.
  destruct (existsb _ hs); cbn [orb];
    destruct (existsb _ ds); destruct (map_get grouped k); reflexivity.
Qed.

(** The rows under a cell key are the observations of that day and hour. *)
Lemma rows_with_cell rows (d : string) (h : Z) :
  rows_with (fun r => heat_key (day_of r) (hour_of r)) (heat_key d (Some h)) rows
  = cell_rows day_of hour_of d h rows.
Proof.
  unfold rows_with, cell_rows. apply filter_ext. intros r.
  destruct (String.eqb_spec (heat_key (day_of r) (hour_of r))
                            (heat_key d (Some h))) as [E | Hne].
  - apply heat_key_inj in E. destruct E as [-> ->].
    cbn. now rewrite String.eqb_refl, Z.eqb_refl.
  - destruct (String.eqb_spec (day_of r) d) as [Ed | Hd]; [|reflexivity].
    destruct (hour_of r) as [h'|] eqn:Eh; [|reflexivity]. cbn.
    destruct (Z.eqb_spec h' h) as [-> | Hh]; [|reflexivity].
    rewrite Ed in Hne. congruence.
Qed.

(** The heat matrix meets its specification however day and hour are read
    off a row. *)
Lemma computeHeatmapWith_spec rows :
  heatmap_spec day_of hour_of rows (computeHeatmapWith day_of hour_of rows).
Proof.
  unfold computeHeatmapWith. rewrite heat_fold.
  fold (distinct (List.map day_of rows)).
  set (grouped := fold_left (group_step _) rows []).
  set (sorted := js_sort _ (distinct _)).
  set (hs := List.map Z.of_nat (seq 0 24)).
  destruct (distinct_spec (List.map day_of rows)) as (Hnd & Hin & _).
  assert (Hhs : forall h, In h hs <-> (0 <= h < 24)%Z).
  { intros h. unfold hs. rewrite in_map_iff. split.
    - intros (n & <- & Hn). apply in_seq in Hn. lia.
    - intros Hh. exists (Z.to_nat h). split; [lia|]. apply in_seq. lia. }
  assert (Hcells : forall k,
    existsb (fun d => existsb (fun h => String.eqb (heat_key d (Some h)) k) hs)
            (slice_last 14 sorted) = true <->
    exists d h, In d (slice_last 14 sorted) /\ (0 <= h < 24)%Z
                /\ k = heat_key d (Some h)).
  { intros k. rewrite existsb_exists. split.
    - intros (d & Hd & Hex). apply existsb_exists in Hex.
      destruct Hex as (h & Hh & E). apply String.eqb_eq in E.
      exists d, h. repeat split; auto; now apply Hhs.
    - intros (d & h & Hd & Hh & ->). exists d. split; [exact Hd|].
      apply existsb_exists. exists h. split; [now apply Hhs|].
      apply String.eqb_refl. }
  unfold heatmap_spec. cbn [days hours values].
  split; [|split; [apply slice_last_length|split; [reflexivity|split]]].
  - exists sorted. split; [now apply sorted_days|]. split; [|reflexivity].
    intros d. unfold sorted. rewrite js_sort_In, Hin, in_map_iff.
    split; intros (r & Hr1 & Hr2); exists r; auto.
  - intros d h Hd Hh. rewrite heat_cells_get.
    assert (E : existsb (fun d0 => existsb (fun h0 =>
                   String.eqb (heat_key d0 (Some h0)) (heat_key d (Some h))) hs)
                        (slice_last 14 sorted) = true).
    { apply Hcells. exists d, h. auto. }
    rewrite E. rewrite <- rows_with_cell, <- group_fold_mean.
    fold grouped. destruct (map_get grouped _); reflexivity.
  - intros k Hk. apply map_get_keys in Hk. rewrite heat_cells_get in Hk.
    destruct (existsb _ (slice_last 14 sorted)) eqn:E.
    + now apply Hcells.
    + cbn in Hk. congruence.
Qed.

End HeatmapFacts.

(** C5: the heat matrix of either workspace keeps the last 14 of the
    ascending distinct days of the batch, lists the hours 0 to 23, and holds
    under the key of a retained day and an hour the mean of that day's
    observations in that hour when there are any and nothing otherwise, with
    no cell for any other day. *)
Theorem heatmap_contents :
  forall (num : Type) (N : JSNumber num) (rt : Runtime num)
         (rows : list (AnalyticsDataRow num)),
    heatmap_spec (fun row => day_key (newDate rt (observed_at row)))
                 (fun row => getUTCHours (newDate rt (observed_at row)))
                 rows (computeHeatmap rt rows)
    /\ heatmap_spec (fun row => String.substring 0 10 (observed_at row))
                    (fun row => getHours rt (observed_at row))
                    rows (computeHeatmap_earlier rt rows).
Proof.
  intros num N rt rows. split; apply computeHeatmapWith_spec.
Qed.

(** ** Temporal series *)

Section KeyedFold.
Context {R V : Type} (key_of : R -> string) (upd : V -> R -> V) (d : V).

(** A loop that reads the entry of a row's key, with a default, updates it
    and writes it back leaves under each key the updates of the rows that
    carry the key, applied in order. *)
Lemma keyed_fold_get (rows : list R) : forall (m : JSMap V) (k : string),
  map_get (fold_left (fun m r => map_set m (key_of r)
                                   (upd (get_or m (key_of r) d) r)) rows m) k =
  match filter (fun r => String.eqb (key_of r) k) rows with
  | [] => map_get m k
  | g => Some (fold_left upd g (get_or m k d))
  end.
Proof.
  induction rows as [|r rows IH]; intros m k; [reflexivity|].
  cbn [fold_left filter]. rewrite IH.
  assert (Hget : map_get (map_set m (key_of r) (upd (get_or m (key_of r) d) r)) k =
                 if String.eqb (key_of r) k
                 then Some (upd (get_or m k d) r)
                 else map_get m k).
  { rewrite map_get_set.
    destruct (String.eqb_spec (key_of r) k) as [-> | Hne]; reflexivity. }
  assert (Hor : get_or (map_set m (key_of r) (upd (get_or m (key_of r) d) r)) k d =
                if String.eqb (key_of r) k
                then upd (get_or m k d) r
                else get_or m k d).
  { unfold get_or at 1. rewrite Hget.
    destruct (String.eqb (key_of r) k); reflexivity. }
  rewrite Hget, Hor.
  destruct (String.eqb (key_of r) k);
    destruct (filter _ rows) as [|r' g]; reflexivity.
Qed.

Lemma keyed_fold_NoDup (rows : list R) : forall (m : JSMap V),
  NoDup (map_keys m) ->
  NoDup (map_keys (fold_left (fun m r => map_set m (key_of r)
                                (upd (get_or m (key_of r) d) r)) rows m)).
Proof.
  induction rows as [|r rows IH]; intros m Hnd; [exact Hnd|].
  cbn [fold_left]. apply IH. now apply map_keys_NoDup.
Qed.

End KeyedFold.

Section TemporalFacts.
Context {num : Type} `{JSNumber num}.
Variable rt : Runtime num.
Variable granularity : TimeGranularity.
Variable splitByStation : bool.
Implicit Types (rows group : list (AnalyticsDataRow num)).
Implicit Types (sb : JSMap (Accumulator num)).

(** The bucket map does not depend on the series counters. *)
Lemma temporal_fold_buckets rows : forall bucketMap seriesCounter,
  fst (fold_left (temporal_step rt granularity splitByStation) rows
                 (bucketMap, seriesCounter)) =
  fold_left
    (fun m r =>
       map_set m (getBucketKey rt (observed_at r) granularity)
         (series_step splitByStation
            (get_or m (getBucketKey rt (observed_at r) granularity) []) r))
    rows bucketMap.
Proof.
  induction rows as [|r rows IH]; intros bucketMap seriesCounter; [reflexivity|].
  cbn [fold_left]. rewrite <- (IH _ (map_set seriesCounter
       (seriesKeyOf splitByStation r)
       (get_or seriesCounter (seriesKeyOf splitByStation r) 0 + 1))).
  reflexivity.
Qed.

Lemma series_step_overall sb (r : AnalyticsDataRow num) :
  seriesKeyOf splitByStation r <> "overall" ->
  map_get (series_step splitByStation sb r) "overall" =
  Some (acc_add (get_or sb "overall" acc_empty) (value r)).
Proof.
  intros Hne. unfold series_step. rewrite map_get_set_same. do 2 f_equal.
  unfold get_or. now rewrite map_get_set_other.
Qed.

(** Within a bucket, the [overall] accumulator adds up every row once,
    provided no row is filed under the series key [overall]. *)
Lemma series_fold_overall group : forall sb (r : AnalyticsDataRow num),
  (forall r', In r' (r :: group) -> seriesKeyOf splitByStation r' <> "overall") ->
  map_get (fold_left (series_step splitByStation) group
                     (series_step splitByStation sb r)) "overall" =
  Some (fold_left acc_add (List.map value group)
                  (acc_add (get_or sb "overall" acc_empty) (value r))).
Proof.
  induction group as [|r1 group IH]; intros sb r Hkeys.
  - cbn [fold_left List.map]. apply series_step_overall.
    apply Hkeys. now left.
  - cbn [fold_left List.map]. rewrite IH.
    + unfold get_or at 1. rewrite series_step_overall; [reflexivity|].
      apply Hkeys. now left.
    + intros r' Hr'. apply Hkeys. now right.
Qed.

Lemma series_step_keys sb (r : AnalyticsDataRow num) (k : string) :
  In k (map_keys (series_step splitByStation sb r)) ->
  In k (map_keys sb) \/ k = seriesKeyOf splitByStation r \/ k = "overall".
Proof.
  unfold series_step. rewrite !map_keys_set_add, !set_add_In. tauto.
Qed.

Lemma series_fold_keys group : forall sb (k : string),
  In k (map_keys (fold_left (series_step splitByStation) group sb)) ->
  In k (map_keys sb) \/ k = "overall"
  \/ exists r, In r group /\ seriesKeyOf splitByStation r = k.
Proof.
  induction group as [|r group IH]; intros sb k Hk; [now left|].
  cbn [fold_left] in Hk. apply IH in Hk.
  destruct Hk as [Hk | [Hk | (r' & Hr' & Hk)]].
  - apply series_step_keys in Hk. destruct Hk as [Hk | [Hk | Hk]]; auto.
    right. right. exists r. split; [now left | now symmetry].
  - auto.
  - right. right. exists r'. split; [now right | exact Hk].
Qed.

Lemma series_fold_NoDup group : forall sb,
  NoDup (map_keys sb) ->
  NoDup (map_keys (fold_left (series_step splitByStation) group sb)).
Proof.
  induction group as [|r group IH]; intros sb Hnd; [exact Hnd|].
  cbn [fold_left]. apply IH. unfold series_step.
  now do 2 apply map_keys_NoDup.
Qed.

(** What the point of a bucket shows when no accumulator is filed under
    the name of a declared property other than [overall]. *)
Lemma point_fields (entries : JSMap (Accumulator num)) :
  forall p : TemporalPoint num,
    NoDup (map_keys entries) -> ~ In "bucket" (map_keys entries) ->
    let q := fold_left (fun point kv => point_set point (fst kv) (acc_mean (snd kv)))
                       entries p in
    bucket q = bucket p
    /\ overall q = match map_get entries "overall" with
                   | Some a => acc_mean a
                   | None => overall p
                   end.
Proof.
  induction entries as [|[k a] entries IH]; intros p Hnd Hnb; [now split|].
  cbn [fold_left fst snd]. cbn [map_keys List.map fst] in Hnd, Hnb.
  apply NoDup_cons_iff in Hnd. destruct Hnd as [Hk Hnd].
  assert (Hkb : k <> "bucket") by (intros ->; apply Hnb; now left).
  assert (Hnb' : ~ In "bucket" (map_keys entries))
    by (intros Hin; apply Hnb; now right).
  destruct (IH (point_set p k (acc_mean a)) Hnd Hnb') as [Hb Ho].
  cbn zeta in *. rewrite Hb, Ho. cbn [map_get].
  unfold point_set.
  apply String.eqb_neq in Hkb. rewrite Hkb.
  destruct (String.eqb_spec k "overall") as [-> | Hko].
  - cbn [bucket overall]. split; [reflexivity|].
    destruct (map_get entries "overall") eqn:E; [|reflexivity].
    exfalso. apply Hk. apply map_get_keys. congruence.
  - cbn [bucket overall]. split; reflexivity.
Qed.

(** Under the guard, every point carries its bucket key and the mean of
    the rows of that bucket. *)
Lemma temporal_overall_guarded rows (p : TemporalPoint num) :
  no_reserved_key splitByStation rows ->
  In p (fst (computeTemporalSeries rt rows granularity splitByStation)) ->
  exists b,
    bucket p = JStr b
    /\ bucket_rows rt granularity b rows <> []
    /\ overall p = mean_of (List.map value (bucket_rows rt granularity b rows)).
Proof.
  intros Hguard Hp. unfold computeTemporalSeries in Hp.
  destruct (fold_left (temporal_step rt granularity splitByStation) rows ([], []))
    as [bucketMap seriesCounter] eqn:Efold.
  cbn [fst] in Hp. apply js_sort_In, in_map_iff in Hp.
  destruct Hp as ([b grouped] & <- & Hin).
  assert (Ebm : bucketMap = fst (fold_left
                  (temporal_step rt granularity splitByStation) rows ([], [])))
    by now rewrite Efold.
  rewrite temporal_fold_buckets in Ebm.
  assert (Hget : map_get bucketMap b = Some grouped).
  { apply map_In_get; [|exact Hin]. rewrite Ebm.
    apply keyed_fold_NoDup. constructor. }
  rewrite Ebm, keyed_fold_get in Hget.
  fold (rows_with (fun r => getBucketKey rt (observed_at r) granularity) b rows)
    in Hget.
  fold (bucket_rows rt granularity b rows) in Hget.
  assert (Hsub : forall r, In r (bucket_rows rt granularity b rows) -> In r rows).
  { intros r Hr. unfold bucket_rows, rows_with in Hr.
    now apply filter_In in Hr. }
  destruct (bucket_rows rt granularity b rows) as [|r group] eqn:Eg;
    [discriminate|].
  injection Hget as Hgrouped. cbn [fold_left] in Hgrouped.
  change (get_or [] b []) with (@nil (string * Accumulator num)) in Hgrouped.
  exists b. rewrite Eg.
  assert (Hnd : NoDup (map_keys grouped)).
  { rewrite <- Hgrouped. apply series_fold_NoDup. unfold series_step.
    do 2 apply map_keys_NoDup. constructor. }
  assert (Hnb : ~ In "bucket" (map_keys grouped)).
  { rewrite <- Hgrouped. intros Hk. apply series_fold_keys in Hk.
    destruct Hk as [Hk | [Hk | (r' & Hr' & Hk)]].
    - apply series_step_keys in Hk.
      destruct Hk as [[] | [Hk | Hk]]; [|discriminate].
      symmetry in Hk. now apply (Hguard r (Hsub r (or_introl eq_refl))).
    - discriminate.
    - now apply (Hguard r' (Hsub r' (or_intror Hr'))). }
  destruct (point_fields grouped
              {| bucket := JStr b; overall := of_Z 0; series := [] |} Hnd Hnb)
    as [Hb Ho].
  cbn zeta in Hb, Ho. unfold temporal_point.
  split; [exact Hb|]. split; [discriminate|].
  rewrite Ho, <- Hgrouped, series_fold_overall.
  - change (get_or [] "overall" acc_empty) with (@acc_empty num _).
    change (fold_left acc_add (List.map value group) (acc_add acc_empty (value r)))
      with (fold_left acc_add (List.map value (r :: group)) acc_empty).
    apply acc_mean_fold.
  - intros r' Hr'. now apply (Hguard r' (Hsub r' Hr')).
Qed.

End TemporalFacts.

(** C2 on a batch with a station whose code is [overall]: both rows fall
    in the bucket 2024-01-01 and their mean is 25, but the point of that
    bucket shows 20, because the reading of the station called [overall]
    is added to the [overall] accumulator twice (sum 10 + 10 + 40, count 3).
    The same batch with the station renamed shows 25. *)
Theorem overall_counts_reserved_key_twice :
  let rows := station_named_overall in
  let points := fst (computeTemporalSeries example_host rows day true) in
  List.map (fun r => getBucketKey (@example_host float) (observed_at r) day) rows
    = ["2024-01-01"; "2024-01-01"]
  /\ List.map bucket points = [JStr "2024-01-01"]
  /\ List.map overall points = [of_Z 20]
  /\ mean_of (List.map value (bucket_rows example_host day "2024-01-01" rows))
     = of_Z 25
  /\ List.map overall
       (fst (computeTemporalSeries example_host
               [ reading "2024-01-01T08:00:00Z" "B" "PM25" (of_Z 10 : float);
                 reading "2024-01-01T09:00:00Z" "A" "PM25" (of_Z 40) ]
               day true))
     = [of_Z 25].
Proof. vm_compute. repeat split. Qed.

(** The one-day scenario: at day granularity the three readings fall in
    the single bucket 2024-01-01, whose overall value is 20. *)
Example temporal_one_day :
  let points := fst (computeTemporalSeries example_host (@one_day float _) day false) in
  List.map bucket points = [JStr "2024-01-01"]
  /\ List.map overall points = [of_Z 20].
Proof. vm_compute. split; reflexivity. Qed.

(** * Further properties of the workspace *)

(** ** Answers that arrive beside the awaited one *)

Section ArrivalFacts.
Context {num : Type} {Snapshot : Type}.
Implicit Types (w : Workspace num Snapshot) (e : Event num Snapshot).
Implicit Types (trace : list (Event num Snapshot)).

Lemma live_resume_cases requestId (outcome : Settled Snapshot) w :
  refreshLiveSnapshot_resume requestId outcome w =
  if Nat.eqb requestId (liveRequestIdRef w) then
    {| rows := rows w; loading := loading w; error := error w;
       liveSnapshot := snapshot_of outcome; liveLoading := false;
       requestIdRef := requestIdRef w;
       liveRequestIdRef := liveRequestIdRef w |}
  else w.
Proof.
  unfold refreshLiveSnapshot_resume, refreshLiveSnapshot_finally.
  destruct outcome; destruct (Nat.eqb requestId _) eqn:E; cbn;
    rewrite ?E; reflexivity.
Qed.

Lemma beside_main_step t e w :
  requestIdRef w = t -> beside_main t e = true ->
  main_cells (step w e) = main_cells w.
Proof.
  intros <- He.
  destruct e as [filters a | requestId outcome | | requestId outcome];
    cbn in He; try discriminate; cbn [step].
  - rewrite resume_cases.
    destruct (Nat.eqb requestId _); [discriminate | reflexivity].
  - reflexivity.
  - rewrite live_resume_cases. destruct (Nat.eqb _ _); reflexivity.
Qed.

Lemma beside_main_run t trace : forall w,
  requestIdRef w = t -> forallb (beside_main t) trace = true ->
  main_cells (run w trace) = main_cells w.
Proof.
  induction trace as [|e trace IH]; intros w Ht Hall; [reflexivity|].
  cbn in Hall. apply andb_true_iff in Hall as [He Hall].
  cbn [run fold_left]. fold (run (step w e) trace).
  pose proof (beside_main_step t e w Ht He) as Hstep.
  rewrite IH; auto.
  unfold main_cells in Hstep. congruence.
Qed.

Lemma applied_main_cells outcome w w' :
  main_cells w' = main_cells w ->
  main_cells (applied outcome w') = main_cells (applied outcome w).
Proof.
  unfold main_cells. intros [= Hr Hl He Hc].
  destruct outcome as [response | err]; cbn; [|congruence].
  destruct (resp_rows response); congruence.
Qed.

Lemma beside_live_step t e w :
  liveRequestIdRef w = t -> beside_live t e = true ->
  live_cells (step w e) = live_cells w.
Proof.
  intros <- He.
  destruct e as [filters a | requestId outcome | | requestId outcome];
    cbn in He; try discriminate; cbn [step].
  - unfold runAnalysis_start. destruct (sourceId a); reflexivity.
  - rewrite resume_cases. destruct (Nat.eqb _ _); [|reflexivity].
    destruct outcome; reflexivity.
  - rewrite live_resume_cases.
    destruct (Nat.eqb requestId _); [discriminate | reflexivity].
Qed.

Lemma beside_live_run t trace : forall w,
  liveRequestIdRef w = t -> forallb (beside_live t) trace = true ->
  live_cells (run w trace) = live_cells w.
Proof.
  induction trace as [|e trace IH]; intros w Ht Hall; [reflexivity|].
  cbn in Hall. apply andb_true_iff in Hall as [He Hall].
  cbn [run fold_left]. fold (run (step w e) trace).
  pose proof (beside_live_step t e w Ht He) as Hstep.
  rewrite IH; auto.
  unfold live_cells in Hstep. congruence.
Qed.

Lemma run_app w trace trace' :
  run w (trace ++ trace') = run (run w trace) trace'.
Proof. apply fold_left_app. Qed.

(** While a query is awaited under the latest token and no new query is
    issued, nothing else that happens matters to the main channel: answers
    to retired requests and events of the live channel, in any number and
    any order, before and after the awaited answer, leave rows, error
    text, loading flag and counter exactly as the awaited answer alone
    sets them. *)
Theorem awaited_answer_alone_decides w pre post outcome
    (Hpre : forallb (beside_main (requestIdRef w)) pre = true)
    (Hpost : forallb (beside_main (requestIdRef w)) post = true) :
  main_cells
    (run w (pre ++ AnalysisSettled (requestIdRef w) outcome :: post))
  = main_cells (applied outcome w).
Proof.
  rewrite run_app. cbn [run fold_left].
  fold (run (step (run w pre) (AnalysisSettled (requestIdRef w) outcome)) post).
  pose proof (beside_main_run (requestIdRef w) pre w eq_refl Hpre) as H1.
  assert (Hc : requestIdRef (run w pre) = requestIdRef w)
    by (unfold main_cells in H1; congruence).
  cbn [step]. rewrite resume_latest by (symmetry; exact Hc).
  rewrite beside_main_run with (t := requestIdRef w); auto.
  - now apply applied_main_cells.
  - rewrite <- Hc. destruct outcome; reflexivity.
Qed.

(** The live channel obeys the same rule with its own counter: the answer
    to the latest refresh stores its snapshot, or none if it failed, and
    drops the live loading flag, whatever answers to earlier refreshes and
    events of the main channel arrive around it. *)
Theorem awaited_snapshot_alone_decides w pre post (outcome : Settled Snapshot)
    (Hpre : forallb (beside_live (liveRequestIdRef w)) pre = true)
    (Hpost : forallb (beside_live (liveRequestIdRef w)) post = true) :
  live_cells
    (run w (pre ++ LiveSettled (liveRequestIdRef w) outcome :: post))
  = (snapshot_of outcome, false, liveRequestIdRef w).
Proof.
  rewrite run_app. cbn [run fold_left].
  fold (run (step (run w pre) (LiveSettled (liveRequestIdRef w) outcome)) post).
  pose proof (beside_live_run (liveRequestIdRef w) pre w eq_refl Hpre) as H1.
  assert (Hc : liveRequestIdRef (run w pre) = liveRequestIdRef w)
    by (unfold live_cells in H1; congruence).
  cbn [step]. rewrite live_resume_cases, Hc, Nat.eqb_refl.
  rewrite beside_live_run with (t := liveRequestIdRef w);
    [reflexivity | reflexivity | exact Hpost].
Qed.

(** Deselecting the source while a query is in flight empties the batch
    and asks for a source, but issues no token: the request in flight
    still holds the latest one, the loading flag stays up, and its answer
    is applied when it arrives.  A fulfilled answer with rows puts them
    on screen under the text that asks for a source. *)
Theorem deselection_keeps_request_in_flight w f f' sid a a' outcome :
  let t := requestIdRef w + 1 in
  let cleared :=
    run w [RunAnalysis f (request_for sid a); RunAnalysis f' (deselected a')] in
  let answered := step cleared (AnalysisSettled t outcome) in
  main_cells cleared =
    ([], true, Some "Select a source file to visualize data.", t)
  /\ answered = applied outcome cleared
  /\ main_cells answered =
       match outcome with
       | Fulfilled response =>
           (resp_rows response, false,
            match resp_rows response with
            | [] => Some "No data for the selected source and filters."
            | _ :: _ => Some "Select a source file to visualize data."
            end, t)
       | Rejected err =>
           ([], false,
            Some (match err with
                  | Some message => message
                  | None => "Failed to load analytics data."
                  end), t)
       end.
Proof.
  intros t cleared answered.
  assert (Ha : answered = applied outcome cleared).
  { subst answered. cbn [step]. apply resume_latest. reflexivity. }
  split; [reflexivity|]. split; [exact Ha|].
  rewrite Ha. destruct outcome as [response | err]; [|reflexivity].
  unfold main_cells, applied. cbn [rows loading error requestIdRef].
  destruct (resp_rows response); reflexivity.
Qed.

End ArrivalFacts.

Lemma awaited_answer_alone_decides_witness :
  let w := fst (runAnalysis_start None
                  {| sourceId := Some 7%Z; stationCodes := [];
                     fromDate := ""; toDate := ""; requestedLimit := 500 |}
                  (fst (runAnalysis_start None
                     {| sourceId := Some 7%Z; stationCodes := [];
                        fromDate := ""; toDate := ""; requestedLimit := 500 |}
                     (@initial Q unit)))) in
  let pre := [AnalysisSettled 1 (Rejected (Some "timeout")); RefreshLive] in
  let post := [LiveSettled 1 (Fulfilled tt);
               AnalysisSettled 1 (Rejected None)] in
  let answer := Fulfilled {| resp_rows := []; resp_row_count := 0;
                             truncated := false |} in
  forallb (beside_main (requestIdRef w)) pre = true
  /\ forallb (beside_main (requestIdRef w)) post = true
  /\ main_cells (run w (pre ++ AnalysisSettled 2 answer :: post))
     = ([], false, Some "No data for the selected source and filters.", 2).
Proof.
  intros w pre post answer.
  split; [reflexivity|]. split; [reflexivity|].
  exact (awaited_answer_alone_decides w pre post answer eq_refl eq_refl).
Defined.

Lemma awaited_snapshot_alone_decides_witness :
  let w := fst (refreshLiveSnapshot_start
                  (fst (refreshLiveSnapshot_start (@initial Q nat)))) in
  let pre := [LiveSettled 1 (Fulfilled 10);
              RunAnalysis None
                {| sourceId := None; stationCodes := [];
                   fromDate := ""; toDate := ""; requestedLimit := 500 |}] in
  let post := [LiveSettled 1 (Rejected None)] in
  forallb (beside_live (liveRequestIdRef w)) pre = true
  /\ forallb (beside_live (liveRequestIdRef w)) post = true
  /\ live_cells (run w (pre ++ LiveSettled 2 (Fulfilled 20) :: post))
     = (Some 20, false, 2).
Proof.
  intros w pre post.
  split; [reflexivity|]. split; [reflexivity|].
  exact (awaited_snapshot_alone_decides w pre post (Fulfilled 20)
           eq_refl eq_refl).
Defined.

(** ** The row limit *)

Lemma selectedSource_find filters sid :
  selectedSource filters (Some sid) = find_source filters sid.
Proof. destruct filters; reflexivity. Qed.

(** The limit shown in the workspace is the limit that is sent: a row
    limit that the effect on [sourceMaxRows] has clamped for a source
    lies between 100 and the row count of that source (taken as at least
    100, and as 5000 while the source is unknown), and the orchestrator's
    own clamp leaves it as it is.  The orchestrator's clamp applied twice
    is the clamp applied once. *)
Theorem shown_limit_is_sent_limit
    (filters : option AnalyticsFilterOptionsResponse) (sid current : Z) :
  let maxRows := sourceMaxRows (selectedSource filters (Some sid)) in
  let shown := clampRowLimit maxRows current in
  (100 <= shown <= maxRows)%Z
  /\ effective_limit filters sid shown = shown
  /\ effective_limit filters sid (effective_limit filters sid current)
     = effective_limit filters sid current.
Proof.
  intros maxRows shown. subst shown maxRows.
  rewrite selectedSource_find.
  unfold effective_limit, clampRowLimit, sourceMaxRows.
  destruct (find_source filters sid) as [s|]; lia.
Qed.

(** The first query after the filters have loaded asks for the row count
    of the first source, kept between 100 and 5000: the limit the
    bootstrap sets survives both the effect on [sourceMaxRows] and the
    orchestrator's clamp. *)
Theorem bootstrap_limit_is_sent_limit
    (first : AnalyticsSourceOption) (others : list AnalyticsSourceOption)
    (lo hi : option string) :
  let filters := Some {| sources := first :: others;
                         min_observed_at := lo; max_observed_at := hi |} in
  let start := bootstrapRowLimit (Some first) in
  selectedSource filters (Some (id first)) = Some first
  /\ clampRowLimit (sourceMaxRows (Some first)) start = start
  /\ effective_limit filters (id first) start = start
  /\ (100 <= start <= 5000)%Z.
Proof.
  intros filters start. subst filters start.
  assert (Hfind : find_source
                    (Some {| sources := first :: others;
                             min_observed_at := lo; max_observed_at := hi |})
                    (id first) = Some first).
  { cbn. rewrite Z.eqb_refl. reflexivity. }
  split; [rewrite selectedSource_find; exact Hfind|].
  unfold effective_limit. rewrite Hfind.
  unfold clampRowLimit, sourceMaxRows, bootstrapRowLimit. lia.
Qed.

(** ** Station selection *)

Lemma filter_other_In (code : string) (l : list string) (x : string) :
  In x (filter (fun item => negb (String.eqb item code)) l)
  <-> In x l /\ x <> code.
Proof.
  rewrite filter_In. split; intros [Hin Hne]; split; auto.
  - intros ->. rewrite String.eqb_refl in Hne. discriminate.
  - destruct (String.eqb_spec x code); [contradiction | reflexivity].
Qed.

Lemma filter_absent (code : string) (l : list string) :
  ~ In code l -> filter (fun item => negb (String.eqb item code)) l = l.
Proof.
  induction l as [|x l IH]; intros Hnot; [reflexivity|].
  cbn. destruct (String.eqb_spec x code) as [->|Hne].
  - exfalso. apply Hnot. now left.
  - cbn. rewrite IH; [reflexivity|]. intros Hin. apply Hnot. now right.
Qed.

Lemma existsb_code_In (code : string) (l : list string) :
  existsb (String.eqb code) l = true <-> In code l.
Proof.
  rewrite existsb_exists. split.
  - intros (x & Hin & Heq). apply String.eqb_eq in Heq. now subst.
  - intros Hin. exists code. split; [assumption | apply String.eqb_refl].
Qed.

(** Toggling a station flips whether it is selected and nothing else:
    every other station stays selected or unselected as it was, the
    stations that stay keep their order, a station that is switched on
    goes to the end, and a selection without repetitions stays one.
    Switching a station on and off again gives back the selection. *)
Theorem toggle_station_flips_one (code : string) (current : list string) :
  (In code (handleToggleStation code current) <-> ~ In code current)
  /\ (forall other, other <> code ->
        (In other (handleToggleStation code current) <-> In other current))
  /\ (NoDup current -> NoDup (handleToggleStation code current))
  /\ (~ In code current ->
        handleToggleStation code current = current ++ [code]
        /\ handleToggleStation code (handleToggleStation code current)
           = current)
  /\ filter (fun item => negb (String.eqb item code))
            (handleToggleStation code current)
     = filter (fun item => negb (String.eqb item code)) current.
Proof.
  unfold handleToggleStation.
  destruct (existsb (String.eqb code) current) eqn:E.
  - apply existsb_code_In in E.
    repeat split.
    + intros Hin. apply filter_other_In in Hin. tauto.
    + tauto.
    + intros Hin. apply filter_other_In in Hin. tauto.
    + intros Hin. apply filter_other_In. tauto.
    + intros Hnd. now apply NoDup_filter.
    + contradiction.
    + contradiction.
    + induction current as [|x l IH]; [reflexivity|].
      cbn. destruct (String.eqb x code) eqn:Ex; cbn.
      * clear IH E. induction l as [|y l IH]; [reflexivity|].
        cbn. destruct (String.eqb y code) eqn:Ey; cbn; rewrite ?Ey; cbn;
          [exact IH | f_equal; exact IH].
      * rewrite Ex. cbn. f_equal.
        clear IH E. induction l as [|y l IH]; [reflexivity|].
        cbn. destruct (String.eqb y code) eqn:Ey; cbn; rewrite ?Ey; cbn;
          [exact IH | f_equal; exact IH].
  - assert (Hnot : ~ In code current).
    { intros Hin. apply existsb_code_In in Hin. congruence. }
    repeat split.
    + intros _. exact Hnot.
    + intros _. apply in_or_app. right. now left.
    + intros Hin. apply in_app_or in Hin as [Hin | [Heq | []]]; congruence.
    + intros Hin. apply in_or_app. now left.
    + intros Hnd. apply NoDup_app; auto.
      * repeat constructor. intros [].
      * intros x Hin [Heq | []]. subst. contradiction.
    + assert (Hin : existsb (String.eqb code) (current ++ [code]) = true).
      { apply existsb_code_In, in_or_app. right. now left. }
      rewrite Hin. rewrite filter_app. cbn. rewrite String.eqb_refl. cbn.
      rewrite app_nil_r. now apply filter_absent.
    + rewrite filter_app. cbn. rewrite String.eqb_refl. cbn.
      apply app_nil_r.
Qed.

Lemma toggle_station_flips_one_witness :
  NoDup ["S1"; "S2"] /\ ~ In "S3" ["S1"; "S2"]
  /\ NoDup (handleToggleStation "S3" ["S1"; "S2"])
  /\ handleToggleStation "S3" ["S1"; "S2"] = ["S1"; "S2"; "S3"]
  /\ handleToggleStation "S3" (handleToggleStation "S3" ["S1"; "S2"])
     = ["S1"; "S2"].
Proof.
  assert (Hnd : NoDup ["S1"; "S2"]).
  { repeat constructor; cbn; intuition discriminate. }
  assert (Hnot : ~ In "S3" ["S1"; "S2"]) by (cbn; intuition discriminate).
  destruct (toggle_station_flips_one "S3" ["S1"; "S2"])
    as (_ & _ & Hkeep & Hback & _).
  split; [exact Hnd|]. split; [exact Hnot|].
  split; [exact (Hkeep Hnd)|]. exact (Hback Hnot).
Defined.

(** ** The date range *)

Lemma str_le_antisym (a b : string) :
  str_le a b = true -> str_le b a = true -> a = b.
Proof.
  unfold str_le. rewrite (String.compare_antisym a b).
  destruct (String.compare b a) eqn:E; cbn; try discriminate.
  intros _ _. symmetry. now apply String_as_OT.cmp_eq.
Qed.

(** The normalised range of two dates does not depend on the input they
    were typed in. *)
Theorem normalizeDateRange_symmetric (from to : string)
    (Hfrom : from <> "") (Hto : to <> "") :
  normalizeDateRange from to = normalizeDateRange to from.
Proof.
  unfold normalizeDateRange.
  destruct (falsy from) eqn:Ef; [apply falsy_spec in Ef; contradiction|].
  destruct (falsy to) eqn:Et; [apply falsy_spec in Et; contradiction|].
  cbn.
  destruct (str_le from to) eqn:E1; destruct (str_le to from) eqn:E2;
    try reflexivity.
  - rewrite (str_le_antisym from to E1 E2). reflexivity.
  - apply str_le_total in E1. congruence.
Qed.

(** Normalising is idempotent: the bounds of a normalised range, put back
    into the two inputs, normalise to the same range. *)
Theorem normalizeDateRange_idempotent (from to : string) :
  let r := normalizeDateRange from to in
  normalizeDateRange (date_text (range_from r)) (date_text (range_to r)) = r.
Proof.
  cbn zeta.
  destruct (falsy from) eqn:Ef; destruct (falsy to) eqn:Et.
  - apply falsy_spec in Ef, Et. subst. reflexivity.
  - apply falsy_spec in Ef. subst.
    unfold normalizeDateRange, or_undefined, falsy in *. cbn.
    rewrite Et. cbn. rewrite Et. reflexivity.
  - apply falsy_spec in Et. subst.
    unfold normalizeDateRange, or_undefined, falsy in *. cbn.
    rewrite Ef. cbn. rewrite Ef. reflexivity.
  - unfold normalizeDateRange, falsy in *. rewrite Ef, Et. cbn.
    destruct (str_le from to) eqn:E; cbn; rewrite ?Ef, ?Et; cbn.
    + rewrite E. reflexivity.
    + rewrite (str_le_total _ _ E). reflexivity.
Qed.

Lemma normalizeDateRange_symmetric_witness :
  "2024-03-01" <> "" /\ "2024-01-01" <> ""
  /\ normalizeDateRange "2024-03-01" "2024-01-01"
     = normalizeDateRange "2024-01-01" "2024-03-01".
Proof.
  split; [discriminate|]. split; [discriminate|].
  apply normalizeDateRange_symmetric; discriminate.
Defined.

(** ** The SQL preview *)

(** After any number of runs of the SQL preview, what the panel shows
    depends on the last run alone: the loading flag is down; a fulfilled
    preview is shown, with a text that gives its row count when it was
    truncated and no text otherwise; a failed one clears the preview and
    shows the message of the error, or a fixed text.  No preview or text
    of an earlier run remains. *)
Theorem sql_preview_shows_last_run {SqlRow} (p : SqlPanel SqlRow)
    (earlier : list (Settled (SqlPreviewResponse SqlRow)))
    (outcome : Settled (SqlPreviewResponse SqlRow)) :
  fold_left handleRunSqlPreview (earlier ++ [outcome]) p = sql_shown outcome.
Proof.
  rewrite fold_left_app. cbn [fold_left].
  generalize (fold_left handleRunSqlPreview earlier p). intros q.
  unfold handleRunSqlPreview, handleRunSqlPreview_resume,
    handleRunSqlPreview_start, sql_shown.
  destruct outcome as [response | err]; [|reflexivity].
  destruct (sql_truncated response); reflexivity.
Qed.

(** ** The bins of the histogram and their labels *)

Section HistogramLabels.
Context {num : Type} `{JSNumber num}.
Variable rt : Runtime num.

Lemma ranges_of_labelled (f : nat -> string) (buckets : list nat) :
  forall start,
    List.map range
      (List.map (fun ci : nat * nat =>
                   let '(index, c) := ci in {| range := f index; count := c |})
                (combine (seq start (List.length buckets)) buckets))
    = List.map f (seq start (List.length buckets)).
Proof.
  induction buckets as [|c buckets IH]; intros start; cbn; [reflexivity|].
  now rewrite IH.
Qed.

(** Over a spread that is not degenerate every bin is labelled with its
    two bounds. *)
Lemma computeHistogram_ranges (r : AnalyticsDataRow num) rs (bins : Z) :
  let mn := min_of (value r) (List.map value rs) in
  let mx := max_of (value r) (List.map value rs) in
  lt (js_abs (sub mx mn)) tolerance = false ->
  List.map range (computeHistogram rt (r :: rs) bins) =
  List.map (fun index =>
              range_label rt (fst (bin_bounds bins mn mx index))
                          (snd (bin_bounds bins mn mx index)))
           (seq 0 (Z.to_nat bins)).
Proof.
  intros mn mx E. unfold computeHistogram, histogramWith.
  cbn [List.map]. fold mn mx. rewrite E.
  match goal with
  | |- List.map range (List.map ?g (combine (seq 0 (List.length ?b)) ?b)) = _ =>
      assert (Hlen : List.length b = Z.to_nat bins)
  end.
  { exact (eq_trans
             (fill_length bins mn (div (sub mx mn) (of_Z bins))
                (value r :: List.map value rs) (repeat 0 (Z.to_nat bins)))
             (repeat_length 0 (Z.to_nat bins))). }
  match goal with
  | |- List.map range (List.map ?g (combine (seq 0 (List.length ?b)) ?b)) = _ =>
      transitivity
        (List.map (fun index =>
                     range_label rt (fst (bin_bounds bins mn mx index))
                                 (snd (bin_bounds bins mn mx index)))
                  (seq 0 (List.length b)));
      [ exact (ranges_of_labelled
                 (fun index =>
                    range_label rt (fst (bin_bounds bins mn mx index))
                                (snd (bin_bounds bins mn mx index))) b 0)
      | now rewrite Hlen ]
  end.
Qed.

End HistogramLabels.

Local Open Scope Q_scope.

Section BinsExact.
Variables (bins : Z) (mn mx : Q).
Hypothesis Hbins : (1 <= bins)%Z.
Hypothesis Hrange : 1e-9 <= mx - mn.

Lemma bins_positive : 0 < inject_Z bins.
Proof. change 0 with (inject_Z 0). rewrite <- Zlt_Qlt. lia. Qed.

Lemma width_times_bins : (mx - mn) / inject_Z bins * inject_Z bins == mx - mn.
Proof.
  pose proof bins_positive as Hb. field. intros E. rewrite E in Hb.
  now apply Qlt_irrefl in Hb.
Qed.

Lemma quotient_times_width (v : Q) :
  (v - mn) / ((mx - mn) / inject_Z bins) * ((mx - mn) / inject_Z bins)
  == v - mn.
Proof.
  pose proof bins_positive as Hb.
  assert (Htol : 0 < 1e-9) by reflexivity.
  field. split; intros E.
  - rewrite E in Hb. now apply Qlt_irrefl in Hb.
  - lra.
Qed.

Lemma bin_bounds_exact (i : nat) :
  fst (bin_bounds bins mn mx i)
  == mn + (mx - mn) / inject_Z bins * inject_Z (Z.of_nat i)
  /\ snd (bin_bounds bins mn mx i)
     == mn + (mx - mn) / inject_Z bins * inject_Z (Z.of_nat i)
        + (mx - mn) / inject_Z bins.
Proof. split; reflexivity. Qed.

(** A value between the least and the greatest lies between the bounds
    of the bin it is counted in; it lies below the upper bound unless it
    is the greatest value, which is counted in the last bin. *)
Lemma value_within_bounds (v : Q) :
  mn <= v <= mx ->
  let index := Z.min (bins - 1) (Qfloor ((v - mn) / ((mx - mn) / inject_Z bins))) in
  mn + (mx - mn) / inject_Z bins * inject_Z index <= v
  /\ (v < mn + (mx - mn) / inject_Z bins * inject_Z index
          + (mx - mn) / inject_Z bins
      \/ (v == mx /\ index = (bins - 1)%Z)).
Proof.
  intros [Hlo Hhi] index. subst index.
  pose proof (width_positive bins mn mx Hbins Hrange) as Hw.
  pose proof width_times_bins as Hwb.
  pose proof (quotient_times_width v) as Hq.
  pose proof (Qfloor_le ((v - mn) / ((mx - mn) / inject_Z bins))) as Hf1.
  pose proof (Qlt_floor ((v - mn) / ((mx - mn) / inject_Z bins))) as Hf2.
  rewrite inject_Z_plus in Hf2. change (inject_Z 1) with 1 in Hf2.
  set (q := (v - mn) / ((mx - mn) / inject_Z bins)) in *. clearbody q.
  set (w := (mx - mn) / inject_Z bins) in *. clearbody w.
  set (f := Qfloor q) in *. clearbody f.
  destruct (Z.min_spec (bins - 1) f) as [[Hlt ->] | [Hge ->]].
  - assert (Hfb : inject_Z bins <= inject_Z f) by (rewrite <- Zle_Qle; lia).
    assert (Hb1 : inject_Z (bins - 1) == inject_Z bins - 1).
    { unfold Z.sub. rewrite inject_Z_plus. reflexivity. }
    assert (Hm : w * inject_Z bins <= w * q).
    { apply Qmult_le_l; [exact Hw | lra]. }
    rewrite Hb1. split; [nra|]. right. split; [nra | reflexivity].
  - assert (Hm1 : w * inject_Z f <= w * q)
      by (apply Qmult_le_l; [exact Hw | exact Hf1]).
    assert (Hm2 : w * q < w * (inject_Z f + 1))
      by (apply Qmult_lt_l; [exact Hw | exact Hf2]).
    split; [nra|]. left. nra.
Qed.

Lemma floor_of_greatest :
  Qfloor ((mx - mn) / ((mx - mn) / inject_Z bins)) = bins.
Proof.
  pose proof bins_positive as Hb.
  assert (Htol : 0 < 1e-9) by reflexivity.
  assert (E : (mx - mn) / ((mx - mn) / inject_Z bins) == inject_Z bins).
  { field. split; intros E.
    - rewrite E in Hb. now apply Qlt_irrefl in Hb.
    - lra. }
  rewrite E. apply Qfloor_Z.
Qed.

Lemma floor_of_least :
  Qfloor ((mn - mn) / ((mx - mn) / inject_Z bins)) = 0%Z.
Proof.
  pose proof bins_positive as Hb.
  assert (Htol : 0 < 1e-9) by reflexivity.
  assert (E : (mn - mn) / ((mx - mn) / inject_Z bins) == 0).
  { field. split; intros E.
    - rewrite E in Hb. now apply Qlt_irrefl in Hb.
    - lra. }
  rewrite E. reflexivity.
Qed.

End BinsExact.

Section HistogramBinsExact.
Variable rt : Runtime Q.
Variables (r : AnalyticsDataRow Q) (rs : list (AnalyticsDataRow Q)).
Variable bins : Z.

Lemma spread_not_degenerate :
  let mn := min_of (value r) (List.map value rs) in
  let mx := max_of (value r) (List.map value rs) in
  1e-9 <= mx - mn -> lt (js_abs (sub mx mn)) tolerance = false.
Proof.
  intros mn mx Hge. assert (Htol : 0 < 1e-9) by reflexivity.
  apply Qltb_ge. cbn [js_abs sub Exact].
  rewrite tolerance_exact, Qabs_pos; lra.
Qed.



End HistogramBinsExact.

Local Close Scope Q_scope.



(** ** Colours of the heatmap *)

Lemma map_get_In_values {V} (m : JSMap V) (k : string) (v : V) :
  map_get m k = Some v -> In v (List.map snd m).
Proof.
  induction m as [|[k' v'] m IH]; cbn; [discriminate|].
  destruct (String.eqb k' k); [intros [= ->]; now left | auto].
Qed.

Local Open Scope Q_scope.

Lemma lightness_range (v mn mx : Q) :
  mn < mx -> mn <= v <= mx -> 54 <= lightness v mn mx <= 92.
Proof.
  intros Hlt [Hlo Hhi]. unfold lightness. cbn [sub mul div of_Z Exact].
  assert (H0 : 0 <= (v - mn) / (mx - mn))
    by (apply Qle_shift_div_l; lra).
  assert (H1 : (v - mn) / (mx - mn) <= 1)
    by (apply Qle_shift_div_r; lra).
  change (inject_Z 92) with 92. change (inject_Z 38) with 38.
  set (ratio := (v - mn) / (mx - mn)) in *. clearbody ratio. lra.
Qed.

Lemma lightness_decreasing (v v' mn mx : Q) :
  mn < mx -> v <= v' -> lightness v' mn mx <= lightness v mn mx.
Proof.
  intros Hlt Hle. unfold lightness. cbn [sub mul div of_Z Exact].
  assert (Hr : (v - mn) / (mx - mn) <= (v' - mn) / (mx - mn)).
  { apply Qle_shift_div_l; [lra|].
    assert (E : (v - mn) / (mx - mn) * (mx - mn) == v - mn)
      by (field; lra).
    rewrite E. lra. }
  change (inject_Z 92) with 92. change (inject_Z 38) with 38.
  set (ratio := (v - mn) / (mx - mn)) in *.
  set (ratio' := (v' - mn) / (mx - mn)) in *.
  clearbody ratio ratio'. lra.
Qed.

Lemma lightness_ends (mn mx : Q) :
  mn < mx -> lightness mn mn mx == 92 /\ lightness mx mn mx == 54.
Proof.
  intros Hlt. unfold lightness. cbn [sub mul div of_Z Exact].
  change (inject_Z 92) with 92. change (inject_Z 38) with 38.
  split; field; lra.
Qed.

Section HeatmapColourFacts.
Variable rt : Runtime Q.
Variable heatmap : HeatMatrix Q.

Lemma heat_value_between (v : Q) :
  In v (heatValues heatmap) -> heatMin heatmap <= v <= heatMax heatmap.
Proof.
  unfold heatMin, heatMax. destruct (heatValues heatmap) as [|v0 vs].
  - intros [].
  - intros Hin. split; [now apply min_of_lower | now apply max_of_upper].
Qed.


End HeatmapColourFacts.

Local Close Scope Q_scope.

(** ** Averages and the range of the batch *)

Lemma StronglySorted_firstn_skipn {A} (R : A -> A -> Prop) (l : list A) :
  StronglySorted R l ->
  forall n a b, In a (firstn n l) -> In b (skipn n l) -> R a b.
Proof.
  induction 1 as [|x l Hsorted IH Hall]; intros n a b Ha Hb.
  - rewrite firstn_nil in Ha. contradiction.
  - destruct n as [|n]; [contradiction|].
    cbn in Ha, Hb. destruct Ha as [<- | Ha].
    + rewrite Forall_forall in Hall. apply Hall.
      rewrite <- (firstn_skipn n l). apply in_or_app. now right.
    + now apply (IH n).
Qed.

Local Open Scope Q_scope.

Lemma group_mean_between (lo hi m : Q) (group : list (AnalyticsDataRow Q)) :
  (forall r, In r group -> lo <= value r <= hi) ->
  group_mean group = Some m -> lo <= m <= hi.
Proof.
  intros Hall Hm. unfold group_mean in Hm.
  destruct group as [|r0 group0] eqn:E; [discriminate|].
  rewrite <- E in *. injection Hm as <-.
  unfold mean_of, of_nat. cbn [add div of_Z Exact].
  change (inject_Z 0) with 0.
  apply mean_between; [rewrite E; discriminate|].
  intros x Hx. apply in_map_iff in Hx. destruct Hx as (r' & <- & Hr').
  now apply Hall.
Qed.

Lemma bars_descending (rows : list (AnalyticsDataRow Q)) :
  StronglySorted (fun a b => avg b <= avg a) (computeStationBars rows).
Proof.
  rewrite computeStationBars_unfold.
  eapply StronglySorted_weaken;
    [|apply (js_sort_stable bar_after) with
        (rank := fun p => first_seen rows (station p))].
  - intros a b _ _ [Hab _]. now apply bar_in_order.
  - intros a b c. rewrite !bar_in_order. intros; lra.
  - intros a b Hab. apply bar_in_order.
    unfold bar_after in Hab. cbn [lt sub of_Z Exact] in Hab.
    apply Qltb_lt in Hab. change (inject_Z 0) with 0 in Hab. lra.
  - apply (StronglySorted_map station
             (fun a b => (first_seen rows a < first_seen rows b)%nat)).
    rewrite station_entries. apply distinct_spec.
Qed.



Local Close Scope Q_scope.


(** ** Scatter series *)

Section ScatterFacts.
Context {num : Type} `{JSNumber num}.
Variable rt : Runtime num.
Variable inherited : string -> bool.

Lemma scatter_fold_none (rows : list (AnalyticsDataRow num)) :
  fold_left (scatter_step rt inherited) rows None = None.
Proof. induction rows; auto. Qed.

(** While no station code is an inherited name the loop is a grouping
    loop. *)
Lemma scatter_fold_plain (rows : list (AnalyticsDataRow num)) :
  forall output,
    (forall r, In r rows -> inherited (station_code r) = false) ->
    fold_left (scatter_step rt inherited) rows (Some output) =
    Some (fold_left
            (fun m r => map_set m (station_code r)
                          (get_or m (station_code r) [] ++ [scatter_point rt r]))
            rows output).
Proof.
  induction rows as [|r rows IH]; intros output Hall; [reflexivity|].
  cbn [fold_left]. unfold scatter_step at 2. unfold get_or at 2.
  rewrite (Hall r (or_introl eq_refl)).
  destruct (map_get output (station_code r));
    apply IH; intros r' Hr'; apply Hall; now right.
Qed.

Lemma scatter_fold_throws (rows : list (AnalyticsDataRow num)) :
  forall output,
    (forall k, In k (map_keys output) -> inherited k = false) ->
    (exists r, In r rows /\ inherited (station_code r) = true) ->
    fold_left (scatter_step rt inherited) rows (Some output) = None.
Proof.
  induction rows as [|r rows IH]; intros output Hown (r0 & Hin & Hr0);
    [contradiction|].
  cbn [fold_left]. unfold scatter_step at 2.
  destruct (inherited (station_code r)) eqn:Er.
  - destruct (map_get output (station_code r)) eqn:Eg.
    + assert (Hk : In (station_code r) (map_keys output))
        by (apply map_get_keys; congruence).
      apply Hown in Hk. congruence.
    + apply scatter_fold_none.
  - destruct Hin as [-> | Hin]; [congruence|].
    assert (Hown' : forall v k,
               In k (map_keys (map_set output (station_code r) v)) ->
               inherited k = false).
    { intros v k Hk. rewrite map_keys_set in Hk.
      apply set_add_In in Hk. destruct Hk as [Hk | ->]; auto. }
    destruct (map_get output (station_code r)); apply IH; eauto.
Qed.

Lemma scatter_points_fold (group : list (AnalyticsDataRow num)) :
  forall points : list (ScatterPoint num),
    fold_left (fun pts r => pts ++ [scatter_point rt r]) group points =
    (points ++ List.map (scatter_point rt) group)%list.
Proof.
  induction group as [|r group IH]; intros points; cbn.
  - now rewrite app_nil_r.
  - rewrite IH, <- app_assoc. reflexivity.
Qed.

(** The scatter series of the current workspace.  If one of the first
    4000 rows carries a station code that every object inherits, the
    computation throws.  Otherwise it gives, for every station met among
    those rows, the points of its rows in the order of the batch, each
    with the value of its row, and nothing for any other station. *)
Theorem scatter_series_by_station (rows : list (AnalyticsDataRow num)) :
  let taken := firstn 4000 rows in
  match computeScatterByStation rt inherited rows with
  | None => exists r, In r taken /\ inherited (station_code r) = true
  | Some output =>
      (forall r, In r taken -> inherited (station_code r) = false)
      /\ forall code,
           map_get output code =
           match rows_with station_code code taken with
           | [] => None
           | group => Some (List.map (scatter_point rt) group)
           end
  end.
Proof.
  intros taken. unfold computeScatterByStation. fold taken.
  destruct (existsb (fun r => inherited (station_code r)) taken) eqn:E.
  - apply existsb_exists in E.
    rewrite scatter_fold_throws; [exact E | intros k [] | exact E].
  - assert (Hall : forall r, In r taken -> inherited (station_code r) = false).
    { intros r Hr. destruct (inherited (station_code r)) eqn:Er; [|reflexivity].
      assert (Hex : existsb (fun r => inherited (station_code r)) taken = true)
        by (apply existsb_exists; eauto).
      congruence. }
    rewrite scatter_fold_plain by exact Hall.
    split; [exact Hall|]. intros code.
    rewrite (keyed_fold_get station_code
               (fun pts r => (pts ++ [scatter_point rt r])%list) []).
    unfold rows_with.
    destruct (filter (fun r => String.eqb (station_code r) code) taken)
      as [|r group]; [reflexivity|].
    rewrite scatter_points_fold. reflexivity.
Qed.

End ScatterFacts.

(** A batch with a station whose code is [constructor] cannot be drawn
    as a scatter chart; the same batch under another code can. *)
Example scatter_station_named_constructor :
  computeScatterByStation (@example_host Q) standard_inherited
    [ reading "2024-01-01T08:30:00Z" "constructor" "PM25" (of_Z 10) ] = None
  /\ option_map (List.map fst)
       (computeScatterByStation (@example_host Q) standard_inherited
          [ reading "2024-01-01T08:30:00Z" "S1" "PM25" (of_Z 10) ])
     = Some ["S1"].
Proof. split; reflexivity. Qed.

(** ** Rounding to two decimals *)

Local Open Scope Q_scope.

Lemma round_exact (v : Q) :
  round v = inject_Z (Qfloor (v * 100 + (1 # 2))) / 100.
Proof. reflexivity. Qed.

Lemma round_within (v : Q) :
  v - (1 # 200) < round v <= v + (1 # 200).
Proof.
  rewrite round_exact.
  pose proof (Qfloor_le (v * 100 + (1 # 2))) as Hlo.
  pose proof (Qlt_floor (v * 100 + (1 # 2))) as Hhi.
  rewrite inject_Z_plus in Hhi. change (inject_Z 1) with 1 in Hhi.
  set (n := Qfloor (v * 100 + (1 # 2))) in *.
  split.
  - apply Qlt_shift_div_l; lra.
  - apply Qle_shift_div_r; lra.
Qed.

Lemma round_monotone (v v' : Q) : v <= v' -> round v <= round v'.
Proof.
  intros Hle. rewrite !round_exact.
  apply Qle_shift_div_l; [lra|].
  assert (E : inject_Z (Qfloor (v * 100 + (1 # 2))) / 100 * 100
              == inject_Z (Qfloor (v * 100 + (1 # 2)))) by field.
  rewrite E. rewrite <- Zle_Qle. apply Qfloor_resp_le. lra.
Qed.

Lemma floor_of_half_past (n : Z) : Qfloor (inject_Z n + (1 # 2)) = n.
Proof.
  pose proof (Qfloor_le (inject_Z n + (1 # 2))) as H1.
  pose proof (Qlt_floor (inject_Z n + (1 # 2))) as H2.
  rewrite inject_Z_plus in H2. change (inject_Z 1) with 1 in H2.
  assert (H3 : inject_Z (Qfloor (inject_Z n + (1 # 2))) < inject_Z n + 1)
    by lra.
  assert (H4 : inject_Z n - 1 < inject_Z (Qfloor (inject_Z n + (1 # 2))))
    by lra.
  change 1 with (inject_Z 1) in H3, H4.
  rewrite <- inject_Z_plus in H3.
  unfold Qminus in H4. rewrite <- inject_Z_opp, <- inject_Z_plus in H4.
  rewrite <- Zlt_Qlt in H3, H4. lia.
Qed.



Local Close Scope Q_scope.


(** ** The series of the temporal chart *)

Lemma keyed_fold_keys {R V} (key_of : R -> string) (upd : V -> R -> V) (d : V)
    (rows : list R) : forall m : JSMap V,
  map_keys (fold_left (fun m r => map_set m (key_of r)
                                    (upd (get_or m (key_of r) d) r)) rows m)
  = fold_left set_add (List.map key_of rows) (map_keys m).
Proof.
  induction rows as [|r rows IH]; intros m; [reflexivity|].
  cbn [fold_left List.map]. now rewrite IH, map_keys_set_add.
Qed.

Lemma StronglySorted_firstn {A} (R : A -> A -> Prop) (l : list A) :
  StronglySorted R l -> forall n, StronglySorted R (firstn n l).
Proof.
  induction 1 as [|x l Hsorted IH Hall]; intros n.
  - rewrite firstn_nil. constructor.
  - destruct n as [|n]; cbn; constructor; [apply IH|].
    rewrite Forall_forall in *. intros y Hy. apply Hall.
    rewrite <- (firstn_skipn n l). apply in_or_app. now left.
Qed.

Lemma NoDup_firstn {A} (l : list A) (n : nat) : NoDup l -> NoDup (firstn n l).
Proof.
  intros Hnd. rewrite <- (firstn_skipn n l) in Hnd.
  now apply NoDup_app_remove_r in Hnd.
Qed.

Lemma count_fold {R} (g : list R) : forall n : nat,
  fold_left (fun n _ => n + 1) g n = n + List.length g.
Proof.
  induction g as [|r g IH]; intros n; cbn; [lia|]. rewrite IH. lia.
Qed.

Lemma counter_in_order (a b : string * nat) :
  in_order counter_after a b <-> snd b <= snd a.
Proof.
  unfold in_order, counter_after. rewrite Z.ltb_ge. lia.
Qed.

Section CounterFacts.
Context {num : Type} `{JSNumber num}.
Variable splitByStation : bool.
Implicit Types (rows : list (AnalyticsDataRow num)).

Lemma series_counter_keys rows :
  List.map fst (series_counter splitByStation rows)
  = series_keys splitByStation rows.
Proof.
  exact (keyed_fold_keys (seriesKeyOf splitByStation)
           (fun n (_ : AnalyticsDataRow num) => n + 1) 0 rows []).
Qed.

(** The counter of a series is the number of its rows. *)
Lemma series_counter_entries rows (k : string) (n : nat) :
  In (k, n) (series_counter splitByStation rows) ->
  n = series_count splitByStation rows k.
Proof.
  intros Hin.
  apply map_In_get in Hin;
    [|exact (keyed_fold_NoDup (seriesKeyOf splitByStation)
               (fun n (_ : AnalyticsDataRow num) => n + 1) 0 rows []
               (NoDup_nil _))].
  pose proof (keyed_fold_get (seriesKeyOf splitByStation)
                (fun n (_ : AnalyticsDataRow num) => n + 1) 0 rows [] k) as Hget.
  cbn beta in Hget. pose proof (eq_trans (eq_sym Hget) Hin) as Hn.
  clear Hget Hin. unfold series_count, rows_with.
  destruct (filter _ rows) as [|r g]; [discriminate|].
  injection Hn as <-. rewrite count_fold. reflexivity.
Qed.

(** All the series keys of a batch, most rows first. *)
Lemma series_counter_ranked rows :
  let keys := List.map fst (js_sort counter_after
                              (series_counter splitByStation rows)) in
  Permutation (series_keys splitByStation rows) keys
  /\ StronglySorted (ranked_before splitByStation rows) keys.
Proof.
  set (counter := series_counter splitByStation rows).
  pose proof (series_counter_keys rows) as Hkeys. fold counter in Hkeys.
  cbn zeta. split.
  - rewrite <- Hkeys. apply Permutation_map, js_sort_perm.
  - apply (proj1 (StronglySorted_map fst (ranked_before splitByStation rows)
                    (js_sort counter_after counter))).
    assert (Hstable :
      StronglySorted
        (stably_before counter_after
           (fun e => series_first splitByStation rows (fst e)))
        (js_sort counter_after counter)).
    { apply js_sort_stable.
      - intros a b c. rewrite !counter_in_order. lia.
      - intros a b Hab. apply counter_in_order.
        unfold counter_after in Hab. apply Z.ltb_lt in Hab. lia.
      - apply (StronglySorted_map fst
                 (fun a b => series_first splitByStation rows a
                             < series_first splitByStation rows b)).
        rewrite Hkeys. apply distinct_spec. }
    eapply StronglySorted_weaken; [|exact Hstable].
    intros [a n] [b n'] Ha Hb [Hab Htie].
    apply js_sort_In, series_counter_entries in Ha.
    apply js_sort_In, series_counter_entries in Hb.
    apply counter_in_order in Hab. cbn [fst snd] in *. subst n n'.
    split; [exact Hab|]. intros Heq. apply Htie.
    apply counter_in_order. cbn [snd]. lia.
Qed.

(** The first [n] of the ranked keys: no key that is left out has more
    rows than one that is kept. *)
Lemma ranked_prefix rows (n : nat) :
  let all := List.map fst (js_sort counter_after
                             (series_counter splitByStation rows)) in
  let kept := firstn n all in
  NoDup kept
  /\ List.length kept = Nat.min n (List.length (series_keys splitByStation rows))
  /\ StronglySorted (ranked_before splitByStation rows) kept
  /\ (forall k, In k kept ->
        exists r, In r rows /\ seriesKeyOf splitByStation r = k)
  /\ (forall k r, In k kept -> In r rows ->
        ~ In (seriesKeyOf splitByStation r) kept ->
        series_count splitByStation rows (seriesKeyOf splitByStation r)
        <= series_count splitByStation rows k).
Proof.
  destruct (series_counter_ranked rows) as [Hperm Hsorted].
  cbn zeta in *. set (all := List.map fst _) in *.
  assert (Hdistinct : NoDup (series_keys splitByStation rows)
             /\ forall k, In k (series_keys splitByStation rows) <->
                          exists r, In r rows /\ seriesKeyOf splitByStation r = k).
  { unfold series_keys.
    destruct (distinct_spec (List.map (seriesKeyOf splitByStation) rows))
      as (Hnd & Hin & _).
    split; [exact Hnd|]. intros k. rewrite Hin, in_map_iff.
    split; intros (r & H1 & H2); exists r; auto. }
  destruct Hdistinct as [Hnd Hin].
  split; [apply NoDup_firstn, (Permutation_NoDup Hperm Hnd)|].
  split; [rewrite length_firstn; f_equal; symmetry;
          now apply Permutation_length|].
  split; [now apply StronglySorted_firstn|].
  split.
  - intros k Hk. apply Hin.
    apply (Permutation_in _ (Permutation_sym Hperm)).
    rewrite <- (firstn_skipn n all). apply in_or_app. now left.
  - intros k r Hk Hr Hout.
    assert (Hall : In (seriesKeyOf splitByStation r) all).
    { apply (Permutation_in _ Hperm). apply Hin.
      exists r. split; [exact Hr | reflexivity]. }
    rewrite <- (firstn_skipn n all) in Hall.
    apply in_app_or in Hall. destruct Hall as [Hall | Hall];
      [contradiction|].
    exact (proj1 (StronglySorted_firstn_skipn _ all Hsorted n k
                    (seriesKeyOf splitByStation r) Hk Hall)).
Qed.

End CounterFacts.

Section SeriesKeyFacts.
Context {num : Type} `{JSNumber num}.
Variable rt : Runtime num.
Variable granularity : TimeGranularity.
Variable splitByStation : bool.
Implicit Types (rows : list (AnalyticsDataRow num)).

(** The series counters do not depend on the bucket map. *)
Lemma temporal_fold_counter rows : forall bucketMap seriesCounter,
  snd (fold_left (temporal_step rt granularity splitByStation) rows
                 (bucketMap, seriesCounter)) =
  fold_left
    (fun m r =>
       map_set m (seriesKeyOf splitByStation r)
         (get_or m (seriesKeyOf splitByStation r) 0 + 1))
    rows seriesCounter.
Proof.
  induction rows as [|r rows IH]; intros bucketMap seriesCounter; [reflexivity|].
  cbn [fold_left]. unfold temporal_step at 2. rewrite IH. reflexivity.
Qed.

Lemma temporal_counter rows :
  snd (fold_left (temporal_step rt granularity splitByStation) rows ([], []))
  = series_counter splitByStation rows.
Proof. exact (temporal_fold_counter rows [] []). Qed.

Lemma computeTemporalSeries_keys rows :
  snd (computeTemporalSeries rt rows granularity splitByStation) =
  let keys := List.map fst (js_sort counter_after
                              (series_counter splitByStation rows)) in
  if splitByStation then keys else firstn 4 keys.
Proof.
  unfold computeTemporalSeries.
  destruct (fold_left (temporal_step rt granularity splitByStation) rows ([], []))
    as [bucketMap seriesCounter] eqn:Efold.
  assert (Hsc : seriesCounter =
                snd (fold_left (temporal_step rt granularity splitByStation)
                               rows ([], [])))
    by now rewrite Efold.
  cbn [snd]. rewrite Hsc, temporal_counter. reflexivity.
Qed.

Lemma computeTemporalSeries_points rows :
  fst (computeTemporalSeries rt rows granularity splitByStation) =
  js_sort (point_after rt)
    (List.map temporal_point
       (fst (fold_left (temporal_step rt granularity splitByStation) rows
                       ([], [])))).
Proof.
  unfold computeTemporalSeries.
  destruct (fold_left (temporal_step rt granularity splitByStation) rows ([], []))
    as [bucketMap seriesCounter].
  reflexivity.
Qed.

End SeriesKeyFacts.

(** The series of the temporal chart.  The keys are series keys of the
    batch, each once, those with more rows first and, among those with
    as many rows, in the order in which they are first met.  When the
    chart is split by station every station of the batch has its series.
    Otherwise the series are those of the four variables with most rows,
    or of all when there are fewer, and no variable that is left out has
    more rows than one that is kept. *)
Theorem series_keys_ranked :
  forall (num : Type) (N : JSNumber num) (rt : Runtime num)
         (rows : list (AnalyticsDataRow num)) (granularity : TimeGranularity),
    (forall splitByStation,
        let keys := snd (computeTemporalSeries rt rows granularity
                           splitByStation) in
        NoDup keys
        /\ (forall k, In k keys ->
              exists r, In r rows /\ seriesKeyOf splitByStation r = k)
        /\ StronglySorted (ranked_before splitByStation rows) keys)
    /\ (forall r, In r rows ->
          In (station_code r)
             (snd (computeTemporalSeries rt rows granularity true)))
    /\ (let keys := snd (computeTemporalSeries rt rows granularity false) in
        List.length keys = Nat.min 4 (List.length (series_keys false rows))
        /\ forall k r, In k keys -> In r rows ->
             ~ In (variable_code r) keys ->
             series_count false rows (variable_code r)
             <= series_count false rows k).
Proof.
  intros num N rt rows granularity.
  split; [|split].
  - intros splitByStation keys. subst keys.
    rewrite computeTemporalSeries_keys. cbn zeta.
    destruct splitByStation.
    + destruct (series_counter_ranked true rows) as [Hperm Hsorted].
      cbn zeta in *.
      destruct (distinct_spec (List.map (seriesKeyOf true) rows))
        as (Hnd & Hin & _).
      split; [exact (Permutation_NoDup Hperm Hnd)|].
      split; [|exact Hsorted].
      intros k Hk. apply (Permutation_in _ (Permutation_sym Hperm)) in Hk.
      apply Hin, in_map_iff in Hk. destruct Hk as (r & H1 & H2). eauto.
    + destruct (ranked_prefix false rows 4) as (Hnd & _ & Hsorted & Hin & _).
      repeat split; auto.
  - intros r Hr. rewrite computeTemporalSeries_keys. cbn zeta.
    destruct (series_counter_ranked true rows) as [Hperm _].
    cbn zeta in *. apply (Permutation_in _ Hperm).
    apply distinct_spec. apply in_map_iff.
    exists r. split; [reflexivity | exact Hr].
  - cbn zeta. rewrite computeTemporalSeries_keys. cbn zeta.
    destruct (ranked_prefix false rows 4) as (_ & Hlen & _ & _ & Hout).
    split; [exact Hlen | exact Hout].
Qed.

(** ** The points of the temporal chart *)

Section SortOrdered.
Context {A : Type} (after : A -> A -> bool).
Hypothesis in_order_trans :
  forall a b c, in_order after a b -> in_order after b c -> in_order after a c.
Hypothesis after_asym : forall a b, after a b = true -> in_order after b a.

Lemma sort_insert_ordered (x : A) (l : list A) :
  StronglySorted (in_order after) l ->
  StronglySorted (in_order after) (sort_insert after x l).
Proof.
  induction l as [|y l IH]; intros Hsorted; cbn.
  - repeat constructor.
  - apply StronglySorted_inv in Hsorted. destruct Hsorted as [Hl Hy].
    destruct (after x y) eqn:E.
    + constructor; [now apply IH|].
      apply (Permutation_Forall (sort_insert_perm after x l)).
      constructor; [now apply after_asym | exact Hy].
    + constructor; [now constructor|].
      constructor; [exact E|].
      rewrite Forall_forall in *. intros z Hz.
      apply (in_order_trans x y z E). now apply Hy.
Qed.

Lemma js_sort_ordered (l : list A) :
  StronglySorted (in_order after) (js_sort after l).
Proof.
  induction l as [|x l IH]; cbn; [constructor|].
  now apply sort_insert_ordered.
Qed.

End SortOrdered.

Section TemporalPointFacts.
Context {num : Type} `{JSNumber num}.
Variable rt : Runtime num.
Variable granularity : TimeGranularity.
Variable splitByStation : bool.
Implicit Types (rows group : list (AnalyticsDataRow num)).
Implicit Types (sb : JSMap (Accumulator num)).

Lemma bucket_map_keys rows :
  map_keys (fst (fold_left (temporal_step rt granularity splitByStation) rows
                           ([], [])))
  = bucket_keys rt granularity rows.
Proof.
  rewrite (temporal_fold_buckets rt granularity splitByStation rows [] []).
  exact (keyed_fold_keys
           (fun r => getBucketKey rt (observed_at r) granularity)
           (series_step splitByStation) [] rows []).
Qed.

(** The accumulators of a bucket are those of its rows. *)
Lemma bucket_map_entry rows (b : string) (grouped : JSMap (Accumulator num)) :
  In (b, grouped)
     (fst (fold_left (temporal_step rt granularity splitByStation) rows
                     ([], []))) ->
  bucket_rows rt granularity b rows <> []
  /\ grouped = fold_left (series_step splitByStation)
                         (bucket_rows rt granularity b rows) [].
Proof.
  rewrite (temporal_fold_buckets rt granularity splitByStation rows [] []).
  intros Hin.
  apply map_In_get in Hin;
    [|exact (keyed_fold_NoDup
               (fun r => getBucketKey rt (observed_at r) granularity)
               (series_step splitByStation) [] rows [] (NoDup_nil _))].
  pose proof (keyed_fold_get
                (fun r => getBucketKey rt (observed_at r) granularity)
                (series_step splitByStation) [] rows [] b) as Hget.
  cbn beta in Hget. pose proof (eq_trans (eq_sym Hget) Hin) as Hgrouped.
  clear Hget Hin. unfold bucket_rows, rows_with.
  destruct (filter _ rows) as [|r group]; [discriminate|].
  injection Hgrouped as <-. split; [discriminate | reflexivity].
Qed.

Lemma series_step_get sb (r : AnalyticsDataRow num) (k : string) :
  k <> "overall" ->
  map_get (series_step splitByStation sb r) k =
  if String.eqb (seriesKeyOf splitByStation r) k
  then Some (acc_add (get_or sb k acc_empty) (value r))
  else map_get sb k.
Proof.
  intros Hk. unfold series_step.
  rewrite map_get_set_other by congruence. rewrite map_get_set.
  destruct (String.eqb_spec (seriesKeyOf splitByStation r) k) as [-> | Hne];
    reflexivity.
Qed.

(** Within a bucket, the accumulator of a series adds up the rows of that
    series. *)
Lemma series_fold_get group : forall sb (k : string),
  k <> "overall" ->
  map_get (fold_left (series_step splitByStation) group sb) k =
  match rows_with (seriesKeyOf splitByStation) k group with
  | [] => map_get sb k
  | g => Some (fold_left acc_add (List.map value g) (get_or sb k acc_empty))
  end.
Proof.
  induction group as [|r group IH]; intros sb k Hk; [reflexivity|].
  cbn [fold_left]. rewrite IH by exact Hk.
  unfold rows_with. cbn [filter].
  assert (Hor : get_or (series_step splitByStation sb r) k acc_empty =
                if String.eqb (seriesKeyOf splitByStation r) k
                then acc_add (get_or sb k acc_empty) (value r)
                else get_or sb k acc_empty).
  { unfold get_or at 1. rewrite series_step_get by exact Hk.
    destruct (String.eqb (seriesKeyOf splitByStation r) k); reflexivity. }
  rewrite Hor, series_step_get by exact Hk.
  destruct (String.eqb (seriesKeyOf splitByStation r) k);
    destruct (filter _ group) as [|r' g]; reflexivity.
Qed.

(** The per-series properties of the point of a bucket: one for each
    accumulator that is not filed under the name of a declared
    property. *)
Lemma point_series (entries : JSMap (Accumulator num)) :
  forall p : TemporalPoint num,
    NoDup (map_keys entries) ->
    forall k,
      map_get
        (series (fold_left (fun point kv =>
                              point_set point (fst kv) (acc_mean (snd kv)))
                           entries p)) k =
      if String.eqb k "bucket" || String.eqb k "overall"
      then map_get (series p) k
      else match map_get entries k with
           | Some a => Some (acc_mean a)
           | None => map_get (series p) k
           end.
Proof.
  induction entries as [|[k0 a0] entries IH]; intros p Hnd k.
  - cbn. destruct (_ || _); reflexivity.
  - cbn [fold_left fst snd]. cbn [map_keys List.map fst] in Hnd.
    apply NoDup_cons_iff in Hnd. destruct Hnd as [Hk0 Hnd].
    rewrite (IH _ Hnd). cbn [map_get].
    assert (Hset : map_get (series (point_set p k0 (acc_mean a0))) k =
                   if String.eqb k0 "bucket" || String.eqb k0 "overall"
                   then map_get (series p) k
                   else if String.eqb k0 k then Some (acc_mean a0)
                        else map_get (series p) k).
    { unfold point_set.
      destruct (String.eqb k0 "bucket"); [reflexivity|].
      destruct (String.eqb k0 "overall"); [reflexivity|].
      cbn [series orb]. apply map_get_set. }
    rewrite Hset.
    destruct (String.eqb_spec k0 k) as [-> | Hne].
    + destruct (String.eqb k "bucket" || String.eqb k "overall");
        [reflexivity|].
      destruct (map_get entries k) eqn:E; [|reflexivity].
      exfalso. apply Hk0. apply map_get_keys. congruence.
    + destruct (String.eqb k "bucket" || String.eqb k "overall");
        destruct (String.eqb k0 "bucket" || String.eqb k0 "overall");
        reflexivity.
Qed.

(** Under the guard the accumulators of a bucket are the series of its
    rows and [overall]. *)
Lemma guarded_bucket rows (b : string) :
  no_reserved_key splitByStation rows ->
  let grouped := fold_left (series_step splitByStation)
                           (bucket_rows rt granularity b rows) [] in
  NoDup (map_keys grouped) /\ ~ In "bucket" (map_keys grouped).
Proof.
  intros Hguard grouped. split.
  - apply series_fold_NoDup. constructor.
  - intros Hk. apply series_fold_keys in Hk.
    destruct Hk as [[] | [Hk | (r & Hr & Hk)]]; [discriminate|].
    apply filter_In in Hr. destruct Hr as [Hr _].
    now apply (Hguard r Hr).
Qed.

Lemma guarded_point_bucket rows (b : string)
    (grouped : JSMap (Accumulator num)) :
  no_reserved_key splitByStation rows ->
  In (b, grouped)
     (fst (fold_left (temporal_step rt granularity splitByStation) rows
                     ([], []))) ->
  bucket (temporal_point (b, grouped)) = JStr b.
Proof.
  intros Hguard Hin. apply bucket_map_entry in Hin.
  destruct Hin as [_ ->].
  destruct (guarded_bucket rows b Hguard) as [Hnd Hnb].
  exact (proj1 (point_fields _
                  {| bucket := JStr b; overall := of_Z 0; series := [] |}
                  Hnd Hnb)).
Qed.

End TemporalPointFacts.


Lemma guarded_points :
  forall (num : Type) (N : JSNumber num) (rt : Runtime num)
         (rows : list (AnalyticsDataRow num)) (granularity : TimeGranularity)
         (splitByStation : bool)
         (Hguard : no_reserved_key splitByStation rows)
         (Hcollate : forall a b : string,
             (0 <? localeCompare rt a b)%Z = str_lt b a),
    let points := fst (computeTemporalSeries rt rows granularity
                         splitByStation) in
    Permutation (List.map bucket points)
                (List.map JStr (bucket_keys rt granularity rows))
    /\ StronglySorted
         (fun p q => str_lt (String_ rt (bucket p)) (String_ rt (bucket q)) = true)
         points.
Proof.
  intros num N rt rows granularity splitByStation Hguard Hcollate points.
  subst points. rewrite computeTemporalSeries_points.
  set (bucketMap := fst (fold_left (temporal_step rt granularity splitByStation)
                                   rows ([], []))).
  set (label := fun p : TemporalPoint num => String_ rt (bucket p)).
  assert (Hperm : Permutation
                    (List.map bucket
                       (js_sort (point_after rt)
                          (List.map temporal_point bucketMap)))
                    (List.map JStr (bucket_keys rt granularity rows))).
  { rewrite <- (bucket_map_keys rt granularity splitByStation rows).
    fold bucketMap. unfold map_keys. rewrite (map_map fst JStr).
    transitivity (List.map bucket (List.map temporal_point bucketMap)).
    - apply Permutation_sym, Permutation_map, js_sort_perm.
    - rewrite map_map. apply Permutation_refl'.
      apply map_ext_in. intros [b grouped] Hin.
      exact (guarded_point_bucket rt granularity splitByStation rows b grouped
               Hguard Hin). }
  split; [exact Hperm|].
  assert (Hordered : StronglySorted (in_order (point_after rt))
                       (js_sort (point_after rt)
                          (List.map temporal_point bucketMap))).
  { apply js_sort_ordered.
    - intros a b c. unfold in_order, point_after. rewrite !Hcollate.
      apply str_in_order_trans.
    - intros a b. unfold in_order, point_after. rewrite !Hcollate.
      apply str_after_asym. }
  assert (Hlabels : NoDup (List.map label
                             (js_sort (point_after rt)
                                (List.map temporal_point bucketMap)))).
  { unfold label. rewrite <- (map_map bucket (String_ rt)).
    apply (Permutation_NoDup
             (Permutation_sym (Permutation_map (String_ rt) Hperm))).
    rewrite map_map. cbn [String_]. rewrite map_id.
    apply distinct_spec. }
  apply (proj2 (StronglySorted_map label (fun a b => str_lt a b = true) _)).
  eapply StronglySorted_weaken;
    [|apply (NoDup_sorted_strict (fun a b => str_lt b a = false) _ Hlabels)].
  - intros a b _ _ [Hab Hne].
    destruct (str_lt_total a b) as [Hlt | [-> | Hlt]]; congruence.
  - apply (proj1 (StronglySorted_map label (fun a b => str_lt b a = false) _)).
    eapply StronglySorted_weaken; [|exact Hordered].
    intros a b _ _ Hab. unfold in_order, point_after in Hab.
    now rewrite Hcollate in Hab.
Qed.


Lemma one_day_unreserved : no_reserved_key true (@one_day Q _).
Proof.
  intros r [<- | [<- | [<- | []]]]; split; cbn; discriminate.
Qed.

Lemma example_host_collates {num : Type} (a b : string) :
  (0 <? localeCompare (@example_host num) a b)%Z = str_lt b a.
Proof.
  cbn [localeCompare example_host]. unfold str_lt.
  rewrite (String.compare_antisym a b).
  destruct (String.compare b a); reflexivity.
Qed.



(** ** The series of the earlier workspace *)

Lemma topVariableCodes_ranked {num} (rows : list (AnalyticsDataRow num))
    (max : nat) :
  topVariableCodes rows max =
  firstn max (List.map fst (js_sort counter_after (series_counter false rows))).
Proof. unfold topVariableCodes. symmetry. apply firstn_map. Qed.

(** The variables the earlier workspace draws: codes of the batch, each
    once, as many as asked for or all when there are fewer, those with
    more rows first and equals in the order in which they are first met,
    and no variable that is left out has more rows than one that is
    kept.  Asked for four, they are the series keys of the current
    workspace when it does not split by station.  The line chart always
    has a series: the chosen variables, or [overall] when the batch is
    empty. *)
Theorem top_variable_codes :
  forall (num : Type) (N : JSNumber num) (rows : list (AnalyticsDataRow num))
         (max : nat),
    let top := topVariableCodes rows max in
    NoDup top
    /\ List.length top = Nat.min max (List.length (series_keys false rows))
    /\ StronglySorted (ranked_before false rows) top
    /\ (forall k, In k top -> exists r, In r rows /\ variable_code r = k)
    /\ (forall k r, In k top -> In r rows -> ~ In (variable_code r) top ->
          series_count false rows (variable_code r)
          <= series_count false rows k)
    /\ (forall (rt : Runtime num) granularity,
          snd (computeTemporalSeries rt rows granularity false)
          = topVariableCodes rows 4)
    /\ lineSeriesKeys top <> []
    /\ (rows = [] -> lineSeriesKeys top = ["overall"])
    /\ (rows <> [] -> max <> 0 -> lineSeriesKeys top = top).
Proof.
  intros num N rows max top. subst top.
  rewrite !topVariableCodes_ranked.
  destruct (ranked_prefix false rows max) as (Hnd & Hlen & Hsorted & Hin & Hout).
  cbn zeta in *.
  set (top := firstn max _) in *.
  split; [exact Hnd|]. split; [exact Hlen|]. split; [exact Hsorted|].
  split; [exact Hin|]. split; [exact Hout|].
  split; [intros rt granularity; now rewrite computeTemporalSeries_keys|].
  split; [destruct top; discriminate|].
  split.
  - intros ->. unfold top. cbn. now rewrite firstn_nil.
  - intros Hrows Hmax.
    destruct top as [|k top'] eqn:E; [|reflexivity].
    exfalso. cbn [List.length] in Hlen.
    destruct rows as [|r rows']; [congruence|].
    assert (Hk : In (variable_code r) (series_keys false (r :: rows'))).
    { apply distinct_spec. now left. }
    destruct (series_keys false (r :: rows')); [contradiction|].
    cbn [List.length] in Hlen. lia.
Qed.

(** ** Timestamps that do not parse *)

Lemma int_str_starts_below_N (z : Z) : starts_below_N (int_str (Some z)) = true.
Proof.
  unfold int_str, NilZero.string_of_int.
  destruct (Z.to_int z) as [u | u]; [|reflexivity].
  destruct u; reflexivity.
Qed.

Lemma starts_below_N_app (a b : string) :
  starts_below_N a = true -> starts_below_N (a ++ b) = true.
Proof. destruct a; [discriminate | auto]. Qed.

Lemma starts_below_N_lt (a b : string) :
  starts_below_N a = true -> str_lt a (String "N" b) = true.
Proof.
  destruct a as [|c a]; [discriminate|]. unfold starts_below_N, str_lt.
  cbn [String.compare].
  destruct (Ascii.compare c "N"); try discriminate. reflexivity.
Qed.

Section UnparseableFacts.
Context {num : Type} `{JSNumber num}.
Variable rt : Runtime num.

Lemma day_key_invalid : day_key None = "NaN-NaN-NaN".
Proof. reflexivity. Qed.

Lemma day_key_valid (d : UTCFields) : starts_below_N (day_key (Some d)) = true.
Proof.
  unfold day_key. apply starts_below_N_app, int_str_starts_below_N.
Qed.

Lemma getBucketKey_invalid (s : string) (g : TimeGranularity) :
  newDate rt s = None -> getBucketKey rt s g = nan_key g.
Proof. intros E. unfold getBucketKey. rewrite E. destruct g; reflexivity. Qed.

Lemma getBucketKey_valid (s : string) (g : TimeGranularity) (d : UTCFields) :
  newDate rt s = Some d -> starts_below_N (getBucketKey rt s g) = true.
Proof.
  intros E. unfold getBucketKey. rewrite E.
  destruct g; cbn [getUTCFullYear option_map];
    try apply starts_below_N_app; apply int_str_starts_below_N.
Qed.

End UnparseableFacts.

Lemma last_skipn {A} (l : list A) : forall (k : nat) (d : A),
  k < List.length l -> last (skipn k l) d = last l d.
Proof.
  induction l as [|x l IH]; intros k d Hk; [cbn in Hk; lia|].
  destruct k as [|k]; [reflexivity|].
  cbn [skipn]. cbn [List.length] in Hk. rewrite IH by lia.
  destruct l; [cbn in Hk; lia | reflexivity].
Qed.

Lemma last_slice_last {A} (n : nat) (l : list A) (d : A) :
  0 < n -> last (slice_last n l) d = last l d.
Proof.
  intros Hn. unfold slice_last.
  destruct l as [|x l]; [reflexivity|].
  apply last_skipn. cbn [List.length]. lia.
Qed.

(** The greatest string of an ascending list is its last element. *)
Lemma ascending_last (l : list string) (x : string) :
  StronglySorted (fun a b => str_lt a b = true) l ->
  In x l ->
  (forall y, In y l -> y = x \/ str_lt y x = true) ->
  last l "" = x.
Proof.
  induction 1 as [|a l Hsorted IH Hall]; intros Hin Hmax; [contradiction|].
  destruct l as [|b l].
  - destruct Hin as [-> | []]. reflexivity.
  - change (last (a :: b :: l) "") with (last (b :: l) "").
    rewrite Forall_forall in Hall.
    destruct Hin as [-> | Hin].
    + exfalso. pose proof (Hall b (or_introl eq_refl)) as Hxb.
      destruct (Hmax b (or_intror (or_introl eq_refl))) as [-> | Hbx].
      * now rewrite str_lt_irrefl in Hxb.
      * apply str_after_asym in Hbx. congruence.
    + apply IH; [exact Hin|]. intros y Hy. apply Hmax. now right.
Qed.

Lemma filter_none {A} (f : A -> bool) (l : list A) :
  (forall x, In x l -> f x = false) -> filter f l = [].
Proof.
  induction l as [|x l IH]; intros Hall; [reflexivity|].
  cbn. rewrite (Hall x (or_introl eq_refl)).
  apply IH. intros y Hy. apply Hall. now right.
Qed.

(** Rows whose timestamp does not parse are not dropped.  In the
    temporal series they all fall in one bucket, the one whose key is
    spelled with NaN, and no other row falls in it.  In the heatmap of the
    current workspace their day, [NaN-NaN-NaN], sorts after every other
    day, so that it is the last of the retained days whenever the batch
    has such a row, and none of its cells has a value. *)
Theorem unparseable_timestamps :
  forall (num : Type) (N : JSNumber num) (rt : Runtime num)
         (rows : list (AnalyticsDataRow num)),
    (forall granularity,
        bucket_rows rt granularity (nan_key granularity) rows
        = filter (unparseable rt) rows)
    /\ (forall r, In r rows -> unparseable rt r = true ->
          last (days (computeHeatmap rt rows)) "" = "NaN-NaN-NaN"
          /\ forall h : Z,
               map_get (values (computeHeatmap rt rows))
                       (heat_key "NaN-NaN-NaN" (Some h)) = None).
Proof.
  intros num N rt rows. split.
  - intros granularity. unfold bucket_rows, rows_with.
    apply filter_ext. intros r. unfold unparseable.
    destruct (newDate rt (observed_at r)) as [d|] eqn:E.
    + apply String.eqb_neq. intros Hk.
      pose proof (getBucketKey_valid rt (observed_at r) granularity d E) as Hv.
      rewrite Hk in Hv. destruct granularity; discriminate.
    + apply String.eqb_eq. now apply getBucketKey_invalid.
  - intros r Hr Hbad. unfold unparseable in Hbad.
    destruct (newDate rt (observed_at r)) eqn:Er; [discriminate|].
    unfold computeHeatmap.
    set (day_of := fun row : AnalyticsDataRow num =>
                     day_key (newDate rt (observed_at row))).
    set (hour_of := fun row : AnalyticsDataRow num =>
                      getUTCHours (newDate rt (observed_at row))).
    destruct (computeHeatmapWith_spec day_of hour_of rows)
      as ((all_days & Hsorted & Hmem & Hdays) & _ & _ & Hcells & Hkeys).
    assert (Hnan : In "NaN-NaN-NaN" all_days).
    { apply Hmem. exists r. split; [exact Hr|].
      unfold day_of. now rewrite Er. }
    assert (Hmax : forall y, In y all_days ->
                     y = "NaN-NaN-NaN" \/ str_lt y "NaN-NaN-NaN" = true).
    { intros y Hy. apply Hmem in Hy. destruct Hy as (r' & _ & <-).
      unfold day_of. destruct (newDate rt (observed_at r')) as [d|].
      - right. apply starts_below_N_lt, day_key_valid.
      - now left. }
    assert (Hlast : last (days (computeHeatmapWith day_of hour_of rows)) ""
                    = "NaN-NaN-NaN").
    { rewrite Hdays, last_slice_last by lia.
      now apply ascending_last. }
    split; [exact Hlast|]. intros h.
    destruct (map_get (values (computeHeatmapWith day_of hour_of rows))
                      (heat_key "NaN-NaN-NaN" (Some h))) as [v|] eqn:Ev;
      [|reflexivity].
    exfalso.
    destruct (Hkeys (heat_key "NaN-NaN-NaN" (Some h))) as (d & h' & Hd & Hh & Hk).
    { apply map_get_keys. congruence. }
    apply heat_key_inj in Hk. destruct Hk as [<- [= <-]].
    rewrite (Hcells _ h Hd Hh) in Ev.
    unfold cell_rows in Ev. rewrite filter_none in Ev; [discriminate|].
    intros r' _. unfold day_of, hour_of.
    destruct (newDate rt (observed_at r')) as [d|].
    + apply andb_false_iff. left. apply String.eqb_neq. intros Hk.
      pose proof (day_key_valid d) as Hv. rewrite Hk in Hv. discriminate.
    + apply andb_false_iff. now right.
Qed.

Lemma unparseable_timestamps_witness :
  let rt := @example_host Q in
  let r := reading "yesterday" "S1" "PM25" (of_Z 10) in
  let rows := [ r; reading "2024-01-01T08:00:00Z" "S1" "PM25" (of_Z 20) ] in
  In r rows /\ unparseable rt r = true
  /\ last (days (computeHeatmap rt rows)) "" = "NaN-NaN-NaN"
  /\ bucket_rows rt day "NaN-NaN-NaN" rows = [r].
Proof.
  intros rt r rows.
  assert (Hr : In r rows) by (left; reflexivity).
  assert (Hbad : unparseable rt r = true) by reflexivity.
  destruct (unparseable_timestamps Q _ rt rows) as [Hbucket Hheat].
  split; [exact Hr|]. split; [exact Hbad|].
  split; [exact (proj1 (Hheat r Hr Hbad))|].
  exact (Hbucket day).
Defined.

(** ** The daily chart of the earlier workspace *)

Lemma fold_left_ext_in {A B} (f g : A -> B -> A) (l : list B) :
  forall a, (forall a' x, In x l -> f a' x = g a' x) ->
            fold_left f l a = fold_left g l a.
Proof.
  induction l as [|x l IH]; intros a Hext; [reflexivity|].
  cbn [fold_left]. rewrite (Hext a x (or_introl eq_refl)).
  apply IH. intros a' y Hy. apply Hext. now right.
Qed.

Section SortMap.
Context {A B : Type} (f : A -> B).
Context (after : A -> A -> bool) (after' : B -> B -> bool).
Hypothesis after_map : forall a b, after' (f a) (f b) = after a b.

Lemma sort_insert_map (x : A) (l : list A) :
  List.map f (sort_insert after x l) = sort_insert after' (f x) (List.map f l).
Proof.
  induction l as [|y l IH]; [reflexivity|].
  cbn. rewrite after_map. destruct (after x y); cbn; [now rewrite IH|reflexivity].
Qed.

Lemma js_sort_map (l : list A) :
  List.map f (js_sort after l) = js_sort after' (List.map f l).
Proof.
  induction l as [|x l IH]; [reflexivity|].
  cbn. now rewrite sort_insert_map, IH.
Qed.

End SortMap.

Section DailyFacts.
Context {num : Type} `{JSNumber num}.
Variable rt : Runtime num.

Lemma daily_set_as_temporal (p : DailyVariablePoint num) (k : string) (v : num) :
  k <> "bucket" -> k <> "date" ->
  as_temporal_point (daily_set p k v) = point_set (as_temporal_point p) k v.
Proof.
  intros Hb Hd. unfold daily_set, point_set.
  apply String.eqb_neq in Hb, Hd. rewrite Hb, Hd.
  destruct (String.eqb k "overall"); reflexivity.
Qed.

Lemma daily_fold_as_temporal (entries : JSMap (Accumulator num)) :
  forall p : DailyVariablePoint num,
    (forall k, In k (map_keys entries) -> k <> "bucket" /\ k <> "date") ->
    as_temporal_point
      (fold_left (fun point kv => daily_set point (fst kv) (acc_mean (snd kv)))
                 entries p)
    = fold_left (fun point kv => point_set point (fst kv) (acc_mean (snd kv)))
                entries (as_temporal_point p).
Proof.
  induction entries as [|[k a] entries IH]; intros p Hkeys; [reflexivity|].
  cbn [fold_left fst snd].
  rewrite IH by (intros k' Hk'; apply Hkeys; now right).
  destruct (Hkeys k (or_introl eq_refl)) as [Hb Hd].
  now rewrite daily_set_as_temporal.
Qed.

(** The earlier chart is the current one at the granularity of days
    without the split by station, for a batch whose timestamps start with
    their UTC day and none of whose variables is called [bucket] or
    [date]: date for bucket label, the two charts have the same points
    in the same order. *)
Theorem daily_series_is_day_series
    (rows : list (AnalyticsDataRow num))
    (Hiso : forall r, In r rows ->
              getBucketKey rt (observed_at r) day
              = String.substring 0 10 (observed_at r))
    (Hnames : forall r, In r rows ->
                variable_code r <> "bucket" /\ variable_code r <> "date") :
  List.map as_temporal_point (computeDailySeries rt rows)
  = fst (computeTemporalSeries rt rows day false).
Proof.
  rewrite computeTemporalSeries_points. unfold computeDailySeries.
  set (bucketMap := fst (fold_left (temporal_step rt day false) rows ([], []))).
  assert (Hfold : fold_left daily_step rows [] = bucketMap).
  { unfold bucketMap.
    refine (eq_trans _ (eq_sym (temporal_fold_buckets rt day false rows [] []))).
    apply fold_left_ext_in. intros m r Hr.
    unfold daily_step. rewrite <- (Hiso r Hr). reflexivity. }
  rewrite Hfold.
  rewrite (js_sort_map as_temporal_point (daily_after rt) (point_after rt))
    by reflexivity.
  f_equal. rewrite map_map. apply map_ext_in. intros [b grouped] Hin.
  unfold daily_point, temporal_point.
  rewrite daily_fold_as_temporal; [reflexivity|].
  intros k Hk.
  destruct (bucket_map_entry rt day false rows b grouped Hin) as [_ Hgrouped].
  rewrite Hgrouped in Hk. apply series_fold_keys in Hk.
  destruct Hk as [[] | [-> | (r & Hr & <-)]]; [split; discriminate|].
  apply filter_In in Hr. destruct Hr as [Hr _].
  exact (Hnames r Hr).
Qed.

End DailyFacts.

Lemma daily_series_is_day_series_witness :
  (forall r, In r (@one_day Q _) ->
     getBucketKey (@example_host Q) (observed_at r) day
     = String.substring 0 10 (observed_at r))
  /\ (forall r, In r (@one_day Q _) ->
        variable_code r <> "bucket" /\ variable_code r <> "date")
  /\ List.map as_temporal_point (computeDailySeries example_host (@one_day Q _))
     = fst (computeTemporalSeries example_host (@one_day Q _) day false).
Proof.
  assert (Hiso : forall r, In r (@one_day Q _) ->
            getBucketKey (@example_host Q) (observed_at r) day
            = String.substring 0 10 (observed_at r)).
  { intros r [<- | [<- | [<- | []]]]; reflexivity. }
  assert (Hnames : forall r, In r (@one_day Q _) ->
            variable_code r <> "bucket" /\ variable_code r <> "date").
  { intros r [<- | [<- | [<- | []]]]; split; cbn; discriminate. }
  split; [exact Hiso|]. split; [exact Hnames|].
  exact (daily_series_is_day_series example_host (@one_day Q _) Hiso Hnames).
Defined.

(** ** A request in flight *)

Section InFlightFacts.
Context {num : Type} {Snapshot : Type}.

(** From the moment a query is issued until its answer arrives, as long
    as no other query is issued, the rows of the previous batch stay on
    screen, there is no error text and the loading flag is up: answers to
    earlier requests neither replace the rows nor stop the spinner. *)
Theorem request_in_flight_keeps_rows
    (w : Workspace num Snapshot)
    (filters : option AnalyticsFilterOptionsResponse) (sid : Z) (a : RunArgs)
    (post : list (Event num Snapshot))
    (Hpost : forallb (beside_main (requestIdRef w + 1)) post = true) :
  snd (runAnalysis_start filters (request_for sid a) w)
    = Some (requestIdRef w + 1, build_payload filters sid (request_for sid a))
  /\ main_cells (run w (RunAnalysis filters (request_for sid a) :: post))
     = (rows w, true, None, requestIdRef w + 1).
Proof.
  split; [reflexivity|].
  cbn [run fold_left].
  fold (run (step w (RunAnalysis filters (request_for sid a))) post).
  rewrite beside_main_run with (t := requestIdRef w + 1);
    [reflexivity | reflexivity | exact Hpost].
Qed.

End InFlightFacts.

Lemma request_in_flight_keeps_rows_witness :
  let w := fst (runAnalysis_start None
                  {| sourceId := Some 7%Z; stationCodes := [];
                     fromDate := ""; toDate := ""; requestedLimit := 500 |}
                  (@initial Q unit)) in
  let a := {| sourceId := None; stationCodes := ["S1"];
              fromDate := ""; toDate := ""; requestedLimit := 500 |} in
  let post := [AnalysisSettled 1
                 (Fulfilled {| resp_rows := []; resp_row_count := 0;
                               truncated := false |});
               RefreshLive] in
  forallb (beside_main (requestIdRef w + 1)) post = true
  /\ main_cells (run w (RunAnalysis None (request_for 7 a) :: post))
     = ([], true, None, 2).
Proof.
  intros w a post.
  split; [reflexivity|].
  exact (proj2 (request_in_flight_keeps_rows w None 7%Z a post eq_refl)).
Defined.

(** ** Buckets of different granularity *)

Lemma string_length_append (a b : string) :
  String.length (a ++ b) = String.length a + String.length b.
Proof. induction a as [|c a IH]; cbn; [reflexivity | now rewrite IH]. Qed.

Lemma string_append_assoc (a b c : string) :
  ((a ++ b) ++ c = a ++ (b ++ c))%string.
Proof. induction a as [|x a IH]; cbn; [reflexivity | now rewrite IH]. Qed.

(** Two strings that agree after tails of the same length are appended
    agree before. *)
Lemma string_append_cancel (a : string) : forall b s t : string,
  String.length s = String.length t ->
  (a ++ s = b ++ t)%string -> a = b.
Proof.
  induction a as [|c a IH]; intros [|c' b] s t Hlen E; cbn in E.
  - reflexivity.
  - subst s. cbn in Hlen. rewrite string_length_append in Hlen. lia.
  - subst t. cbn in Hlen. rewrite string_length_append in Hlen. lia.
  - injection E as -> E. f_equal. exact (IH b s t Hlen E).
Qed.

Lemma padStart2_two_digits (n : Z) :
  (0 <= n <= 99)%Z -> String.length (padStart2 (int_str (Some n))) = 2.
Proof.
  intros Hn.
  assert (Hall : forallb (fun k => Nat.eqb (String.length
                                   (padStart2 (int_str (Some (Z.of_nat k))))) 2)
                         (seq 0 100) = true) by (vm_compute; reflexivity).
  rewrite forallb_forall in Hall.
  specialize (Hall (Z.to_nat n)).
  rewrite Z2Nat.id in Hall by lia.
  apply Nat.eqb_eq, Hall, in_seq. lia.
Qed.

Section BucketNesting.
Context {num : Type} `{JSNumber num}.
Variable rt : Runtime num.

(** The keys of a valid date, each written as the next coarser key
    followed by one more field. *)
Lemma getBucketKey_valid_fields (s : string) (d : UTCFields) :
  newDate rt s = Some d ->
  let mm := padStart2 (int_str (Some (Z.succ (utcMonth d)))) in
  let dd := padStart2 (int_str (Some (utcDate d))) in
  let hh := padStart2 (int_str (Some (utcHours d))) in
  getBucketKey rt s month = (getBucketKey rt s year ++ ("-" ++ mm))%string
  /\ getBucketKey rt s day = (getBucketKey rt s month ++ ("-" ++ dd))%string
  /\ getBucketKey rt s hour
     = (getBucketKey rt s day ++ (" " ++ hh ++ ":00"))%string.
Proof.
  intros E. unfold getBucketKey. rewrite E. cbn zeta.
  cbn [getUTCFullYear getUTCMonth getUTCDate getUTCHours option_map succ_int].
  repeat split; rewrite ?string_append_assoc; cbn [String.append];
    rewrite ?string_append_assoc; reflexivity.
Qed.

Lemma valid_key_is_not_nan (s s' : string) (g : TimeGranularity)
    (d : UTCFields) :
  newDate rt s = Some d -> newDate rt s' = None ->
  getBucketKey rt s g <> getBucketKey rt s' g.
Proof.
  intros E E' Hk.
  pose proof (getBucketKey_valid rt s g d E) as Hv.
  rewrite Hk, (getBucketKey_invalid rt s' g E') in Hv.
  destruct g; discriminate.
Qed.

(** The buckets nest: two timestamps that fall in the same hour bucket
    fall in the same day bucket, in the same day bucket in the same month
    bucket, and in the same month bucket in the same year bucket. *)
Theorem bucket_keys_nest (s1 s2 : string)
    (H1 : well_dated rt s1) (H2 : well_dated rt s2) :
  (getBucketKey rt s1 hour = getBucketKey rt s2 hour ->
   getBucketKey rt s1 day = getBucketKey rt s2 day)
  /\ (getBucketKey rt s1 day = getBucketKey rt s2 day ->
      getBucketKey rt s1 month = getBucketKey rt s2 month)
  /\ (getBucketKey rt s1 month = getBucketKey rt s2 month ->
      getBucketKey rt s1 year = getBucketKey rt s2 year).
Proof.
  destruct (newDate rt s1) as [d1|] eqn:E1;
    destruct (newDate rt s2) as [d2|] eqn:E2.
  - destruct (H1 d1 E1) as (Hm1 & Hd1 & Hh1).
    destruct (H2 d2 E2) as (Hm2 & Hd2 & Hh2).
    destruct (getBucketKey_valid_fields s1 d1 E1) as (Em1 & Ed1 & Eh1).
    destruct (getBucketKey_valid_fields s2 d2 E2) as (Em2 & Ed2 & Eh2).
    cbn zeta in *.
    repeat split; intros Hk.
    + rewrite Eh1, Eh2 in Hk.
      apply string_append_cancel in Hk; [exact Hk|].
      cbn [String.append String.length].
      rewrite !string_length_append, !padStart2_two_digits by lia.
      reflexivity.
    + rewrite Ed1, Ed2 in Hk.
      apply string_append_cancel in Hk; [exact Hk|].
      cbn [String.append String.length].
      rewrite !padStart2_two_digits by lia. reflexivity.
    + rewrite Em1, Em2 in Hk.
      apply string_append_cancel in Hk; [exact Hk|].
      cbn [String.append String.length].
      rewrite !padStart2_two_digits by lia. reflexivity.
  - repeat split; intros Hk;
      now apply (valid_key_is_not_nan s1 s2 _ d1 E1 E2) in Hk.
  - repeat split; intros Hk; symmetry in Hk;
      now apply (valid_key_is_not_nan s2 s1 _ d2 E2 E1) in Hk.
  - repeat split; intros _;
      now rewrite !getBucketKey_invalid.
Qed.

End BucketNesting.

Lemma bucket_keys_nest_witness :
  let rt := @example_host Q in
  let s1 := "2024-01-01T08:00:00Z" in
  let s2 := "2024-01-01T08:30:00Z" in
  well_dated rt s1 /\ well_dated rt s2
  /\ getBucketKey rt s1 hour = getBucketKey rt s2 hour
  /\ getBucketKey rt s1 day = getBucketKey rt s2 day.
Proof.
  intros rt s1 s2.
  assert (H1 : well_dated rt s1).
  { intros d [= <-]. unfold calendar_fields. cbn. lia. }
  assert (H2 : well_dated rt s2).
  { intros d [= <-]. unfold calendar_fields. cbn. lia. }
  assert (Hk : getBucketKey rt s1 hour = getBucketKey rt s2 hour)
    by reflexivity.
  split; [exact H1|]. split; [exact H2|]. split; [exact Hk|].
  exact (proj1 (bucket_keys_nest rt s1 s2 H1 H2) Hk).
Defined.

(** ** The trend of the workspace *)

Lemma StronglySorted_last {A} (R : A -> A -> Prop) (l : list A) (d : A) :
  StronglySorted R l ->
  forall x, In x l -> x = last l d \/ R x (last l d).
Proof.
  induction 1 as [|a l Hsorted IH Hall]; intros x Hx; [contradiction|].
  destruct l as [|b l].
  - destruct Hx as [-> | []]. now left.
  - change (last (a :: b :: l) d) with (last (b :: l) d).
    destruct Hx as [<- | Hx]; [|now apply IH].
    right. rewrite Forall_forall in Hall. apply Hall.
    destruct (exists_last (l := b :: l)) as (l' & y & E); [discriminate|].
    rewrite E, last_last. apply in_or_app. right. now left.
Qed.

Lemma last_In {A} (l : list A) (d : A) : l <> [] -> In (last l d) l.
Proof.
  intros Hne. destruct (exists_last Hne) as (l' & y & ->).
  rewrite last_last. apply in_or_app. right. now left.
Qed.



(** ** Range presets *)

Lemma str_le_refl (a : string) : str_le a a = true.
Proof.
  unfold str_le. destruct (String_as_OT.cmp_eq a a) as [_ E].
  unfold String_as_OT.cmp in E. now rewrite (E eq_refl).
Qed.

Lemma str_lt_false_le (a b : string) : str_lt a b = false -> str_le b a = true.
Proof.
  unfold str_lt, str_le. rewrite (String.compare_antisym a b).
  destruct (String.compare b a); cbn; congruence.
Qed.

Section RangePresetFacts.
Context {num : Type}.
Variable rt : Runtime num.
Variable setUTCDate : JSDate -> option Z -> JSDate.

(** A preset of the date window keeps the window within the data.
    Without filters, without a last observation or for an identifier
    that is not a preset, nothing changes.  Otherwise the window ends at
    the day of the last observation and does not start before the day of
    the first one, when that is known; the preset for the whole range
    starts at the first day. *)
Theorem preset_stays_within_data
    (filters : option AnalyticsFilterOptionsResponse) (presetId : string)
    (window : DateWindow) :
  let window' := applyRangePreset rt setUTCDate filters presetId window in
  let first := toIsoDate (match filters with
                          | Some f => min_observed_at f
                          | None => None
                          end) in
  let latest := toIsoDate (match filters with
                           | Some f => max_observed_at f
                           | None => None
                           end) in
  (filters = None \/ latest = "" \/ ~ In presetId (List.map fst RANGE_PRESETS) ->
     window' = window)
  /\ (filters <> None -> latest <> "" ->
      In presetId (List.map fst RANGE_PRESETS) ->
        rangePreset window' = presetId
        /\ dateTo window' = latest
        /\ (first <> "" -> str_le first (dateFrom window') = true)
        /\ (presetId = "all" -> dateFrom window' = first)).
Proof.
  intros window' first latest. subst window'. unfold applyRangePreset.
  destruct filters as [f|]; [|split; [reflexivity | congruence]].
  fold first latest.
  destruct (falsy latest) eqn:Elatest.
  { apply falsy_spec in Elatest. split; [reflexivity | congruence]. }
  assert (Hlatest : latest <> "")
    by (intros E; apply falsy_spec in E; congruence).
  destruct (find (fun item => String.eqb (fst item) presetId) RANGE_PRESETS)
    as [[pid days]|] eqn:Efind.
  - apply find_some in Efind. destruct Efind as [Hin Heq].
    cbn [fst] in Heq. apply String.eqb_eq in Heq. subst pid.
    assert (Hid : In presetId (List.map fst RANGE_PRESETS))
      by (apply in_map_iff; exists (presetId, days); auto).
    split; [intros [Hf | [Hl | Hn]]; [discriminate | contradiction | contradiction]|].
    intros _ _ _.
    destruct days as [days|]; cbn [rangePreset dateTo dateFrom].
    + split; [reflexivity|]. split; [reflexivity|]. split.
      * intros Hfirst.
        assert (Ef : falsy first = false).
        { destruct (falsy first) eqn:E; [|reflexivity].
          apply falsy_spec in E. contradiction. }
        rewrite Ef. cbn [negb andb].
        destruct (str_lt _ first) eqn:Elt;
          [apply str_le_refl | now apply str_lt_false_le].
      * intros ->. exfalso.
        cbn in Hin. intuition congruence.
    + split; [reflexivity|]. split; [reflexivity|].
      split; [intros _; apply str_le_refl | reflexivity].
  - split; [reflexivity|]. intros _ _ Hid. exfalso.
    apply in_map_iff in Hid. destruct Hid as ([pid days] & Hpid & Hin).
    cbn [fst] in Hpid. subst pid.
    apply (find_none _ _ Efind) in Hin. cbn [fst] in Hin.
    now rewrite String.eqb_refl in Hin.
Qed.

End RangePresetFacts.
